(** * dydx-tracker: the position ledger, its persistence pipeline and the
      connection supervisor, embedded from the TypeScript sources.

    Layout: the numeric substrate first ([Decimal] for decimal.js values and
    [Js] for ECMAScript Numbers), then the ledger functions of
    [src/utils/functions.ts] and [src/utils/trading.ts], the persistence
    pipeline ([services/processor.ts], [services/crons.ts],
    [utils/database.ts]) and the socket handlers of
    [src/services/websocket.ts]; the theorems follow the definitions. *)

From Stdlib Require Import ZArith QArith Qpower Qabs Lia Lqa List Ascii String
  Bool SpecFloat.
From stdpp Require Import base gmap strings.

Local Open Scope Z_scope.

(** ** decimal.js values

    A numeric string of the feed ("110", "0.5", "-5") and a [Decimal] object
    are both represented by the decimal they denote: [Finite c e] stands for
    [c * 10^e].  decimal.js keeps two special values besides.  The sign of a
    zero is not tracked. *)
Module Decimal.

Inductive t : Set :=
| NaN
| Infinity (negative : bool)
| Finite (coefficient exponent : Z).

(** [Decimal.precision]: the library default, 20 significant digits; the
    repository never reconfigures it.  The rounding mode is the default
    ROUND_HALF_UP (ties away from zero). *)
Definition precision : Z := 20.

Fixpoint digits_fuel (fuel : nat) (n : Z) : Z :=
  match fuel with
  | O => 0
  | S fuel' => if n =? 0 then 0 else 1 + digits_fuel fuel' (n / 10)
  end.

(** Number of decimal digits of [|n|] (0 for 0). *)
Definition digits (n : Z) : Z :=
  digits_fuel (S (Z.to_nat (Z.log2 (Z.abs n)))) (Z.abs n).

Fixpoint strip_fuel (fuel : nat) (c e : Z) : Z * Z :=
  match fuel with
  | O => (c, e)
  | S fuel' =>
      if c =? 0 then (0, 0)
      else if c mod 10 =? 0 then strip_fuel fuel' (c / 10) (e + 1)
      else (c, e)
  end.

(** decimal.js stores a coefficient without trailing zeros. *)
Definition normalise (c e : Z) : Z * Z :=
  strip_fuel (S (Z.to_nat (Z.log2 (Z.abs c)))) c e.

Definition of_pair (p : Z * Z) : t := Finite (fst p) (snd p).

(** [finalise]: round an exact result to [precision] significant digits,
    half away from zero. *)
Definition finalise (c e : Z) : t :=
  let '(c', e') := normalise c e in
  let d := digits c' in
  if d <=? precision then Finite c' e'
  else
    let k := d - precision in
    let m := (Z.abs c' + 5 * 10 ^ (k - 1)) / 10 ^ k in
    of_pair (normalise (Z.sgn c' * m) (e' + k)).

(** [new Decimal(str)] for a decimal literal: no rounding, canonical form. *)
Definition parse (x : t) : t :=
  match x with
  | Finite c e => of_pair (normalise c e)
  | _ => x
  end.

Definition is_zero (x : t) : bool :=
  match x with Finite c _ => c =? 0 | _ => false end.

Definition is_negative (x : t) : bool :=
  match x with
  | Finite c _ => c <? 0
  | Infinity s => s
  | NaN => false
  end.

Definition neg (x : t) : t :=
  match x with
  | NaN => NaN
  | Infinity s => Infinity (negb s)
  | Finite c e => Finite (- c) e
  end.

Definition abs (x : t) : t :=
  match x with
  | NaN => NaN
  | Infinity _ => Infinity false
  | Finite c e => Finite (Z.abs c) e
  end.

(** The exact sum of two finite decimals, on the smaller exponent. *)
Definition exact_add (c1 e1 c2 e2 : Z) : Z * Z :=
  let e := Z.min e1 e2 in
  (c1 * 10 ^ (e1 - e) + c2 * 10 ^ (e2 - e), e).

Definition plus (x y : t) : t :=
  match x, y with
  | NaN, _ | _, NaN => NaN
  | Infinity s1, Infinity s2 => if Bool.eqb s1 s2 then x else NaN
  | Infinity _, Finite _ _ => x
  | Finite _ _, Infinity _ => y
  | Finite c1 e1, Finite c2 e2 =>
      let '(c, e) := exact_add c1 e1 c2 e2 in finalise c e
  end.

Definition minus (x y : t) : t := plus x (neg y).

Definition times (x y : t) : t :=
  match x, y with
  | NaN, _ | _, NaN => NaN
  | Infinity s1, Infinity s2 => Infinity (xorb s1 s2)
  | Infinity s, Finite c _ | Finite c _, Infinity s =>
      if c =? 0 then NaN else Infinity (xorb s (c <? 0))
  | Finite c1 e1, Finite c2 e2 => finalise (c1 * c2) (e1 + e2)
  end.

(** Division: the quotient is developed to more than [precision] digits,
    truncated, and rounded by [finalise]; one dropped digit at least makes
    the truncation invisible to the half-up rounding. *)
Definition div (x y : t) : t :=
  match x, y with
  | NaN, _ | _, NaN => NaN
  | Infinity _, Infinity _ => NaN
  | Infinity s, Finite c _ => Infinity (xorb s (c <? 0))
  | Finite c _, Infinity _ => Finite 0 0
  | Finite c1 e1, Finite c2 e2 =>
      if c2 =? 0 then (if c1 =? 0 then NaN else Infinity (c1 <? 0))
      else if c1 =? 0 then Finite 0 0
      else
        let s := Z.max 0 (precision + 2 + digits c2 - digits c1) in
        finalise (Z.quot (c1 * 10 ^ s) c2) (e1 - e2 - s)
  end.

(** [x.cmp(y)]; [None] when either side is NaN. *)
Definition cmp (x y : t) : option comparison :=
  match x, y with
  | NaN, _ | _, NaN => None
  | Infinity s1, Infinity s2 =>
      Some (match s1, s2 with
            | true, false => Lt
            | false, true => Gt
            | _, _ => Eq
            end)
  | Infinity s, Finite _ _ => Some (if s then Lt else Gt)
  | Finite _ _, Infinity s => Some (if s then Gt else Lt)
  | Finite c1 e1, Finite c2 e2 =>
      let e := Z.min e1 e2 in
      Some (c1 * 10 ^ (e1 - e) ?= c2 * 10 ^ (e2 - e))
  end.

Definition greaterThan (x y : t) : bool :=
  match cmp x y with Some Gt => true | _ => false end.

Definition zero : t := Finite 0 0.

Definition is_finite (x : t) : bool :=
  match x with Finite _ _ => true | _ => false end.

(** The rational a finite decimal denotes (0 for the special values). *)
Definition to_Q (x : t) : Q :=
  match x with
  | Finite c e => (inject_Z c * (10 # 1) ^ e)%Q
  | _ => 0%Q
  end.

Definition eqb (x y : t) : bool :=
  match x, y with
  | NaN, NaN => true
  | Infinity s1, Infinity s2 => Bool.eqb s1 s2
  | Finite c1 e1, Finite c2 e2 => (c1 =? c2) && (e1 =? e2)
  | _, _ => false
  end.

(** The exact result [c * 10^e] has at most [precision] significant
    digits: [finalise] does not round. *)
Definition fits (c e : Z) : bool :=
  digits (fst (normalise c e)) <=? precision.

(** The operation on two finite decimals needs no rounding. *)
Definition exact_plus (x y : t) : bool :=
  match x, y with
  | Finite c1 e1, Finite c2 e2 =>
      let '(c, e) := exact_add c1 e1 c2 e2 in fits c e
  | _, _ => false
  end.

Definition exact_minus (x y : t) : bool := exact_plus x (neg y).

Definition exact_times (x y : t) : bool :=
  match x, y with
  | Finite c1 e1, Finite c2 e2 => fits (c1 * c2) (e1 + e2)
  | _, _ => false
  end.

(** The divisor is not zero and the quotient is a decimal of at most
    [precision] digits. *)
Definition exact_div (x y : t) : bool :=
  match x, y with
  | Finite c1 e1, Finite c2 e2 =>
      negb (c2 =? 0)
      && ((c1 =? 0)
          || (let s := Z.max 0 (precision + 2 + digits c2 - digits c1) in
              (Z.rem (c1 * 10 ^ s) c2 =? 0)
              && fits (Z.quot (c1 * 10 ^ s) c2) (e1 - e2 - s)))
  | _, _ => false
  end.

(** Position of the leading digit: [10^(n-1) <= |c * 10^e| < 10^n]. *)
Definition magnitude (c e : Z) : Z := digits c + e.

(** [toString] prints plain notation between [toExpNeg = -7] and
    [toExpPos = 21] (the same bounds as Number.prototype.toString) and
    exponential notation outside. *)
Definition plain_notation (x : t) : bool :=
  match x with
  | Finite c e =>
      (c =? 0) || ((-7 <? magnitude c e - 1) && (magnitude c e - 1 <? 21))
  | _ => false
  end.

End Decimal.

(** ** ECMAScript Numbers: IEEE 754 binary64, round to nearest even. *)
Module Js.

Definition prec : Z := 53.
Definition emax : Z := 1024.

Definition number : Set := spec_float.

Definition mul : number -> number -> number := SFmul prec emax.
Definition sub : number -> number -> number := SFsub prec emax.
Definition opp : number -> number := SFopp.

(** [Number(str)] / ToNumber on a decimal literal: the binary64 nearest to
    the decimal.  An integer is rounded directly; a fraction [c / 10^k] is
    the correctly rounded quotient of the two integers. *)
Definition ToNumber (d : Decimal.t) : number :=
  match d with
  | Decimal.NaN => S754_nan
  | Decimal.Infinity s => S754_infinity s
  | Decimal.Finite c e =>
      match c with
      | Z0 => S754_zero false
      | Zpos p | Zneg p =>
          if 0 <=? e then
            binary_normalize prec emax (c * 10 ^ e) 0 false
          else
            SFdiv prec emax (S754_finite (c <? 0) p 0)
              (S754_finite false (Z.to_pos (10 ^ (- e))) 0)
      end
  end.

(** The exact value [num / den] of a positive finite Number. *)
Definition exact_fraction (m : positive) (e : Z) : Z * Z :=
  if 0 <=? e then (Zpos m * 2 ^ e, 1) else (Zpos m, 2 ^ (- e)).

(** [n] with [10^(n-1) <= num/den < 10^n]. *)
Definition magnitude (num den : Z) : Z :=
  let g := Decimal.digits num - Decimal.digits den in
  let above :=
    if 0 <=? g then den * 10 ^ g <=? num else den <=? num * 10 ^ (- g) in
  if above then g + 1 else g.

(** [floor (num/den / 10^scale)]. *)
Definition scaled_floor (num den scale : Z) : Z :=
  if 0 <=? scale then num / (den * 10 ^ scale)
  else (num * 10 ^ (- scale)) / den.

(** Twice the distance, times [den], between [num/den] and [s * 10^scale],
    on a common positive scale. *)
Definition distance (num den s scale : Z) : Z :=
  if 0 <=? scale then Z.abs (num - s * 10 ^ scale * den)
  else Z.abs (num * 10 ^ (- scale) - s * den).

(** Number::toString, step 5: the digits [s] of length [k] with
    [ToNumber (s * 10^(n-k)) = x], [k] as small as possible, [s] closest to
    [x] (even on a tie).  The upper candidate may be the next power of ten
  itself.  Seventeen digits always suffice. *)
Fixpoint shortest (fuel : nat) (k : Z) (x : number) (num den n : Z)
  : option (Z * Z) :=
  match fuel with
  | O => None
  | S fuel' =>
      let scale := n - k in
      let lo := scaled_floor num den scale in
      let hi := lo + 1 in
      let ok s :=
        (10 ^ (k - 1) <=? s) && (s <=? 10 ^ k)
        && SFeqb (ToNumber (Decimal.Finite s scale)) x in
      match ok lo, ok hi with
      | true, false => Some (lo, scale)
      | false, true => Some (hi, scale)
      | true, true =>
          match distance num den lo scale ?= distance num den hi scale with
          | Lt => Some (lo, scale)
          | Gt => Some (hi, scale)
          | Eq => Some (if Z.even lo then lo else hi, scale)
          end
      | false, false => shortest fuel' (k + 1) x num den n
      end
  end.

(** The decimal that [x.toString()] denotes ("NaN", "Infinity",
    "-Infinity", "0" for both zeros, shortest round-trip digits otherwise);
    [new Decimal(x)] reads the same string. *)
Definition toString (x : number) : Decimal.t :=
  match x with
  | S754_nan => Decimal.NaN
  | S754_infinity s => Decimal.Infinity s
  | S754_zero _ => Decimal.zero
  | S754_finite s m e =>
      let '(num, den) := exact_fraction m e in
      let n := magnitude num den in
      match shortest 17 1 (S754_finite false m e) num den n with
      | Some (digits, scale) =>
          Decimal.of_pair
            (Decimal.normalise (if s then - digits else digits) scale)
      | None => Decimal.NaN
      end
  end.

End Js.

(** ** Data model ([src/constants/interfaces.ts], [src/constants/dydx.ts]) *)

Definition OPEN_STATUS : string := "OPEN".
Definition CLOSED_STATUS : string := "CLOSED".
Definition SUBSCRIPTION_TYPE : string := "subscribed".
Definition DATA_TYPE : string := "channel_data".

Definition AMOUNT_DECIMALS : Z := 6.
Definition PRICE_DECIMALS : Z := 18.

(** The lifecycle tag of a row, the strings "open", "update" and "close". *)
Inductive RowType : Set := open | update | close.

(** A perpetual position as the feed reports it.  Numeric fields are decimal
    strings; [exitPrice] is [null] until something was closed. *)
Module Position.
Record t : Set := {
  market : string;
  side : string;
  status : string;
  size : Decimal.t;
  sumOpen : Decimal.t;
  sumClose : Decimal.t;
  entryPrice : Decimal.t;
  exitPrice : option Decimal.t;
  netFunding : Decimal.t;
  createdAtHeight : string;
  createdAt : string
}.
End Position.

Module Fill.
Record t : Set := {
  createdAtHeight : string;
  createdAt : string
}.
End Fill.

(** [TradeInterface], with the [type] tag that the ledger functions add. *)
Module TradeInterface.
Record t : Set := {
  user : Z;
  trade_id : string;
  trader_address : option string;
  token : string;
  bias : Z;
  size : Decimal.t;
  sum_open : Decimal.t;
  sum_close : Decimal.t;
  limit_price : Decimal.t;
  exit_price : option Decimal.t;
  start_date : string;
  end_date : option string;
  funding : Decimal.t;
  realised_pnl : Decimal.t;
  pnl : Decimal.t;
  is_profitable : Z;
  type : RowType
}.
End TradeInterface.

Abbreviation lane_map := (gmap string TradeInterface.t).

(** ** [src/utils/functions.ts] *)

(** [str.replace(/-/g, "")] *)
Fixpoint remove_hyphens (s : string) : string :=
  match s with
  | EmptyString => EmptyString
  | String c rest =>
      if Ascii.eqb c "-"%char then remove_hyphens rest
      else String c (remove_hyphens rest)
  end.

(** [a ? a : b] on a string that may be null. *)
Definition or_else (a : option string) (b : string) : string :=
  match a with
  | Some s => if String.eqb s "" then b else s
  | None => b
  end.

(** [aggregatePositions]: push the row on the processor queue. *)
Definition aggregatePositions (row : TradeInterface.t)
  (queue : list TradeInterface.t) : list TradeInterface.t :=
  queue ++ [row].

(** The [realised_pnl] expression that [createNewPosition] and
    [updateExistingPosition] both spell out: plain Number arithmetic on the
    coerced strings. *)
Definition realised_pnl_number (position : Position.t) : Js.number :=
  let realised_pnl :=
    match Position.exitPrice position with
    | Some exitPrice =>
        Js.mul (Js.ToNumber (Position.sumClose position))
          (Js.sub (Js.ToNumber exitPrice)
             (Js.ToNumber (Position.entryPrice position)))
    | None => S754_zero false
    end in
  if String.eqb (Position.side position) "LONG" then realised_pnl
  else Js.opp realised_pnl.

(** An address inside a template literal; [undefined] prints as such. *)
Definition template_address (address : option string) : string :=
  match address with
  | Some a => a
  | None => "undefined"
  end.

Definition template_trade_id (address : option string)
  (symbol side blockHeight : string) : string :=
  (template_address address ++ "-" ++ symbol ++ "-" ++ side ++ "-"
     ++ blockHeight)%string.

Definition createNewPosition (user : Z) (position : Position.t)
  (address : option string) (blockHeight createdAt : option string) (type : RowType)
  (queue : list TradeInterface.t)
  : TradeInterface.t * list TradeInterface.t :=
  let symbol := remove_hyphens (Position.market position) in
  let blockHeight := or_else blockHeight (Position.createdAtHeight position) in
  let createdAt := or_else createdAt (Position.createdAt position) in
  let realised_pnl := realised_pnl_number position in
  let trader_position :=
    {| TradeInterface.user := user;
       TradeInterface.trade_id :=
         template_trade_id address symbol (Position.side position) blockHeight;
       TradeInterface.trader_address := address;
       TradeInterface.token := symbol;
       TradeInterface.bias :=
         if String.eqb (Position.side position) "LONG" then 1 else 0;
       TradeInterface.size := Position.size position;
       TradeInterface.sum_open := Position.sumOpen position;
       TradeInterface.sum_close := Position.sumClose position;
       TradeInterface.limit_price := Position.entryPrice position;
       TradeInterface.exit_price := Position.exitPrice position;
       TradeInterface.start_date := createdAt;
       TradeInterface.end_date := None;
       TradeInterface.funding := Position.netFunding position;
       TradeInterface.realised_pnl := Js.toString realised_pnl;
       TradeInterface.pnl := Decimal.zero;
       TradeInterface.is_profitable := 0;
       TradeInterface.type := type |} in
  (trader_position, aggregatePositions trader_position queue).

Definition updateExistingPosition (trader_position : TradeInterface.t)
  (position : Position.t) (queue : list TradeInterface.t)
  : TradeInterface.t * list TradeInterface.t :=
  let realised_pnl := realised_pnl_number position in
  let trader_position :=
    {| TradeInterface.user := TradeInterface.user trader_position;
       TradeInterface.trade_id := TradeInterface.trade_id trader_position;
       TradeInterface.trader_address :=
         TradeInterface.trader_address trader_position;
       TradeInterface.token := TradeInterface.token trader_position;
       TradeInterface.bias := TradeInterface.bias trader_position;
       TradeInterface.size := Position.size position;
       TradeInterface.sum_open := Position.sumOpen position;
       TradeInterface.sum_close := Position.sumClose position;
       TradeInterface.limit_price := Position.entryPrice position;
       TradeInterface.exit_price := Position.exitPrice position;
       TradeInterface.start_date := TradeInterface.start_date trader_position;
       TradeInterface.end_date := TradeInterface.end_date trader_position;
       TradeInterface.funding := Position.netFunding position;
       TradeInterface.realised_pnl := Js.toString realised_pnl;
       TradeInterface.pnl := Decimal.zero;
       TradeInterface.is_profitable := 0;
       TradeInterface.type := update |} in
  (trader_position, aggregatePositions trader_position queue).

(** [new Decimal(-x)]: the unary minus coerces [x] to a Number, and the
    constructor reads the Number back through its string form. *)
Definition Decimal_of_negated (x : Decimal.t) : Decimal.t :=
  Decimal.parse (Js.toString (Js.opp (Js.ToNumber x))).

(** The amount moved to the other side (first statement of [flipPosition]). *)
Definition last_position (position : Position.t) : Decimal.t :=
  Decimal.minus
    (Decimal.minus (Decimal.parse (Position.sumOpen position))
       (Decimal.abs (Decimal.parse (Position.size position))))
    (Position.sumClose position).

Definition avg_close (trader_position : TradeInterface.t)
  (position : Position.t) : Decimal.t :=
  match TradeInterface.exit_price trader_position with
  | Some exit_price =>
      Decimal.div
        (Decimal.plus
           (Decimal.times (last_position position)
              (Position.entryPrice position))
           (Decimal.times
              (Decimal.parse (TradeInterface.sum_close trader_position))
              exit_price))
        (Decimal.plus
           (Decimal.parse (TradeInterface.sum_close trader_position))
           (last_position position))
  | None => Decimal.parse (Position.entryPrice position)
  end.

Definition adjusted_size (trader_position : TradeInterface.t)
  (position : Position.t) : Decimal.t :=
  let adjusted_size :=
    Decimal.plus (Decimal.parse (TradeInterface.sum_close trader_position))
      (last_position position) in
  if TradeInterface.bias trader_position =? 0
  then Decimal_of_negated adjusted_size
  else Decimal.parse adjusted_size.

Definition flipPosition (trader_position : TradeInterface.t)
  (position : Position.t) (end_date : string)
  (queue : list TradeInterface.t)
  : TradeInterface.t * list TradeInterface.t :=
  let avg_close := avg_close trader_position position in
  let adjusted_size := adjusted_size trader_position position in
  let pnl :=
    Decimal.plus
      (Decimal.times adjusted_size
         (Decimal.minus avg_close
            (TradeInterface.limit_price trader_position)))
      (TradeInterface.funding trader_position) in
  let trader_position :=
    {| TradeInterface.user := TradeInterface.user trader_position;
       TradeInterface.trade_id := TradeInterface.trade_id trader_position;
       TradeInterface.trader_address :=
         TradeInterface.trader_address trader_position;
       TradeInterface.token := TradeInterface.token trader_position;
       TradeInterface.bias := TradeInterface.bias trader_position;
       TradeInterface.size := adjusted_size;
       TradeInterface.sum_open := TradeInterface.sum_open trader_position;
       TradeInterface.sum_close := TradeInterface.sum_close trader_position;
       TradeInterface.limit_price :=
         TradeInterface.limit_price trader_position;
       TradeInterface.exit_price := Some avg_close;
       TradeInterface.start_date := TradeInterface.start_date trader_position;
       TradeInterface.end_date := Some end_date;
       TradeInterface.funding := TradeInterface.funding trader_position;
       TradeInterface.realised_pnl := Decimal.zero;
       TradeInterface.pnl := pnl;
       TradeInterface.is_profitable :=
         if Decimal.greaterThan pnl Decimal.zero then 1 else 0;
       TradeInterface.type := close |} in
  (trader_position, aggregatePositions trader_position queue).

(** [closePosition] throws (and changes nothing) when [new Decimal] is handed
    the [null] exit price: [None]. *)
Definition closePosition (trader_position : TradeInterface.t)
  (position : Position.t) (end_date : string)
  (queue : list TradeInterface.t)
  : option (TradeInterface.t * list TradeInterface.t) :=
  let size :=
    if String.eqb (Position.side position) "LONG"
    then Decimal.parse (Position.sumClose position)
    else Decimal_of_negated (Position.sumClose position) in
  match Position.exitPrice position with
  | None => None
  | Some exitPrice =>
      let pnl :=
        Decimal.times size
          (Decimal.minus (Decimal.parse exitPrice)
             (Position.entryPrice position)) in
      let trader_position :=
        {| TradeInterface.user := TradeInterface.user trader_position;
           TradeInterface.trade_id := TradeInterface.trade_id trader_position;
           TradeInterface.trader_address :=
             TradeInterface.trader_address trader_position;
           TradeInterface.token := TradeInterface.token trader_position;
           TradeInterface.bias := TradeInterface.bias trader_position;
           TradeInterface.size := size;
           TradeInterface.sum_open := TradeInterface.sum_open trader_position;
           TradeInterface.sum_close :=
             TradeInterface.sum_close trader_position;
           TradeInterface.limit_price := Position.entryPrice position;
           TradeInterface.exit_price := Position.exitPrice position;
           TradeInterface.start_date :=
             TradeInterface.start_date trader_position;
           TradeInterface.end_date := Some end_date;
           TradeInterface.funding := TradeInterface.funding trader_position;
           TradeInterface.realised_pnl := Decimal.zero;
           TradeInterface.pnl := pnl;
           TradeInterface.is_profitable :=
             if Decimal.greaterThan pnl Decimal.zero then 1 else 0;
           TradeInterface.type := close |} in
      Some (trader_position, aggregatePositions trader_position queue)
  end.

(** ** [src/utils/trading.ts] *)

(** What one connection owns: the [TRADER_POSITIONS] map and, shared with the
    pipeline, the rows pushed through [aggregatePositions], in order.  The
    queue holds a row as it is when it is pushed: its worker reads the
    object before the next frame can change the lane again. *)
Record Engine : Type := {
  lanes : lane_map;
  queue : list TradeInterface.t
}.

(** [isTrackedSymbol]: membership in the cached pairs. *)
Definition isTrackedSymbol (cachedPairs : gset string) (symbol : string)
  : bool :=
  bool_decide (symbol ∈ cachedPairs).

(** One round of the loop of [processSubscriptions]. *)
Definition subscribe_one (cachedPairs : gset string) (user : Z)
  (traderAddress : option string) (st : Engine)
  (entry : string * Position.t) : Engine :=
  let symbol := remove_hyphens (fst entry) in
  if negb (isTrackedSymbol cachedPairs symbol) then st
  else
    match lanes st !! symbol with
    | Some _ => st
    | None =>
        let position := snd entry in
        let '(new_position, q) :=
          createNewPosition user position traderAddress
            (Some (Position.createdAtHeight position))
            (Some (Position.createdAt position)) update (queue st) in
        {| lanes := <[symbol := new_position]> (lanes st); queue := q |}
    end.

(** [positions] is the object keyed by market of a snapshot frame, in
    enumeration order; [None] when the frame has none. *)
Definition processSubscriptions (cachedPairs : gset string) (user : Z)
  (st : Engine) (traderAddress : option string)
  (positions : option (list (string * Position.t))) : Engine :=
  match positions with
  | None => st
  | Some positions =>
      fold_left (subscribe_one cachedPairs user traderAddress) positions st
  end.

(** One round of the loop of [updatePosition].  Reading a property of
    [fills[0]] on an empty list throws; the inner [catch] logs it and the
    loop goes on with the state as it was. *)
Definition update_one (cachedPairs : gset string) (user : Z)
  (traderAddress : option string) (fills : list Fill.t) (st : Engine)
  (position : Position.t) : Engine :=
  let symbol := remove_hyphens (Position.market position) in
  let bias := if String.eqb (Position.side position) "LONG" then 1 else 0 in
  if negb (isTrackedSymbol cachedPairs symbol) then st
  else
    match lanes st !! symbol with
    | None =>
        (* CASE 1: create completely new position *)
        match head fills with
        | None => st
        | Some fill =>
            let '(trader_position, q) :=
              createNewPosition user position traderAddress
                (Some (Fill.createdAtHeight fill))
                (Some (Fill.createdAt fill)) open (queue st) in
            {| lanes := <[symbol := trader_position]> (lanes st);
               queue := q |}
        end
    | Some trader_position =>
        if String.eqb (Position.status position) OPEN_STATUS
           && (TradeInterface.bias trader_position =? bias)
        then
          (* CASE 2: update existing position *)
          let '(trader_position, q) :=
            updateExistingPosition trader_position position (queue st) in
          {| lanes := <[symbol := trader_position]> (lanes st); queue := q |}
        else if String.eqb (Position.status position) OPEN_STATUS
                && negb (TradeInterface.bias trader_position =? bias)
        then
          (* CASE 3: change direction of the position *)
          match head fills with
          | None => st
          | Some fill =>
              let '(_, q) :=
                flipPosition trader_position position (Fill.createdAt fill)
                  (queue st) in
              let '(trader_position, q) :=
                createNewPosition user position traderAddress
                  (Some (Fill.createdAtHeight fill))
                  (Some (Fill.createdAt fill)) open q in
              {| lanes := <[symbol := trader_position]> (lanes st);
                 queue := q |}
          end
        else if String.eqb (Position.status position) CLOSED_STATUS
        then
          (* CASE 4: close completely the position *)
          match head fills with
          | None => st
          | Some fill =>
              match closePosition trader_position position
                      (Fill.createdAt fill) (queue st) with
              | None => st
              | Some (_, q) =>
                  {| lanes := delete symbol (lanes st); queue := q |}
              end
          end
        else st (* throw "Unrecognised case" *)
    end.

Definition updatePosition (cachedPairs : gset string) (user : Z)
  (st : Engine) (traderAddress : option string)
  (positions : option (list Position.t)) (fills : option (list Fill.t))
  : Engine :=
  match fills with
  | None => st
  | Some fills =>
      match positions with
      | None => st
      | Some positions =>
          fold_left (update_one cachedPairs user traderAddress fills)
            positions st
      end
  end.

(** The frames of the feed, as the message worker dispatches them. *)
Inductive Frame : Type :=
| Snapshot (openPerpetualPositions : option (list (string * Position.t)))
| Incremental (perpetualPositions : option (list Position.t))
    (fills : option (list Fill.t)).

Definition apply_frame (cachedPairs : gset string) (user : Z)
  (traderAddress : option string) (st : Engine) (frame : Frame) : Engine :=
  match frame with
  | Snapshot positions =>
      processSubscriptions cachedPairs user st traderAddress positions
  | Incremental positions fills =>
      updatePosition cachedPairs user st traderAddress positions fills
  end.

(** A connection starts on an empty map ([connect] makes a new one). *)
Definition fresh_engine : Engine := {| lanes := ∅; queue := [] |}.

Definition run_frames (cachedPairs : gset string) (user : Z)
  (traderAddress : option string) (frames : list Frame) : Engine :=
  fold_left (apply_frame cachedPairs user traderAddress) frames fresh_engine.

(** ** [src/services/websocket.ts] *)

Definition RECONNECT_INTERVAL : Z := 1000.
Definition PING_INTERVAL : Z := 31000.

(** A property of the parsed JSON message that may be missing, [null] or a
    string. *)
Inductive JsField : Set :=
| Undefined
| Null
| Str (s : string).

Module Message.
Record t : Type := {
  id : option string;
  account : JsField;
  type : string;
  openPerpetualPositions : option (list (string * Position.t));
  perpetualPositions : option (list Position.t);
  fills : option (list Fill.t)
}.
End Message.

(** [id.split("/")[0]] *)
Fixpoint before_slash (s : string) : string :=
  match s with
  | EmptyString => EmptyString
  | String c rest =>
      if Ascii.eqb c "/"%char then EmptyString
      else String c (before_slash rest)
  end.

(** One session of [initWebSocketTraderMemory]: the [shouldReconnect] flag of
    the closure, the socket of the last [connect], the delays of the
    [setTimeout(connect, _)] calls made so far, and the ledger state. *)
Record Session : Type := {
  shouldReconnect : bool;
  socket_closed : bool;
  reconnects : list Z;
  engine : Engine
}.

(** [setTimeout(connect, RECONNECT_INTERVAL)] *)
Definition schedule_connect (s : Session) : Session :=
  {| shouldReconnect := shouldReconnect s;
     socket_closed := socket_closed s;
     reconnects := reconnects s ++ [RECONNECT_INTERVAL];
     engine := engine s |}.

(** The handler of the socket's 'close' event. *)
Definition on_close (s : Session) : Session :=
  if shouldReconnect s then schedule_connect s else s.

(** The handler of the socket's 'error' event. *)
Definition on_error (s : Session) : Session :=
  schedule_connect s.

(** [websocket.close()]: the socket closes and emits 'close' once. *)
Definition websocket_close (s : Session) : Session :=
  if socket_closed s then s
  else
    on_close
      {| shouldReconnect := shouldReconnect s;
         socket_closed := true;
         reconnects := reconnects s;
         engine := engine s |}.

(** The callback that [resetHeartbeatTimer] arms. *)
Definition heartbeat_timeout (s : Session) : Session :=
  websocket_close s.

Definition closeConnection (s : Session) : Session :=
  websocket_close
    {| shouldReconnect := false;
       socket_closed := socket_closed s;
       reconnects := reconnects s;
       engine := engine s |}.

Definition with_engine (s : Session) (e : Engine) : Session :=
  {| shouldReconnect := shouldReconnect s;
     socket_closed := socket_closed s;
     reconnects := reconnects s;
     engine := e |}.

(** The worker of [messageQueue].  [task] is [None] when [JSON.parse]
    throws.  The second component tells whether the queue callback ran. *)
Definition messageQueue_worker (cachedPairs : gset string) (user : Z)
  (s : Session) (task : option Message.t) : Session * bool :=
  match task with
  | None => (schedule_connect s, true)
  | Some parsedMessage =>
      let account := before_slash <$> Message.id parsedMessage in
      match Message.account parsedMessage with
      | Str "undefined" | Null => (websocket_close s, false)
      | _ =>
          if String.eqb (Message.type parsedMessage) SUBSCRIPTION_TYPE then
            (with_engine s
               (processSubscriptions cachedPairs user (engine s) account
                  (Message.openPerpetualPositions parsedMessage)), true)
          else if String.eqb (Message.type parsedMessage) DATA_TYPE then
            (with_engine s
               (updatePosition cachedPairs user (engine s) account
                  (Message.perpetualPositions parsedMessage)
                  (Message.fills parsedMessage)),
             true)
          else (s, true)
      end
  end.

(** The state right after [connect()] ran for the first time. *)
Definition initWebSocketTraderMemory : Session :=
  {| shouldReconnect := true;
     socket_closed := false;
     reconnects := [];
     engine := fresh_engine |}.

(** ** The persistence pipeline *)

(** A value handed to the SQL driver.  [SqlUnits n] is the decimal string of
    the integer [n], as [parseUnits(..).toString()] prints it. *)
Inductive SqlValue : Set :=
| SqlNull
| SqlNumber (n : Z)
| SqlText (s : string)
| SqlUnits (n : Z).

(** [convertToDecimal]: [null] stays [null]; fractional digits beyond
    [decimals] are cut and the rest is scaled to an integer.  [parseUnits]
    throws ([None]) on a string that is not plain decimal notation: "NaN",
    "Infinity", or the exponential notation of [toString].  A literal of the
    feed is taken to be written as [toString] would print it. *)
Definition convertToDecimal (amount : option Decimal.t) (decimals : Z)
  : option SqlValue :=
  match amount with
  | None => Some SqlNull
  | Some (Decimal.Finite c e as d) =>
      if Decimal.plain_notation d then
        let k := e + decimals in
        Some (SqlUnits (if 0 <=? k then c * 10 ^ k
                        else Z.quot c (10 ^ (- k))))
      else None
  | Some _ => None
  end.

Definition type_string (t : RowType) : string :=
  match t with
  | open => "open"
  | update => "update"
  | close => "close"
  end.

Definition sql_of_address (a : option string) : SqlValue :=
  match a with
  | Some s => SqlText s
  | None => SqlNull
  end.

(** The worker of [processorQueue] ([services/processor.ts]): it pushes the
    row as an array on [TO_PROCESS], or logs the error of a conversion and
    pushes nothing.  [convertToSqlDate] and the clock are left abstract. *)
Definition processorQueue_worker (convertToSqlDate : string -> string)
  (getSqlDate : string) (TO_PROCESS : list (list SqlValue))
  (trader_position : TradeInterface.t) : list (list SqlValue) :=
  let pushed :=
    size ← convertToDecimal (Some (TradeInterface.size trader_position))
             AMOUNT_DECIMALS;
    sum_open ← convertToDecimal
                 (Some (TradeInterface.sum_open trader_position))
                 AMOUNT_DECIMALS;
    limit_price ← convertToDecimal
                    (Some (TradeInterface.limit_price trader_position))
                    PRICE_DECIMALS;
    exit_price ← convertToDecimal (TradeInterface.exit_price trader_position)
                   PRICE_DECIMALS;
    funding ← convertToDecimal
                (Some (TradeInterface.funding trader_position))
                AMOUNT_DECIMALS;
    realised_pnl ← convertToDecimal
                     (Some (TradeInterface.realised_pnl trader_position))
                     AMOUNT_DECIMALS;
    pnl ← convertToDecimal (Some (TradeInterface.pnl trader_position))
            AMOUNT_DECIMALS;
    Some
      [ SqlNumber (TradeInterface.user trader_position);
        SqlText (TradeInterface.trade_id trader_position);
        sql_of_address (TradeInterface.trader_address trader_position);
        SqlText (TradeInterface.token trader_position);
        SqlNumber (TradeInterface.bias trader_position);
        size;
        sum_open;
        limit_price;
        exit_price;
        SqlText (convertToSqlDate (TradeInterface.start_date trader_position));
        match TradeInterface.end_date trader_position with
        | None => SqlNull
        | Some end_date => SqlText (convertToSqlDate end_date)
        end;
        funding;
        realised_pnl;
        pnl;
        SqlNumber (TradeInterface.is_profitable trader_position);
        SqlText getSqlDate;
        SqlText (type_string (TradeInterface.type trader_position)) ] in
  match pushed with
  | Some row => TO_PROCESS ++ [row]
  | None => TO_PROCESS
  end.

(** *** [utils/database.ts] *)

Definition MAX_RETRIES : Z := 5.
Definition INITIAL_RETRY_DELAY : Z := 1000.

Inductive QueryResult (A : Type) : Type :=
| Resolved (results : A)
| Rejected (code : string)
| Fallthrough.
Arguments Resolved {A} results.
Arguments Rejected {A} code.
Arguments Fallthrough {A}.

(** What a call of [sqlBatchQuery] did: how it settled, the number of the
    last attempt, and the delays it slept, in order. *)
Record BatchRun (A : Type) : Type := {
  settled : QueryResult A;
  attempts : Z;
  delays : list Z
}.
Arguments settled {A} _.
Arguments attempts {A} _.
Arguments delays {A} _.

(** The [while] loop of [sqlBatchQuery].  [pool_query n] is what the pool
    answers to attempt [n]: an error code or the results. *)
Fixpoint sqlBatchQuery_loop {A : Type} (fuel : nat)
  (pool_query : Z -> string + A) (attempt delayMs : Z) (slept : list Z)
  : BatchRun A :=
  match fuel with
  | O => {| settled := Fallthrough; attempts := attempt - 1; delays := slept |}
  | S fuel' =>
      if attempt <=? MAX_RETRIES then
        match pool_query attempt with
        | inr results =>
            {| settled := Resolved results; attempts := attempt;
               delays := slept |}
        | inl code =>
            if String.eqb code "ER_LOCK_DEADLOCK" && (attempt <? MAX_RETRIES)
            then
              sqlBatchQuery_loop fuel' pool_query (attempt + 1) (delayMs * 2)
                (slept ++ [delayMs])
            else
              {| settled := Rejected code; attempts := attempt;
                 delays := slept |}
        end
      else
        {| settled := Fallthrough; attempts := attempt - 1; delays := slept |}
  end.

Definition sqlBatchQuery {A : Type} (pool_query : Z -> string + A)
  : BatchRun A :=
  sqlBatchQuery_loop (S (Z.to_nat MAX_RETRIES)) pool_query 1
    INITIAL_RETRY_DELAY [].

(** *** The [trades_dex] table ([schema.sql]) and the statement of
    [processPositions] *)

Abbreviation sql_row := (gmap string SqlValue).

(** The table, by its unique key [trade_id]. *)
Abbreviation sql_table := (gmap string (gmap string SqlValue)).

(** The column list of the [INSERT]. *)
Definition insert_columns : list string :=
  [ "user"; "trade_id"; "trader_address"; "token"; "bias"; "size";
    "sum_open"; "limit_price"; "exit_price"; "start_date"; "end_date";
    "funding"; "realised_pnl"; "pnl"; "is_profitable"; "timestamp" ].

(** The assignments of [ON DUPLICATE KEY UPDATE]. *)
Definition update_columns : list string :=
  [ "size"; "sum_open"; "limit_price"; "exit_price"; "start_date";
    "end_date"; "funding"; "realised_pnl"; "pnl"; "is_profitable";
    "timestamp" ].

(** The [DEFAULT] clauses of the table (the surrogate [id] is left out). *)
Definition schema_defaults : sql_row :=
  list_to_map
    [ ("sum_close", SqlNull); ("exit_price", SqlNull); ("end_date", SqlNull);
      ("funding", SqlText "0"); ("realised_pnl", SqlText "0");
      ("pnl", SqlText "0"); ("is_profitable", SqlNumber 0) ].

Definition assign_columns (columns : list string) (new old : sql_row)
  : sql_row :=
  fold_left
    (fun row column =>
       match new !! column with
       | Some v => <[column := v]> row
       | None => row
       end)
    columns old.

(** One row of [VALUES ?]: inserted with the defaults for the columns the
    statement does not list, or, when the key exists, assigned column by
    column.  A row of the wrong width or without a key is an error. *)
Definition upsert_row (table : sql_table) (values : list SqlValue)
  : string + sql_table :=
  if negb (length values =? length insert_columns)%nat
  then inl "ER_WRONG_VALUE_COUNT_ON_ROW"
  else
    let new : sql_row := list_to_map (zip insert_columns values) in
    match new !! "trade_id" with
    | Some (SqlText key) =>
        match table !! key with
        | None => inr (<[key := new ∪ schema_defaults]> table)
        | Some old => inr (<[key := assign_columns update_columns new old]> table)
        end
    | _ => inl "ER_BAD_NULL_ERROR"
    end.

(** The statement as a whole: all rows, or none on an error. *)
Fixpoint bulk_upsert (table : sql_table) (rows : list (list SqlValue))
  : string + sql_table :=
  match rows with
  | [] => inr table
  | values :: rest =>
      match upsert_row table values with
      | inl code => inl code
      | inr table' => bulk_upsert table' rest
      end
  end.

(** The pool: [faults n] is the error the server raises on attempt [n] by
    itself (a lock conflict, a lost connection), if any. *)
Definition pool_query (faults : Z -> option string) (table : sql_table)
  (rows : list (list SqlValue)) (attempt : Z) : string + sql_table :=
  match faults attempt with
  | Some code => inl code
  | None => bulk_upsert table rows
  end.

(** [position[position.length - 1]] *)
Definition last_value (position : list SqlValue) : option SqlValue :=
  last position.

(** [processPositions]: the notifications published (the [trade_id] of
    every "open" and "close" row) and the run of the batch statement;
    [None] when there is nothing to write. *)
Definition processPositions (faults : Z -> option string)
  (table : sql_table) (positions : list (list SqlValue))
  : list SqlValue * option (BatchRun sql_table) :=
  match positions with
  | [] => ([], None)
  | _ =>
      let published :=
        omap
          (fun position =>
             match last_value position with
             | Some (SqlText "open") | Some (SqlText "close") =>
                 Some (nth 1 position SqlNull)
             | _ => None
             end)
          positions in
      let newPositions := List.map (@removelast SqlValue) positions in
      (published, Some (sqlBatchQuery (pool_query faults table newPositions)))
  end.

(** *** [services/crons.ts] *)

Record Pipeline : Type := {
  is_processing : bool;
  TO_PROCESS : list (list SqlValue);
  table : sql_table;
  published : list SqlValue
}.

(** One tick of [insertTrades]: take the pending batch, clear the queue,
    write; an error of the write is logged and the batch is gone. *)
Definition insertTrades (faults : Z -> option string) (p : Pipeline)
  : Pipeline :=
  if is_processing p then p
  else
    let to_process := TO_PROCESS p in
    let '(sent, run) := processPositions faults (table p) to_process in
    {| is_processing := false;
       TO_PROCESS := [];
       table :=
         match run with
         | Some {| settled := Resolved table' |} => table'
         | _ => table p
         end;
       published := published p ++ sent |}.

(** [enqueue]: the processor queue turns an emitted row into a pending
    tuple. *)
Definition enqueue (convertToSqlDate : string -> string)
  (getSqlDate : string) (p : Pipeline) (row : TradeInterface.t) : Pipeline :=
  {| is_processing := is_processing p;
     TO_PROCESS :=
       processorQueue_worker convertToSqlDate getSqlDate (TO_PROCESS p) row;
     table := table p;
     published := published p |}.

(** [SELECT ... WHERE trade_id = ?] *)
Definition read_by_trade_id (table : sql_table) (trade_id : string)
  : option sql_row :=
  table !! trade_id.

(** ** Reference formulas, in the words of the specification

    These are stated over the rationals; the theorems compare the code's
    decimal results with them. *)
Module Spec.

(** "signed size": the sign flips for short lanes (bias 0). *)
Definition signed (bias : Z) (size : Q) : Q :=
  if bias =? 0 then (- size)%Q else size.


(** "strictly greater than zero", for a decimal.js value. *)
Definition strictly_positive (x : Decimal.t) : Prop :=
  x = Decimal.Infinity false
  \/ (Decimal.is_finite x = true /\ (0 < Decimal.to_Q x)%Q).

(** "the size-weighted average" of two prices. *)
Definition weighted_average (w1 p1 w2 p2 : Q) : Q :=
  ((w1 * p1 + w2 * p2) / (w1 + w2))%Q.

(** "sumClose × (exitPrice − entryPrice), negated for short positions" *)
Definition realised_pnl (position : Position.t) : Q :=
  let r :=
    match Position.exitPrice position with
    | Some exitPrice =>
        (Decimal.to_Q (Position.sumClose position)
         * (Decimal.to_Q exitPrice
            - Decimal.to_Q (Position.entryPrice position)))%Q
    | None => 0%Q
    end in
  if String.eqb (Position.side position) "LONG" then r else (- r)%Q.

End Spec.

(** ** When the decimal operations of a transition are exact

    decimal.js rounds every result to 20 significant digits, and a [Decimal]
    negated with the unary minus goes through a Number.  The predicates below
    say that neither loses anything on the given input. *)

(** [2 * 10^19]: a rounded result is off by at most one part in it. *)
Definition half_ulp_inverse : Z := 2 * 10 ^ (Decimal.precision - 1).

(** [new Decimal(-x)] is [-x]. *)
Definition negation_survives (x : Decimal.t) : bool :=
  Decimal.eqb (Decimal_of_negated x) (Decimal.parse (Decimal.neg x)).

(** No operation of [closePosition] rounds. *)
Definition close_exact (position : Position.t) : bool :=
  match Position.exitPrice position with
  | None => false
  | Some exitPrice =>
      let size :=
        if String.eqb (Position.side position) "LONG"
        then Decimal.parse (Position.sumClose position)
        else Decimal_of_negated (Position.sumClose position) in
      Decimal.is_finite (Position.sumClose position)
      && (String.eqb (Position.side position) "LONG"
          || negation_survives (Position.sumClose position))
      && Decimal.exact_minus (Decimal.parse exitPrice)
           (Position.entryPrice position)
      && Decimal.exact_times size
           (Decimal.minus (Decimal.parse exitPrice)
              (Position.entryPrice position))
  end.

(** No sum, difference or product of [flipPosition] rounds (the division of
    the average is left out: see [average_exact]). *)
Definition flip_exact (trader_position : TradeInterface.t)
  (position : Position.t) : bool :=
  let sumOpen := Decimal.parse (Position.sumOpen position) in
  let size := Decimal.abs (Decimal.parse (Position.size position)) in
  let last := last_position position in
  let sum_close := Decimal.parse (TradeInterface.sum_close trader_position) in
  let avg := avg_close trader_position position in
  let adjusted := adjusted_size trader_position position in
  let spread :=
    Decimal.minus avg (TradeInterface.limit_price trader_position) in
  Decimal.exact_minus sumOpen size
  && Decimal.exact_minus (Decimal.minus sumOpen size)
       (Position.sumClose position)
  && Decimal.exact_plus sum_close last
  && match TradeInterface.exit_price trader_position with
     | Some exit_price =>
         Decimal.exact_times last (Position.entryPrice position)
         && Decimal.exact_times sum_close exit_price
         && Decimal.exact_plus
              (Decimal.times last (Position.entryPrice position))
              (Decimal.times sum_close exit_price)
     | None => Decimal.is_finite (Position.entryPrice position)
     end
  && ((negb (TradeInterface.bias trader_position =? 0))
      || negation_survives (Decimal.plus sum_close last))
  && Decimal.exact_minus avg (TradeInterface.limit_price trader_position)
  && Decimal.exact_times adjusted spread
  && Decimal.exact_plus (Decimal.times adjusted spread)
       (TradeInterface.funding trader_position).

(** The division of the weighted average comes out even. *)
Definition average_exact (trader_position : TradeInterface.t)
  (position : Position.t) : bool :=
  match TradeInterface.exit_price trader_position with
  | Some exit_price =>
      let last := last_position position in
      let sum_close :=
        Decimal.parse (TradeInterface.sum_close trader_position) in
      Decimal.exact_div
        (Decimal.plus (Decimal.times last (Position.entryPrice position))
           (Decimal.times sum_close exit_price))
        (Decimal.plus sum_close last)
  | None => true
  end.

(** ** Sample data *)

Definition sample_fill : Fill.t :=
  {| Fill.createdAtHeight := "120";
     Fill.createdAt := "2024-04-01T00:00:00.000Z" |}.

(** A short lane of size 5 entered at 50. *)
Definition short_lane : TradeInterface.t :=
  {| TradeInterface.user := 7;
     TradeInterface.trade_id := "dydx1abc-BTCUSD-SHORT-100";
     TradeInterface.trader_address := Some "dydx1abc";
     TradeInterface.token := "BTCUSD";
     TradeInterface.bias := 0;
     TradeInterface.size := Decimal.Finite (-5) 0;
     TradeInterface.sum_open := Decimal.Finite 5 0;
     TradeInterface.sum_close := Decimal.Finite 0 0;
     TradeInterface.limit_price := Decimal.Finite 50 0;
     TradeInterface.exit_price := None;
     TradeInterface.start_date := "2024-03-31T09:08:12.000Z";
     TradeInterface.end_date := None;
     TradeInterface.funding := Decimal.Finite 0 0;
     TradeInterface.realised_pnl := Decimal.Finite 0 0;
     TradeInterface.pnl := Decimal.Finite 0 0;
     TradeInterface.is_profitable := 0;
     TradeInterface.type := open |}.

(** The report that closes it at 40. *)
Definition short_closed : Position.t :=
  {| Position.market := "BTC-USD";
     Position.side := "SHORT";
     Position.status := "CLOSED";
     Position.size := Decimal.Finite 0 0;
     Position.sumOpen := Decimal.Finite 5 0;
     Position.sumClose := Decimal.Finite 5 0;
     Position.entryPrice := Decimal.Finite 50 0;
     Position.exitPrice := Some (Decimal.Finite 40 0);
     Position.netFunding := Decimal.Finite 0 0;
     Position.createdAtHeight := "100";
     Position.createdAt := "2024-03-31T09:08:12.000Z" |}.

(** A long lane of size 10 entered at 100, nothing closed, no funding. *)
Definition long_lane : TradeInterface.t :=
  {| TradeInterface.user := 7;
     TradeInterface.trade_id := "dydx1abc-BTCUSD-LONG-100";
     TradeInterface.trader_address := Some "dydx1abc";
     TradeInterface.token := "BTCUSD";
     TradeInterface.bias := 1;
     TradeInterface.size := Decimal.Finite 10 0;
     TradeInterface.sum_open := Decimal.Finite 10 0;
     TradeInterface.sum_close := Decimal.Finite 0 0;
     TradeInterface.limit_price := Decimal.Finite 100 0;
     TradeInterface.exit_price := None;
     TradeInterface.start_date := "2024-03-31T09:08:12.000Z";
     TradeInterface.end_date := None;
     TradeInterface.funding := Decimal.Finite 0 0;
     TradeInterface.realised_pnl := Decimal.Finite 0 0;
     TradeInterface.pnl := Decimal.Finite 0 0;
     TradeInterface.is_profitable := 0;
     TradeInterface.type := open |}.

(** The report after the flip: short 5 entered at 110, 10 moved over. *)
Definition flipped_short : Position.t :=
  {| Position.market := "BTC-USD";
     Position.side := "SHORT";
     Position.status := "OPEN";
     Position.size := Decimal.Finite (-5) 0;
     Position.sumOpen := Decimal.Finite 15 0;
     Position.sumClose := Decimal.Finite 0 0;
     Position.entryPrice := Decimal.Finite 110 0;
     Position.exitPrice := None;
     Position.netFunding := Decimal.Finite 0 0;
     Position.createdAtHeight := "100";
     Position.createdAt := "2024-03-31T09:08:12.000Z" |}.

Definition one_lane (lane : TradeInterface.t) : Engine :=
  {| lanes := {[ "BTCUSD" := lane ]}; queue := [] |}.

(** A report that closes the short lane at its entry price. *)
Definition short_closed_flat : Position.t :=
  {| Position.market := "BTC-USD";
     Position.side := "SHORT";
     Position.status := "CLOSED";
     Position.size := Decimal.Finite 0 0;
     Position.sumOpen := Decimal.Finite 5 0;
     Position.sumClose := Decimal.Finite 5 0;
     Position.entryPrice := Decimal.Finite 50 0;
     Position.exitPrice := Some (Decimal.Finite 50 0);
     Position.netFunding := Decimal.Finite 0 0;
     Position.createdAtHeight := "100";
     Position.createdAt := "2024-03-31T09:08:12.000Z" |}.

(** A long report with 0.1 closed, entered at 0.2 and exited at 0.3. *)
Definition tenth_closed : Position.t :=
  {| Position.market := "DOGE-USD";
     Position.side := "LONG";
     Position.status := "OPEN";
     Position.size := Decimal.Finite 4 (-1);
     Position.sumOpen := Decimal.Finite 5 (-1);
     Position.sumClose := Decimal.Finite 1 (-1);
     Position.entryPrice := Decimal.Finite 2 (-1);
     Position.exitPrice := Some (Decimal.Finite 3 (-1));
     Position.netFunding := Decimal.Finite 0 0;
     Position.createdAtHeight := "100";
     Position.createdAt := "2024-03-31T09:08:12.000Z" |}.

(** A report that grows the long lane to 12, average entry 101. *)
Definition long_grown : Position.t :=
  {| Position.market := "BTC-USD";
     Position.side := "LONG";
     Position.status := "OPEN";
     Position.size := Decimal.Finite 12 0;
     Position.sumOpen := Decimal.Finite 12 0;
     Position.sumClose := Decimal.Finite 0 0;
     Position.entryPrice := Decimal.Finite 101 0;
     Position.exitPrice := None;
     Position.netFunding := Decimal.Finite 0 0;
     Position.createdAtHeight := "100";
     Position.createdAt := "2024-03-31T09:08:12.000Z" |}.

Definition DEADLOCK : string := "ER_LOCK_DEADLOCK".


(** A pool that answers the first attempts with a lock conflict. *)
Definition deadlocks_then (n : Z) (results : string) (attempt : Z)
  : string + string :=
  if attempt <=? n then inl "ER_LOCK_DEADLOCK" else inr results.

(** A long position of 3 entered at 100, as a snapshot reports it. *)
Definition long_open : Position.t :=
  {| Position.market := "BTC-USD";
     Position.side := "LONG";
     Position.status := "OPEN";
     Position.size := Decimal.Finite 3 0;
     Position.sumOpen := Decimal.Finite 3 0;
     Position.sumClose := Decimal.Finite 0 0;
     Position.entryPrice := Decimal.Finite 100 0;
     Position.exitPrice := None;
     Position.netFunding := Decimal.Finite 0 0;
     Position.createdAtHeight := "100";
     Position.createdAt := "2024-03-31T09:08:12.000Z" |}.

(** A snapshot frame that carries no [id] (and no [account] property). *)
Definition frame_without_id : Message.t :=
  {| Message.id := None;
     Message.account := Undefined;
     Message.type := "subscribed";
     Message.openPerpetualPositions := Some [("BTC-USD", long_open)];
     Message.perpetualPositions := None;
     Message.fills := None |}.

(** What a row of the statement leaves in the [sum_close] column. *)
Definition kept_sum_close (before : sql_table) (key : string)
  : option SqlValue :=
  match before !! key with
  | Some old => old !! "sum_close"
  | None => Some SqlNull
  end.

(** The update row of the long lane with 3 of its 10 closed at 105. *)
Definition long_partly_closed : Position.t :=
  {| Position.market := "BTC-USD";
     Position.side := "LONG";
     Position.status := "OPEN";
     Position.size := Decimal.Finite 7 0;
     Position.sumOpen := Decimal.Finite 10 0;
     Position.sumClose := Decimal.Finite 3 0;
     Position.entryPrice := Decimal.Finite 100 0;
     Position.exitPrice := Some (Decimal.Finite 105 0);
     Position.netFunding := Decimal.Finite 0 0;
     Position.createdAtHeight := "100";
     Position.createdAt := "2024-03-31T09:08:12.000Z" |}.

Definition emitted_update : TradeInterface.t :=
  fst (updateExistingPosition long_lane long_partly_closed []).

Definition empty_pipeline : Pipeline :=
  {| is_processing := false; TO_PROCESS := []; table := ∅; published := [] |}.

Definition no_fault (attempt : Z) : option string := None.

(** The pipeline after the row was enqueued and one tick wrote it. *)
Definition persisted_update : Pipeline :=
  insertTrades no_fault
    (enqueue (fun date => date) "2024-04-01 00:00:10" empty_pipeline
       emitted_update).

(** A snapshot is keyed by the market of each position it lists, as the
    feed sends it. *)
Definition keyed_by_market (frame : Frame) : Prop :=
  match frame with
  | Snapshot (Some positions) =>
      Forall
        (fun entry : string * Position.t =>
           remove_hyphens (fst entry)
           = remove_hyphens (Position.market (snd entry)))
        positions
  | _ => True
  end.

(** The entries of a lane map filed under an instrument. *)
Definition entries_for (symbol : string) (m : lane_map)
  : list (string * TradeInterface.t) :=
  filter (fun entry => fst entry = symbol) (map_to_list m).

(** The lanes of a connection are filed under tracked instruments ... *)
Definition lanes_tracked (cachedPairs : gset string) (st : Engine) : Prop :=
  forall k lane, lanes st !! k = Some lane -> k ∈ cachedPairs.

(** ... and under the instrument their rows name. *)
Definition lanes_filed (st : Engine) : Prop :=
  forall k lane,
    lanes st !! k = Some lane -> TradeInterface.token lane = k.

(** Two snapshots of the same position and an update in between. *)
Definition sample_frames : list Frame :=
  [ Snapshot (Some [("BTC-USD", long_open)]);
    Incremental (Some [long_grown]) (Some [sample_fill]);
    Snapshot (Some [("BTC-USD", long_open)]) ].

(** A long close whose PnL has 23 significant digits. *)
Definition many_digits_closed : Position.t :=
  {| Position.market := "BTC-USD";
     Position.side := "LONG";
     Position.status := "CLOSED";
     Position.size := Decimal.Finite 0 0;
     Position.sumOpen := Decimal.Finite 1234567 (-6);
     Position.sumClose := Decimal.Finite 1234567 (-6);
     Position.entryPrice := Decimal.Finite 1000000000001 (-12);
     Position.exitPrice := Some (Decimal.Finite 30000123456789012 (-12));
     Position.netFunding := Decimal.Finite 0 0;
     Position.createdAtHeight := "100";
     Position.createdAt := "2024-03-31T09:08:12.000Z" |}.

(** A long report with 0.000001 closed between 100.1 and 100.3. *)
Definition dust_closed : Position.t :=
  {| Position.market := "BTC-USD";
     Position.side := "LONG";
     Position.status := "OPEN";
     Position.size := Decimal.Finite 1 0;
     Position.sumOpen := Decimal.Finite 1000001 (-6);
     Position.sumClose := Decimal.Finite 1 (-6);
     Position.entryPrice := Decimal.Finite 1001 (-1);
     Position.exitPrice := Some (Decimal.Finite 1003 (-1));
     Position.netFunding := Decimal.Finite 0 0;
     Position.createdAtHeight := "100";
     Position.createdAt := "2024-03-31T09:08:12.000Z" |}.

(** A long lane of 20 entered at 90 of which 10 were closed at 100. *)
Definition lane_with_prior_exit : TradeInterface.t :=
  {| TradeInterface.user := 7;
     TradeInterface.trade_id := "dydx1abc-BTCUSD-LONG-100";
     TradeInterface.trader_address := Some "dydx1abc";
     TradeInterface.token := "BTCUSD";
     TradeInterface.bias := 1;
     TradeInterface.size := Decimal.Finite 10 0;
     TradeInterface.sum_open := Decimal.Finite 20 0;
     TradeInterface.sum_close := Decimal.Finite 10 0;
     TradeInterface.limit_price := Decimal.Finite 90 0;
     TradeInterface.exit_price := Some (Decimal.Finite 100 0);
     TradeInterface.start_date := "2024-03-31T09:08:12.000Z";
     TradeInterface.end_date := None;
     TradeInterface.funding := Decimal.Finite (-25) (-1);
     TradeInterface.realised_pnl := Decimal.Finite 100 0;
     TradeInterface.pnl := Decimal.Finite 0 0;
     TradeInterface.is_profitable := 0;
     TradeInterface.type := update |}.

(** A long lane of 15 entered at 90 of which 5 were closed at 100. *)
Definition lane_five_closed : TradeInterface.t :=
  {| TradeInterface.user := 7;
     TradeInterface.trade_id := "dydx1abc-BTCUSD-LONG-100";
     TradeInterface.trader_address := Some "dydx1abc";
     TradeInterface.token := "BTCUSD";
     TradeInterface.bias := 1;
     TradeInterface.size := Decimal.Finite 10 0;
     TradeInterface.sum_open := Decimal.Finite 15 0;
     TradeInterface.sum_close := Decimal.Finite 5 0;
     TradeInterface.limit_price := Decimal.Finite 90 0;
     TradeInterface.exit_price := Some (Decimal.Finite 100 0);
     TradeInterface.start_date := "2024-03-31T09:08:12.000Z";
     TradeInterface.end_date := None;
     TradeInterface.funding := Decimal.Finite 0 0;
     TradeInterface.realised_pnl := Decimal.Finite 50 0;
     TradeInterface.pnl := Decimal.Finite 0 0;
     TradeInterface.is_profitable := 0;
     TradeInterface.type := update |}.


From Stdlib Require Import Qround.
(** ** Further vocabulary for the ledger and the pipeline *)


(** No hyphen occurs in the string. *)
Fixpoint hyphen_free (s : string) : bool :=
  match s with
  | EmptyString => true
  | String c rest => negb (Ascii.eqb c "-"%char) && hyphen_free rest
  end.

(** Every numeric field of the row prints in plain decimal notation, so
    that each [convertToDecimal] of the processor queue goes through. *)
Definition printable (row : TradeInterface.t) : bool :=
  Decimal.plain_notation (TradeInterface.size row)
  && Decimal.plain_notation (TradeInterface.sum_open row)
  && Decimal.plain_notation (TradeInterface.limit_price row)
  && match TradeInterface.exit_price row with
     | Some exit_price => Decimal.plain_notation exit_price
     | None => true
     end
  && Decimal.plain_notation (TradeInterface.funding row)
  && Decimal.plain_notation (TradeInterface.realised_pnl row)
  && Decimal.plain_notation (TradeInterface.pnl row).











(** A pool whose first attempt fails with a lost connection. *)
Definition connection_lost (attempt : Z) : option string :=
  Some "PROTOCOL_CONNECTION_LOST".

(** A report that says CLOSED for the short lane and names no exit
    price. *)
Definition closed_without_exit : Position.t :=
  {| Position.market := "BTC-USD";
     Position.side := "SHORT";
     Position.status := "CLOSED";
     Position.size := Decimal.Finite 0 0;
     Position.sumOpen := Decimal.Finite 5 0;
     Position.sumClose := Decimal.Finite 5 0;
     Position.entryPrice := Decimal.Finite 50 0;
     Position.exitPrice := None;
     Position.netFunding := Decimal.Finite 0 0;
     Position.createdAtHeight := "100";
     Position.createdAt := "2024-03-31T09:08:12.000Z" |}.

(** ** The life of a session ([src/services/websocket.ts]) *)

(** The message that the 'open' handler sends. *)
Module Subscribe.
Record t : Set := {
  type : string;
  channel : string;
  id : string
}.
End Subscribe.

(** The handler of the socket's 'open' event: subscribe to the subaccount
    [0] of the address. *)
Definition on_open (channel address : string) : Subscribe.t :=
  {| Subscribe.type := "subscribe";
     Subscribe.channel := channel;
     Subscribe.id := (address ++ "/0")%string |}.

Fixpoint slash_free (s : string) : bool :=
  match s with
  | EmptyString => true
  | String c rest => negb (Ascii.eqb c "/"%char) && slash_free rest
  end.

(** What can happen to a session: its socket closes or reports an error,
    the watchdog fires, a queued message is worked off, or the owner calls
    [closeConnection]. *)
Inductive SessionEvent : Type :=
| SocketClosed
| SocketError
| HeartbeatTimeout
| MessageTask (task : option Message.t)
| CloseConnection.

Definition session_step (cachedPairs : gset string) (user : Z)
  (s : Session) (event : SessionEvent) : Session :=
  match event with
  | SocketClosed => websocket_close s
  | SocketError => on_error s
  | HeartbeatTimeout => heartbeat_timeout s
  | MessageTask task => fst (messageQueue_worker cachedPairs user s task)
  | CloseConnection => closeConnection s
  end.

Definition session_run (cachedPairs : gset string) (user : Z)
  (events : list SessionEvent) : Session :=
  fold_left (session_step cachedPairs user) events initWebSocketTraderMemory.

Definition is_CloseConnection (event : SessionEvent) : bool :=
  match event with
  | CloseConnection => true
  | _ => false
  end.

(** A snapshot frame that echoes the subscription of an address. *)
Definition snapshot_for (address : string)
  (positions : option (list (string * Position.t))) : Message.t :=
  {| Message.id := Some (Subscribe.id (on_open "v4_subaccounts" address));
     Message.account := Undefined;
     Message.type := SUBSCRIPTION_TYPE;
     Message.openPerpetualPositions := positions;
     Message.perpetualPositions := None;
     Message.fills := None |}.

(** ** [src/index.ts]: the sessions of the active traders *)

(** A row of [getTraders]. *)
Module Trader.
Record t : Set := {
  user : Z;
  address : string
}.
End Trader.

(** What [initWebSocketTraderMemory(address_, user_)] returns: the handle of
    a session, with the state of its closure. *)
Record Socket : Type := {
  address_ : string;
  user_ : Z;
  session : Session
}.

Definition open_socket (trader : Trader.t) : Socket :=
  {| address_ := Trader.address trader;
     user_ := Trader.user trader;
     session := initWebSocketTraderMemory |}.

(** [socket.closeConnection()] *)
Definition close_socket (socket : Socket) : Socket :=
  {| address_ := address_ socket;
     user_ := user_ socket;
     session := closeConnection (session socket) |}.

(** The sessions the application ever opened, by handle, and the
    [socketSubscriptions] map from an address to the handle of its
    session. *)
Record Registry : Type := {
  sockets : list Socket;
  socketSubscriptions : gmap string nat
}.

(** The entry of the map holds the handle, and its address is no longer
    active. *)
Definition stale_at (newTraders : gset string) (handle : nat)
  (entry : string * nat) : Prop :=
  entry.2 = handle /\ entry.1 ∉ newTraders.

#[global] Instance stale_at_dec (newTraders : gset string) (handle : nat)
  (entry : string * nat) : Decision (stale_at newTraders handle entry).
Proof. unfold stale_at. apply _. Defined.

(** The first [forEach] of [connectToTraders], as far as its callbacks run
    before their [await]: the session of every address that is no longer
    active is closed. *)
Definition close_stale (newTraders : gset string)
  (subscriptions : gmap string nat) (heap : list Socket) : list Socket :=
  fold_left
    (fun heap (entry : string * nat) =>
       if decide (entry.1 ∈ newTraders) then heap
       else alter close_socket entry.2 heap)
    (map_to_list subscriptions) heap.

(** ... and what the callbacks do once they resume: the address leaves the
    map. *)
Definition delete_stale (newTraders : gset string)
  (subscriptions : gmap string nat) : gmap string nat :=
  fold_left
    (fun remaining (entry : string * nat) =>
       if decide (entry.1 ∈ newTraders) then remaining
       else delete entry.1 remaining)
    (map_to_list subscriptions) subscriptions.

(** The rows whose address the map does not hold. *)
Definition unsubscribed (subscriptions : gmap string nat)
  (traders : list Trader.t) : list Trader.t :=
  filter (fun trader => subscriptions !! Trader.address trader = None)
    traders.

(** The second [forEach], as far as its callbacks run before their
    [await]: a session is opened for every row whose address the map does
    not hold.  The map is read as it was when [connectToTraders] started:
    every [delete] and every [set] waits behind an [await]. *)
Definition open_new (subscriptions : gmap string nat)
  (traders : list Trader.t) (heap : list Socket)
  : list Socket * list (string * nat) :=
  fold_left
    (fun (state : list Socket * list (string * nat)) trader =>
       match subscriptions !! Trader.address trader with
       | Some _ => state
       | None =>
           (state.1 ++ [open_socket trader],
            state.2 ++ [(Trader.address trader, length state.1)])
       end)
    traders (heap, []).

(** ... and what they do once they resume: the new handle is filed under
    the address, in the order of the rows. *)
Definition set_pending (pending : list (string * nat))
  (subscriptions : gmap string nat) : gmap string nat :=
  fold_left
    (fun filed (entry : string * nat) => <[entry.1 := entry.2]> filed)
    pending subscriptions.

(** [new Set(traders.map((p) => p.address))] *)
Definition active_addresses (traders : list Trader.t) : gset string :=
  list_to_set (Trader.address <$> traders).

(** [connectToTraders]: [getTraders] is the answer of the database, an
    error or the active traders; the second component is what is
    rethrown. *)
Definition connectToTraders (getTraders : string + list Trader.t)
  (r : Registry) : Registry * option string :=
  match getTraders with
  | inl error => (r, Some error)
  | inr traders =>
      let newTraders := active_addresses traders in
      let closed :=
        close_stale newTraders (socketSubscriptions r) (sockets r) in
      let opened := open_new (socketSubscriptions r) traders closed in
      ({| sockets := opened.1;
          socketSubscriptions :=
            set_pending opened.2
              (delete_stale newTraders (socketSubscriptions r)) |},
       None)
  end.

(** The registry after a refresh that found [traders]. *)
Definition refreshed (r : Registry) (traders : list Trader.t) : Registry :=
  (connectToTraders (inr traders) r).1.

(** The handles that a refresh files, in the order of the rows: the
    sessions it opens are appended to those that exist. *)
Definition filed (r : Registry) (traders : list Trader.t)
  : list (string * nat) :=
  imap
    (fun i trader => (Trader.address trader, (length (sockets r) + i)%nat))
    (unsubscribed (socketSubscriptions r) traders).

(** The application at start: no session, an empty map. *)
Definition no_subscriptions : Registry :=
  {| sockets := []; socketSubscriptions := ∅ |}.

(** Every handle of the map leads to the session of its address. *)
Definition registry_wf (r : Registry) : Prop :=
  forall address handle,
    socketSubscriptions r !! address = Some handle ->
    exists socket,
      sockets r !! handle = Some socket /\ address_ socket = address.

(** What happens to the application over time: a refresh of the traders,
    or an event of the session behind a handle. *)
Inductive RegistryStep : Type :=
| Refresh (getTraders : string + list Trader.t)
| Deliver (handle : nat) (event : SessionEvent).

Definition deliver (cachedPairs : gset string) (event : SessionEvent)
  (socket : Socket) : Socket :=
  {| address_ := address_ socket;
     user_ := user_ socket;
     session :=
       session_step cachedPairs (user_ socket) (session socket) event |}.

Definition registry_step (cachedPairs : gset string) (r : Registry)
  (step : RegistryStep) : Registry :=
  match step with
  | Refresh getTraders => (connectToTraders getTraders r).1
  | Deliver handle event =>
      {| sockets := alter (deliver cachedPairs event) handle (sockets r);
         socketSubscriptions := socketSubscriptions r |}
  end.

Definition registry_run (cachedPairs : gset string)
  (steps : list RegistryStep) : Registry :=
  fold_left (registry_step cachedPairs) steps no_subscriptions.

(** [closeConnection] is called by a refresh only, and the query of the
    traders lists no address twice. *)
Definition orderly (step : RegistryStep) : Prop :=
  match step with
  | Refresh (inr traders) => NoDup (Trader.address <$> traders)
  | Refresh (inl _) => True
  | Deliver _ event => is_CloseConnection event = false
  end.

(** The sessions that still reconnect are those the map leads to. *)
Definition live_iff_subscribed (r : Registry) : Prop :=
  forall handle socket,
    sockets r !! handle = Some socket ->
    shouldReconnect (session socket) = true
    <-> socketSubscriptions r !! address_ socket = Some handle.

Definition alice : Trader.t :=
  {| Trader.user := 7; Trader.address := "dydx1alice" |}.

Definition bob : Trader.t :=
  {| Trader.user := 8; Trader.address := "dydx1bob" |}.

(** A second follower of the address of alice. *)
Definition carol : Trader.t :=
  {| Trader.user := 9; Trader.address := "dydx1alice" |}.

(** Alice and bob are followed, a socket error reaches the session of
    alice, then only bob stays active. *)
Definition sample_steps : list RegistryStep :=
  [ Refresh (inr [alice; bob]);
    Deliver 0 SocketError;
    Refresh (inr [bob]) ].

(** ** [src/utils/symbols.ts] *)

(** [fetchAndCachePairs]: [sqlQuery] is the answer of the database, an
    error or the symbols of the active tokens.  The cache is replaced as a
    whole on success and left alone on an error, which is rethrown. *)
Definition fetchAndCachePairs (sqlQuery : string + list string)
  (cachedPairs : gset string) : gset string * option string :=
  match sqlQuery with
  | inl error => (cachedPairs, Some error)
  | inr result => (list_to_set result, None)
  end.

(** A report that closes the long lane at 120. *)
Definition long_closed : Position.t :=
  {| Position.market := "BTC-USD";
     Position.side := "LONG";
     Position.status := "CLOSED";
     Position.size := Decimal.Finite 0 0;
     Position.sumOpen := Decimal.Finite 10 0;
     Position.sumClose := Decimal.Finite 10 0;
     Position.entryPrice := Decimal.Finite 100 0;
     Position.exitPrice := Some (Decimal.Finite 120 0);
     Position.netFunding := Decimal.Finite 0 0;
     Position.createdAtHeight := "100";
     Position.createdAt := "2024-03-31T09:08:12.000Z" |}.





(** A long lane that has an exit price on record but nothing closed. *)
Definition lane_nothing_closed : TradeInterface.t :=
  {| TradeInterface.user := 7;
     TradeInterface.trade_id := "dydx1abc-BTCUSD-LONG-100";
     TradeInterface.trader_address := Some "dydx1abc";
     TradeInterface.token := "BTCUSD";
     TradeInterface.bias := 1;
     TradeInterface.size := Decimal.Finite 10 0;
     TradeInterface.sum_open := Decimal.Finite 10 0;
     TradeInterface.sum_close := Decimal.Finite 0 0;
     TradeInterface.limit_price := Decimal.Finite 100 0;
     TradeInterface.exit_price := Some (Decimal.Finite 0 0);
     TradeInterface.start_date := "2024-03-31T09:08:12.000Z";
     TradeInterface.end_date := None;
     TradeInterface.funding := Decimal.Finite 0 0;
     TradeInterface.realised_pnl := Decimal.Finite 0 0;
     TradeInterface.pnl := Decimal.Finite 0 0;
     TradeInterface.is_profitable := 0;
     TradeInterface.type := update |}.

(** The report of a fresh short position of 5: all of it is open. *)
Definition fresh_short : Position.t :=
  {| Position.market := "BTC-USD";
     Position.side := "SHORT";
     Position.status := "OPEN";
     Position.size := Decimal.Finite (-5) 0;
     Position.sumOpen := Decimal.Finite 5 0;
     Position.sumClose := Decimal.Finite 0 0;
     Position.entryPrice := Decimal.Finite 110 0;
     Position.exitPrice := None;
     Position.netFunding := Decimal.Finite 0 0;
     Position.createdAtHeight := "120";
     Position.createdAt := "2024-04-01T00:00:00.000Z" |}.

(** ** The watchdog ([resetHeartbeatTimer])

    [heartbeatTimer] is one variable of the module, shared by every
    session: it holds the handle of the session whose socket the pending
    timeout would close, if a timeout is pending. *)
Record Watched : Type := {
  watched_sockets : list Socket;
  heartbeatTimer : option nat
}.

(** What touches the timer: the 'open' and 'ping' handlers of a session
    reset it, the timeout fires, [closeConnection] of a session clears
    it. *)
Inductive TimerEvent : Type :=
| Opened (handle : nat)
| Pinged (handle : nat)
| TimerFires
| ConnectionClosed (handle : nat).

(** [websocket.close()] from the callback of the timer. *)
Definition watchdog_close (socket : Socket) : Socket :=
  {| address_ := address_ socket;
     user_ := user_ socket;
     session := heartbeat_timeout (session socket) |}.

Definition timer_step (w : Watched) (event : TimerEvent) : Watched :=
  match event with
  | Opened handle | Pinged handle =>
      (* clearTimeout(heartbeatTimer); heartbeatTimer = setTimeout(...) *)
      {| watched_sockets := watched_sockets w;
         heartbeatTimer := Some handle |}
  | TimerFires =>
      match heartbeatTimer w with
      | Some handle =>
          {| watched_sockets :=
               alter watchdog_close handle (watched_sockets w);
             heartbeatTimer := None |}
      | None => w
      end
  | ConnectionClosed handle =>
      (* clearInterval(heartbeatTimer); shouldReconnect = false; close *)
      {| watched_sockets := alter close_socket handle (watched_sockets w);
         heartbeatTimer := None |}
  end.

(** The session whose 'open' or 'ping' came last, unless the timer fired
    or was cleared since. *)
Fixpoint last_reset (events : list TimerEvent) (armed : option nat)
  : option nat :=
  match events with
  | [] => armed
  | (Opened handle | Pinged handle) :: rest => last_reset rest (Some handle)
  | (TimerFires | ConnectionClosed _) :: rest => last_reset rest None
  end.

(** ** Dates ([utils/database.ts])

    A [Date] holds a time value: milliseconds since 1970-01-01T00:00:00Z,
    or NaN for an invalid date.  [toISOString] prints a valid one on the
    proleptic Gregorian calendar, in UTC. *)
Module JsDate.

Definition msPerDay : Z := 86400000.

(** The civil date (year, month 1..12, day 1..31) of a day number counted
    from 1970-01-01, by eras of 400 years that start on a 1st of March. *)
Definition civil_from_days (days : Z) : Z * Z * Z :=
  let shifted := days + 719468 in
  let era := shifted / 146097 in
  let doe := shifted mod 146097 in
  let yoe := (doe - doe / 1460 + doe / 36524 - doe / 146096) / 365 in
  let doy := doe - (365 * yoe + yoe / 4 - yoe / 100) in
  let mp := (5 * doy + 2) / 153 in
  let day := doy - (153 * mp + 2) / 5 + 1 in
  let month := if mp <? 10 then mp + 3 else mp - 9 in
  let year := yoe + era * 400 + (if month <=? 2 then 1 else 0) in
  (year, month, day).

Definition YearFromTime (t : Z) : Z := (civil_from_days (t / msPerDay)).1.1.
Definition MonthFromTime (t : Z) : Z := (civil_from_days (t / msPerDay)).1.2.
Definition DateFromTime (t : Z) : Z := (civil_from_days (t / msPerDay)).2.
Definition HourFromTime (t : Z) : Z := (t mod msPerDay) / 3600000.
Definition MinFromTime (t : Z) : Z := (t mod 3600000) / 60000.
Definition SecFromTime (t : Z) : Z := (t mod 60000) / 1000.
Definition msFromTime (t : Z) : Z := t mod 1000.

(** The decimal digit of [n] at the place [10^place]. *)
Definition digit (n place : Z) : ascii :=
  ascii_of_nat (48 + Z.to_nat ((n / 10 ^ place) mod 10)).

Definition pad2 (n : Z) : list ascii := [digit n 1; digit n 0].
Definition pad3 (n : Z) : list ascii := [digit n 2; digit n 1; digit n 0].
Definition pad4 (n : Z) : list ascii :=
  [digit n 3; digit n 2; digit n 1; digit n 0].
Definition pad6 (n : Z) : list ascii :=
  [digit n 5; digit n 4; digit n 3; digit n 2; digit n 1; digit n 0].

(** The year of [toISOString]: four digits from 0 to 9999, and a sign with
    six digits outside. *)
Definition year_digits (year : Z) : list ascii :=
  if (0 <=? year) && (year <=? 9999) then pad4 year
  else (if year <? 0 then "-"%char else "+"%char) :: pad6 (Z.abs year).

(** [YYYY-MM-DDTHH:mm:ss.sssZ] *)
Definition toISOString (t : Z) : string :=
  string_of_list_ascii
    (year_digits (YearFromTime t)
     ++ ["-"%char] ++ pad2 (MonthFromTime t)
     ++ ["-"%char] ++ pad2 (DateFromTime t)
     ++ ["T"%char] ++ pad2 (HourFromTime t)
     ++ [":"%char] ++ pad2 (MinFromTime t)
     ++ [":"%char] ++ pad2 (SecFromTime t)
     ++ ["."%char] ++ pad3 (msFromTime t)
     ++ ["Z"%char]).

(** A time value beyond 8.64e15 ms either side of the epoch is NaN. *)
Definition TimeClip (t : Z) : option Z :=
  if Z.abs t <=? 8640000000000000 then Some t else None.

End JsDate.

(** [str.replace("T", " ")]: the first "T" only. *)
Fixpoint replace_T (s : string) : string :=
  match s with
  | EmptyString => EmptyString
  | String c rest =>
      if Ascii.eqb c "T"%char then String " "%char rest
      else String c (replace_T rest)
  end.

(** [dateObj.toISOString().slice(0, 19).replace("T", " ")], the last line
    of both functions; [toISOString] throws a RangeError on an invalid
    date ([None]). *)
Definition sql_datetime (dateObj : option Z) : option string :=
  t ← dateObj;
  Some (replace_T (String.substring 0 19 (JsDate.toISOString t))).

(** The argument of [getSqlDate]: nothing, a number (taken to be whole
    seconds), a string or a [Date] object (its time value, [None] when it
    is invalid). *)
Inductive DateArgument : Set :=
| NoDate
| Seconds (n : Z)
| DateString (s : string)
| DateObject (t : option Z).

(** [getSqlDate].  [Date_parse] is the parser of the runtime ([None] for a
    string it does not understand) and [now] the clock, both left open. *)
Definition getSqlDate (Date_parse : string -> option Z) (now : Z)
  (date : DateArgument) : option string :=
  let date :=
    match date with
    | Seconds n => Seconds (n * 1000)
    | _ => date
    end in
  let dateObj :=
    match date with
    | NoDate => Some now
    | Seconds ms => if ms =? 0 then Some now else JsDate.TimeClip ms
    | DateString s => if String.eqb s "" then Some now else Date_parse s
    | DateObject t => t
    end in
  sql_datetime dateObj.

(** [convertToSqlDate] *)
Definition convertToSqlDate (Date_parse : string -> option Z)
  (dateString : string) : option string :=
  sql_datetime (Date_parse dateString).

(** The rendering ["YYYY-MM-DD HH:mm:ss"] of a civil date and time. *)
Definition sql_text (year month day hour minute second : Z) : string :=
  string_of_list_ascii
    (JsDate.pad4 year
     ++ ["-"%char] ++ JsDate.pad2 month
     ++ ["-"%char] ++ JsDate.pad2 day
     ++ [" "%char] ++ JsDate.pad2 hour
     ++ [":"%char] ++ JsDate.pad2 minute
     ++ [":"%char] ++ JsDate.pad2 second).

(** *** The date-time strings of the feed *)

Definition is_leap (year : Z) : bool :=
  (year mod 4 =? 0) && (negb (year mod 100 =? 0) || (year mod 400 =? 0)).

Definition DaysInMonth (year month : Z) : Z :=
  if month =? 2 then (if is_leap year then 29 else 28)
  else if (month =? 4) || (month =? 6) || (month =? 9) || (month =? 11)
       then 30
       else 31.

(** The day number of a civil date, counted from 1970-01-01. *)
Definition days_from_civil (year month day : Z) : Z :=
  let y := if month <=? 2 then year - 1 else year in
  let era := y / 400 in
  let yoe := y mod 400 in
  let mp := if month <=? 2 then month + 9 else month - 3 in
  let doy := (153 * mp + 2) / 5 + day - 1 in
  let doe := yoe * 365 + yoe / 4 - yoe / 100 + doy in
  era * 146097 + doe - 719468.

(** The time value of a UTC date and time. *)
Definition MakeDate (year month day hour minute second ms : Z) : Z :=
  days_from_civil year month day * JsDate.msPerDay
  + ((hour * 60 + minute) * 60 + second) * 1000 + ms.

(** A date and time as the feed writes it: [YYYY-MM-DDTHH:mm:ss.sssZ]. *)
Definition iso_text (year month day hour minute second ms : Z) : string :=
  string_of_list_ascii
    (JsDate.pad4 year
     ++ ["-"%char] ++ JsDate.pad2 month
     ++ ["-"%char] ++ JsDate.pad2 day
     ++ ["T"%char] ++ JsDate.pad2 hour
     ++ [":"%char] ++ JsDate.pad2 minute
     ++ [":"%char] ++ JsDate.pad2 second
     ++ ["."%char] ++ JsDate.pad3 ms
     ++ ["Z"%char]).

(** The fields name a date of the calendar and a time of the day. *)
Definition valid_date_time (year month day hour minute second ms : Z)
  : Prop :=
  0 <= year <= 9999
  /\ 1 <= month <= 12
  /\ 1 <= day <= DaysInMonth year month
  /\ 0 <= hour <= 23
  /\ 0 <= minute <= 59
  /\ 0 <= second <= 59
  /\ 0 <= ms <= 999.

(** A parser that knows the one date of the sample rows. *)
Definition sample_parse (s : string) : option Z :=
  if String.eqb s "2024-03-31T09:08:12.000Z" then Some 1711876092000
  else None.

(** ** The RabbitMQ client ([services/rabbitmq.ts]) and [sendMessage]

    The one instance of [RabbitMQClient]: its fields [connection] and
    [channel] (a connection is named by the number of the [amqp.connect]
    call that opened it, a channel by its connection), and the number of
    [amqp.connect] calls made so far.  The code closes no connection. *)
Record RabbitMQClient : Type := {
  connection : option nat;
  channel : option nat;
  connects : nat
}.


(** [connect] resumed when connection [id] is established
    ([this.connection = await amqp.connect(...)]), and resumed again when
    its channel is created
    ([this.channel = await this.connection.createChannel()]). *)
Definition connection_established (id : nat) (client : RabbitMQClient)
  : RabbitMQClient :=
  {| connection := Some id;
     channel := channel client;
     connects := connects client |}.





(** * Theorems *)

(** ** The decimal arithmetic *)

Lemma ten_not_zero : ~ ((10 # 1) == 0)%Q.
Proof. discriminate. Qed.

Lemma Qpower_ten_succ (e : Z) :
  ((10 # 1) ^ (e + 1) == (10 # 1) * (10 # 1) ^ e)%Q.
Proof.
  rewrite Qpower_plus by apply ten_not_zero.
  change ((10 # 1) ^ 1)%Q with (10 # 1)%Q. ring.
Qed.

Lemma inject_Z_pow10 (k : Z) :
  0 <= k -> (inject_Z (10 ^ k) == (10 # 1) ^ k)%Q.
Proof.
  intros Hk. rewrite Zpower_Qpower by assumption. reflexivity.
Qed.

(** Shifting a coefficient to a smaller exponent keeps the value. *)
Lemma shift_value (c e e' : Z) :
  e' <= e ->
  (inject_Z (c * 10 ^ (e - e')) * (10 # 1) ^ e' == inject_Z c * (10 # 1) ^ e)%Q.
Proof.
  intros H. rewrite inject_Z_mult, inject_Z_pow10 by lia.
  replace e with ((e - e') + e') at 2 by lia.
  rewrite Qpower_plus by apply ten_not_zero. ring.
Qed.

Lemma strip_fuel_value (fuel : nat) (c e : Z) :
  (Decimal.to_Q (Decimal.of_pair (Decimal.strip_fuel fuel c e))
   == inject_Z c * (10 # 1) ^ e)%Q.
Proof.
  revert c e. induction fuel as [|fuel IH]; intros c e;
    cbn [Decimal.strip_fuel].
  - reflexivity.
  - destruct (Z.eqb_spec c 0) as [->|Hc].
    + simpl. change (inject_Z 0) with 0%Q. ring.
    + destruct (Z.eqb_spec (c mod 10) 0) as [Hm|Hm].
      * rewrite IH, Qpower_ten_succ.
        assert (Hc10 : c = 10 * (c / 10)).
        { apply Z.div_exact; [lia | assumption]. }
        rewrite Hc10 at 2. rewrite inject_Z_mult.
        change (inject_Z 10) with (10 # 1)%Q. ring.
      * reflexivity.
Qed.

Lemma normalise_value (c e : Z) :
  (Decimal.to_Q (Decimal.of_pair (Decimal.normalise c e))
   == inject_Z c * (10 # 1) ^ e)%Q.
Proof. apply strip_fuel_value. Qed.

Lemma parse_finite (x : Decimal.t) :
  Decimal.is_finite (Decimal.parse x) = Decimal.is_finite x.
Proof. destruct x; reflexivity. Qed.

Lemma parse_value (x : Decimal.t) :
  (Decimal.to_Q (Decimal.parse x) == Decimal.to_Q x)%Q.
Proof.
  destruct x as [| s | c e]; simpl; try reflexivity.
  apply normalise_value.
Qed.

Lemma finalise_fits (c e : Z) :
  Decimal.fits c e = true ->
  Decimal.finalise c e = Decimal.of_pair (Decimal.normalise c e).
Proof.
  unfold Decimal.fits, Decimal.finalise.
  destruct (Decimal.normalise c e) as [c' e']; simpl.
  intros ->. reflexivity.
Qed.

Lemma plus_exact (x y : Decimal.t) :
  Decimal.exact_plus x y = true ->
  Decimal.is_finite (Decimal.plus x y) = true
  /\ (Decimal.to_Q (Decimal.plus x y) == Decimal.to_Q x + Decimal.to_Q y)%Q.
Proof.
  destruct x as [| s1 | c1 e1], y as [| s2 | c2 e2]; simpl; try discriminate.
  intros H. rewrite finalise_fits by assumption. split; [reflexivity|].
  rewrite normalise_value.
  rewrite inject_Z_plus, Qmult_plus_distr_l.
  rewrite !shift_value by lia. reflexivity.
Qed.

Lemma neg_value (x : Decimal.t) :
  (Decimal.to_Q (Decimal.neg x) == - Decimal.to_Q x)%Q.
Proof.
  destruct x as [| s | c e]; simpl; try reflexivity.
  rewrite inject_Z_opp. ring.
Qed.

Lemma minus_exact (x y : Decimal.t) :
  Decimal.exact_minus x y = true ->
  Decimal.is_finite (Decimal.minus x y) = true
  /\ (Decimal.to_Q (Decimal.minus x y) == Decimal.to_Q x - Decimal.to_Q y)%Q.
Proof.
  unfold Decimal.exact_minus, Decimal.minus. intros H.
  destruct (plus_exact _ _ H) as [Hf Hv]. split; [assumption|].
  rewrite Hv, neg_value. reflexivity.
Qed.

Lemma times_exact (x y : Decimal.t) :
  Decimal.exact_times x y = true ->
  Decimal.is_finite (Decimal.times x y) = true
  /\ (Decimal.to_Q (Decimal.times x y) == Decimal.to_Q x * Decimal.to_Q y)%Q.
Proof.
  destruct x as [| s1 | c1 e1], y as [| s2 | c2 e2]; simpl; try discriminate.
  intros H. rewrite finalise_fits by assumption. split; [reflexivity|].
  rewrite normalise_value, inject_Z_mult.
  rewrite Qpower_plus by apply ten_not_zero. ring.
Qed.

Lemma abs_value (x : Decimal.t) :
  (Decimal.to_Q (Decimal.abs x) == Qabs (Decimal.to_Q x))%Q.
Proof.
  destruct x as [| s | c e]; cbn [Decimal.abs Decimal.to_Q];
    try reflexivity.
  rewrite Qabs_Qmult.
  assert (Hp : (0 <= (10 # 1) ^ e)%Q).
  { apply Qpower_pos. discriminate. }
  rewrite (Qabs_pos _ Hp).
  apply Qmult_comp; reflexivity.
Qed.

Lemma Decimal_eqb_eq (x y : Decimal.t) : Decimal.eqb x y = true -> x = y.
Proof.
  destruct x as [| s1 | c1 e1], y as [| s2 | c2 e2]; simpl;
    try discriminate; try reflexivity.
  - intros H. apply Bool.eqb_prop in H. congruence.
  - intros H. apply andb_true_iff in H as [H1 H2].
    apply Z.eqb_eq in H1, H2. congruence.
Qed.

Lemma pow10_value_pos (e : Z) : (0 < (10 # 1) ^ e)%Q.
Proof. apply Qpower_0_lt. reflexivity. Qed.

Lemma finite_value_zero (c e : Z) :
  (inject_Z c * (10 # 1) ^ e == 0)%Q <-> c = 0.
Proof.
  split.
  - intros H. apply Qmult_integral in H as [H|H].
    + unfold Qeq in H. simpl in H. lia.
    + exfalso. apply (Qpower_not_0 (10 # 1) e ten_not_zero H).
  - intros ->. change (inject_Z 0) with 0%Q. ring.
Qed.

Lemma finite_value_pos (c e : Z) :
  (0 < inject_Z c * (10 # 1) ^ e)%Q <-> 0 < c.
Proof.
  pose proof (pow10_value_pos e) as Hp.
  split.
  - intros H. destruct (Z_lt_le_dec 0 c) as [Hc|Hc]; [assumption|].
    exfalso.
    assert (Hn : (inject_Z c * (10 # 1) ^ e <= 0 * (10 # 1) ^ e)%Q).
    { apply Qmult_le_compat_r; [|apply Qlt_le_weak, Hp].
      unfold Qle. simpl. lia. }
    rewrite Qmult_0_l in Hn. apply (Qlt_not_le _ _ H Hn).
  - intros Hc. apply Qmult_lt_0_compat; [|assumption].
    unfold Qlt. simpl. lia.
Qed.

(** [x.greaterThan(0)] is "strictly greater than zero". *)
Lemma greaterThan_zero (x : Decimal.t) :
  Decimal.greaterThan x Decimal.zero = true <-> Spec.strictly_positive x.
Proof.
  unfold Spec.strictly_positive.
  destruct x as [| s | c e]; cbn [Decimal.greaterThan Decimal.cmp Decimal.zero
                                    Decimal.is_finite Decimal.to_Q].
  - split; [discriminate|]. intros [H|[H _]]; discriminate.
  - destruct s; split; try discriminate; auto.
    intros [H|[H _]]; discriminate.
  - rewrite finite_value_pos.
    assert (Hpow : 0 < 10 ^ (e - Z.min e 0)).
    { apply Z.pow_pos_nonneg; lia. }
    cbn zeta. rewrite Z.mul_0_l.
    destruct (Z.compare_spec (c * 10 ^ (e - Z.min e 0)) 0) as [H|H|H].
    + split; [discriminate|]. intros [Hd|[_ Hc]]; [discriminate|]. nia.
    + split; [discriminate|]. intros [Hd|[_ Hc]]; [discriminate|]. nia.
    + split; [|reflexivity]. intros _. right. split; [reflexivity|]. nia.
Qed.

Lemma div_exact (x y : Decimal.t) :
  Decimal.exact_div x y = true ->
  Decimal.is_finite (Decimal.div x y) = true
  /\ ~ (Decimal.to_Q y == 0)%Q
  /\ (Decimal.to_Q (Decimal.div x y) == Decimal.to_Q x / Decimal.to_Q y)%Q.
Proof.
  destruct x as [| s1 | c1 e1], y as [| s2 | c2 e2];
    cbn [Decimal.exact_div Decimal.div Decimal.is_finite Decimal.to_Q];
    try discriminate.
  intros H. apply andb_true_iff in H as [Hc2 H].
  apply negb_true_iff in Hc2. rewrite Hc2.
  apply Z.eqb_neq in Hc2.
  assert (Hy : ~ (inject_Z c2 * (10 # 1) ^ e2 == 0)%Q).
  { rewrite finite_value_zero. assumption. }
  assert (Hc2' : ~ (inject_Z c2 == 0)%Q).
  { unfold Qeq. simpl. lia. }
  assert (He2 : ~ ((10 # 1) ^ e2 == 0)%Q).
  { apply Qpower_not_0, ten_not_zero. }
  destruct (Z.eqb_spec c1 0) as [->|Hc1].
  - split; [reflexivity|]. split; [assumption|].
    cbn [Decimal.to_Q]. change (inject_Z 0) with 0%Q.
    field; split; assumption.
  - cbn [orb] in H. cbv zeta in H. apply andb_true_iff in H as [Hrem Hfit].
    apply Z.eqb_eq in Hrem. cbv zeta.
    set (s := Z.max 0 (Decimal.precision + 2 + Decimal.digits c2
                       - Decimal.digits c1)) in *.
    rewrite finalise_fits by assumption.
    split; [reflexivity|]. split; [assumption|].
    rewrite normalise_value.
    apply (Z.quot_exact (c1 * 10 ^ s) c2 Hc2) in Hrem.
    assert (Hs : 0 <= s) by (unfold s; lia).
    assert (Hq : (inject_Z (c1 * 10 ^ s ÷ c2) * inject_Z c2
                  == inject_Z c1 * (10 # 1) ^ s)%Q).
    { rewrite <- inject_Z_mult, Z.mul_comm, <- Hrem, inject_Z_mult.
      rewrite inject_Z_pow10 by assumption. reflexivity. }
    assert (Hpow : ((10 # 1) ^ e1
                    == (10 # 1) ^ (e1 - e2 - s) * (10 # 1) ^ e2
                       * (10 # 1) ^ s)%Q).
    { rewrite <- !Qpower_plus by apply ten_not_zero.
      replace (e1 - e2 - s + e2 + s) with e1 by lia. reflexivity. }
    apply Qmult_inj_r with (z := (inject_Z c2 * (10 # 1) ^ e2)%Q);
      [assumption|].
    transitivity (inject_Z (c1 * 10 ^ s ÷ c2) * inject_Z c2
                  * ((10 # 1) ^ (e1 - e2 - s) * (10 # 1) ^ e2))%Q; [ring|].
    rewrite Hq.
    transitivity (inject_Z c1 * (10 # 1) ^ e1)%Q;
      [rewrite Hpow; ring | field; split; assumption].
Qed.
(** *** The fuel of [digits] and [normalise] is enough *)

Lemma digits_fuel_zero (fuel : nat) : Decimal.digits_fuel fuel 0 = 0.
Proof. destruct fuel; reflexivity. Qed.

Lemma digits_fuel_spec (fuel : nat) :
  forall n, 0 < n -> n < 2 ^ Z.of_nat fuel ->
    10 ^ (Decimal.digits_fuel fuel n - 1) <= n
    < 10 ^ Decimal.digits_fuel fuel n.
Proof.
  induction fuel as [|fuel IH]; intros n Hpos Hlt.
  - cbn in Hlt. lia.
  - cbn [Decimal.digits_fuel]. destruct (Z.eqb_spec n 0) as [->|_]; [lia|].
    destruct (Z.eq_dec (n / 10) 0) as [Hsmall|Hbig].
    + rewrite Hsmall, digits_fuel_zero.
      apply Z.div_small_iff in Hsmall; [|lia].
      change (10 ^ (1 + 0 - 1)) with 1. change (10 ^ (1 + 0)) with 10. lia.
    + assert (Hq : 0 < n / 10).
      { pose proof (Z.div_pos n 10). lia. }
      assert (Hq2 : n / 10 < 2 ^ Z.of_nat fuel).
      { rewrite Nat2Z.inj_succ, Z.pow_succ_r in Hlt by lia.
        apply Z.div_lt_upper_bound; lia. }
      specialize (IH (n / 10) Hq Hq2).
      set (d := Decimal.digits_fuel fuel (n / 10)) in *.
      assert (Hd : 0 < d).
      { destruct (Z_lt_le_dec 0 d) as [H|H]; [assumption|].
        exfalso. destruct IH as [_ IH].
        assert (10 ^ d <= 1).
        { destruct (Z.eq_dec d 0) as [->|Hne]; [cbn; lia|].
          rewrite Z.pow_neg_r by lia. lia. }
        lia. }
      replace (1 + d - 1) with (Z.succ (d - 1)) by lia.
      replace (1 + d) with (Z.succ d) by lia.
      rewrite !Z.pow_succ_r by lia.
      pose proof (Z.div_mod n 10 ltac:(lia)) as Hdm.
      pose proof (Z.mod_pos_bound n 10 ltac:(lia)) as Hm.
      lia.
Qed.

(** [digits] counts the decimal digits. *)
Lemma digits_spec (n : Z) :
  n <> 0 -> 10 ^ (Decimal.digits n - 1) <= Z.abs n < 10 ^ Decimal.digits n.
Proof.
  intros Hn. unfold Decimal.digits. apply digits_fuel_spec; [lia|].
  rewrite Nat2Z.inj_succ, Z2Nat.id by apply Z.log2_nonneg.
  apply Z.log2_spec. lia.
Qed.

Lemma strip_fuel_canonical (fuel : nat) :
  forall c e, Z.abs c < 2 ^ Z.of_nat fuel ->
    fst (Decimal.strip_fuel fuel c e) = 0
    \/ fst (Decimal.strip_fuel fuel c e) mod 10 <> 0.
Proof.
  induction fuel as [|fuel IH]; intros c e Hlt.
  - cbn in Hlt. left. cbn. lia.
  - cbn [Decimal.strip_fuel].
    destruct (Z.eqb_spec c 0) as [->|Hc]; [left; reflexivity|].
    destruct (Z.eqb_spec (c mod 10) 0) as [Hm|Hm]; [|right; exact Hm].
    apply IH.
    rewrite Nat2Z.inj_succ, Z.pow_succ_r in Hlt by lia.
    assert (Hc10 : c = 10 * (c / 10)) by (apply Z.div_exact; lia).
    lia.
Qed.

(** [normalise] leaves no trailing zero. *)
Lemma normalise_canonical (c e : Z) :
  fst (Decimal.normalise c e) = 0
  \/ fst (Decimal.normalise c e) mod 10 <> 0.
Proof.
  unfold Decimal.normalise. apply strip_fuel_canonical.
  rewrite Nat2Z.inj_succ, Z2Nat.id by apply Z.log2_nonneg.
  destruct (Z.eq_dec c 0) as [->|Hc]; [reflexivity|].
  apply Z.log2_spec. lia.
Qed.

(** *** The rounding of [finalise] *)

Lemma Qabs_finite (c e : Z) :
  (Qabs (inject_Z c * (10 # 1) ^ e) == inject_Z (Z.abs c) * (10 # 1) ^ e)%Q.
Proof.
  rewrite Qabs_Qmult.
  assert (Hp : (0 <= (10 # 1) ^ e)%Q) by apply Qlt_le_weak, pow10_value_pos.
  rewrite (Qabs_pos _ Hp).
  apply Qmult_comp; reflexivity.
Qed.

Lemma half_up_error (a k : Z) :
  0 <= a -> 0 < k ->
  Z.abs ((a + 5 * 10 ^ (k - 1)) / 10 ^ k * 10 ^ k - a) <= 5 * 10 ^ (k - 1).
Proof.
  intros Ha Hk.
  assert (Hpow : 10 ^ k = 10 * 10 ^ (k - 1)).
  { replace k with (Z.succ (k - 1)) at 1 by lia.
    apply Z.pow_succ_r. lia. }
  assert (Hpos : 0 < 10 ^ (k - 1)) by (apply Z.pow_pos_nonneg; lia).
  pose proof (Z.div_mod (a + 5 * 10 ^ (k - 1)) (10 ^ k) ltac:(lia)) as Hdm.
  pose proof (Z.mod_pos_bound (a + 5 * 10 ^ (k - 1)) (10 ^ k) ltac:(lia))
    as Hm.
  lia.
Qed.

(** [finalise] yields a finite decimal within half a unit of the twentieth
    significant digit of the exact result. *)
Lemma finalise_accurate (c e : Z) :
  Decimal.is_finite (Decimal.finalise c e) = true
  /\ (Qabs (Decimal.to_Q (Decimal.finalise c e) - inject_Z c * (10 # 1) ^ e)
      * inject_Z half_ulp_inverse
      <= Qabs (inject_Z c * (10 # 1) ^ e))%Q.
Proof.
  unfold Decimal.finalise.
  pose proof (normalise_value c e) as Hval.
  destruct (Decimal.normalise c e) as [c' e'].
  cbn [Decimal.of_pair fst snd Decimal.to_Q] in Hval.
  destruct (Z.leb_spec (Decimal.digits c') Decimal.precision) as [Hfit|Hbig].
  - split; [reflexivity|]. cbn [Decimal.to_Q]. rewrite Hval.
    setoid_replace (inject_Z c * (10 # 1) ^ e - inject_Z c * (10 # 1) ^ e)%Q
      with 0%Q using relation Qeq by ring.
    cbn [Qabs]. rewrite Qmult_0_l. apply Qabs_nonneg.
  - split; [reflexivity|].
    rewrite normalise_value, <- Hval.
    set (k := Decimal.digits c' - Decimal.precision) in *.
    set (m := (Z.abs c' + 5 * 10 ^ (k - 1)) / 10 ^ k).
    assert (Hk : 0 < k) by (unfold k; lia).
    assert (Hc' : c' <> 0).
    { intros ->. unfold k in Hk. vm_compute in Hk. discriminate. }
    pose proof (half_up_error (Z.abs c') k ltac:(lia) Hk) as Herr.
    fold m in Herr.
    pose proof (digits_spec c' Hc') as [Hlow _].
    assert (Hdiff :
      (inject_Z (Z.sgn c' * m) * (10 # 1) ^ (e' + k)
       - inject_Z c' * (10 # 1) ^ e'
       == inject_Z (Z.sgn c' * m * 10 ^ k - c') * (10 # 1) ^ e')%Q).
    { rewrite Qpower_plus by apply ten_not_zero.
      assert (Hinj :
        (inject_Z (Z.sgn c' * m * 10 ^ k - c')
         == inject_Z (Z.sgn c' * m) * (10 # 1) ^ k - inject_Z c')%Q).
      { unfold Z.sub.
        rewrite inject_Z_plus, inject_Z_opp,
          (inject_Z_mult (Z.sgn c' * m) (10 ^ k)).
        rewrite (inject_Z_pow10 k) by lia. reflexivity. }
      rewrite Hinj. ring. }
    rewrite Hdiff, !Qabs_finite.
    assert (Hz : Z.abs (Z.sgn c' * m * 10 ^ k - c') * half_ulp_inverse
                 <= Z.abs c').
    { assert (Habs : Z.abs (Z.sgn c' * m * 10 ^ k - c')
                     = Z.abs (m * 10 ^ k - Z.abs c')).
      { destruct (Z.lt_trichotomy c' 0) as [Hn|[Hz|Hp]]; [|lia|].
        - rewrite (Z.sgn_neg c') by lia. lia.
        - rewrite (Z.sgn_pos c') by lia. lia. }
      rewrite Habs. unfold half_ulp_inverse.
      assert (Hd : 10 ^ (Decimal.digits c' - 1)
                   = 10 ^ (k - 1) * 10 * 10 ^ (Decimal.precision - 1)).
      { replace (Decimal.digits c' - 1)
          with ((k - 1) + 1 + (Decimal.precision - 1)) by (unfold k; lia).
        rewrite !Z.pow_add_r by (unfold Decimal.precision; lia).
        reflexivity. }
      assert (Hp1 : 0 < 10 ^ (Decimal.precision - 1)) by reflexivity.
      nia. }
    setoid_replace
      (inject_Z (Z.abs (Z.sgn c' * m * 10 ^ k - c')) * (10 # 1) ^ e'
       * inject_Z half_ulp_inverse)%Q
      with (inject_Z (Z.abs (Z.sgn c' * m * 10 ^ k - c') * half_ulp_inverse)
            * (10 # 1) ^ e')%Q using relation Qeq
      by (rewrite inject_Z_mult; ring).
    apply Qmult_le_compat_r; [|apply Qlt_le_weak, pow10_value_pos].
    rewrite <- Zle_Qle. exact Hz.
Qed.





(** The truncated quotient that [Decimal.div] hands to [finalise] has more
    than [precision] + 1 digits. *)
Lemma quotient_long (c1 c2 : Z) :
  c1 <> 0 -> c2 <> 0 ->
  let s := Z.max 0 (Decimal.precision + 2 + Decimal.digits c2
                    - Decimal.digits c1) in
  10 ^ (Decimal.precision + 1) <= Z.abs (Z.quot (c1 * 10 ^ s) c2).
Proof.
  intros H1 H2 s.
  destruct (digits_spec c1 H1) as [Hlow1 _].
  destruct (digits_spec c2 H2) as [Hlow2 Hup2].
  assert (Hd1 : 0 < Decimal.digits c1).
  { destruct (Z_lt_le_dec 0 (Decimal.digits c1)) as [H|H]; [assumption|].
    exfalso. rewrite Z.pow_neg_r in Hlow1 by lia.
    destruct (digits_spec c1 H1) as [_ Hup1].
    assert (10 ^ Decimal.digits c1 <= 1).
    { destruct (Z.eq_dec (Decimal.digits c1) 0) as [->|Hne]; [cbn; lia|].
      rewrite Z.pow_neg_r by lia. lia. }
    lia. }
  assert (Hd2 : 0 < Decimal.digits c2).
  { destruct (Z_lt_le_dec 0 (Decimal.digits c2)) as [H|H]; [assumption|].
    exfalso.
    assert (10 ^ Decimal.digits c2 <= 1).
    { destruct (Z.eq_dec (Decimal.digits c2) 0) as [->|Hne]; [cbn; lia|].
      rewrite Z.pow_neg_r by lia. lia. }
    lia. }
  assert (Hs : 0 <= s) by (unfold s; lia).
  rewrite <- Z.quot_abs by assumption.
  rewrite Z.quot_div_nonneg by lia.
  apply Z.div_le_lower_bound; [lia|].
  rewrite Z.abs_mul, (Z.abs_eq (10 ^ s)) by (apply Z.pow_nonneg; lia).
  assert (Hexp : 10 ^ (Decimal.digits c1 - 1) * 10 ^ s
                 = 10 ^ (Decimal.digits c1 - 1 + s)).
  { rewrite Z.pow_add_r by lia. reflexivity. }
  assert (Hmono : 10 ^ (Decimal.digits c2 + (Decimal.precision + 1))
                  <= 10 ^ (Decimal.digits c1 - 1 + s)).
  { apply Z.pow_le_mono_r; unfold s; lia. }
  rewrite Z.pow_add_r in Hmono by (unfold Decimal.precision; lia).
  assert (Hp : 0 < 10 ^ (Decimal.precision + 1)) by reflexivity.
  assert (Hs10 : 0 < 10 ^ s) by (apply Z.pow_pos_nonneg; lia).
  nia.
Qed.

(** A quotient of finite decimals is finite and accurate to one unit of the
    twentieth significant digit. *)
Lemma div_accurate (x y : Decimal.t) :
  Decimal.is_finite x = true ->
  Decimal.is_finite y = true ->
  ~ (Decimal.to_Q y == 0)%Q ->
  Decimal.is_finite (Decimal.div x y) = true
  /\ (Qabs (Decimal.to_Q (Decimal.div x y) - Decimal.to_Q x / Decimal.to_Q y)
      * (10000000000000000000 # 1)
      <= Qabs (Decimal.to_Q x / Decimal.to_Q y))%Q.
Proof.
  destruct x as [| s1 | c1 e1], y as [| s2 | c2 e2]; try discriminate.
  intros _ _ Hy. cbn [Decimal.div Decimal.to_Q] in *.
  assert (Hc2 : c2 <> 0) by (rewrite finite_value_zero in Hy; exact Hy).
  destruct (Z.eqb_spec c2 0) as [|_]; [contradiction|].
  assert (Hc2' : ~ (inject_Z c2 == 0)%Q) by (unfold Qeq; simpl; lia).
  assert (He2 : ~ ((10 # 1) ^ e2 == 0)%Q)
    by apply Qpower_not_0, ten_not_zero.
  destruct (Z.eqb_spec c1 0) as [->|Hc1].
  - split; [reflexivity|]. cbn [Decimal.to_Q].
    change (inject_Z 0) with 0%Q.
    assert (Hz : (0 * (10 # 1) ^ 0 - 0 * (10 # 1) ^ e1
                  / (inject_Z c2 * (10 # 1) ^ e2) == 0)%Q)
      by (field; split; assumption).
    rewrite Hz. cbn [Qabs]. rewrite Qmult_0_l. apply Qabs_nonneg.
  - cbv zeta.
    set (s := Z.max 0 (Decimal.precision + 2 + Decimal.digits c2
                       - Decimal.digits c1)).
    set (N := c1 * 10 ^ s). set (q0 := Z.quot N c2).
    set (E := e1 - e2 - s).
    destruct (finalise_accurate q0 E) as [Hfin Hacc].
    split; [exact Hfin|].
    pose proof (quotient_long c1 c2 Hc1 Hc2) as Hlong.
    cbv zeta in Hlong. fold s N q0 in Hlong.
    change (10 ^ (Decimal.precision + 1)) with 1000000000000000000000
      in Hlong.
    assert (Hs : 0 <= s) by (unfold s; lia).
    pose proof (Z.quot_rem' N c2) as Hqr. fold q0 in Hqr.
    pose proof (Z.rem_bound_abs N c2 Hc2) as Hrb.
    set (r := Z.rem N c2) in *.
    (* the exact quotient, on the exponent of the truncated one *)
    assert (Hexact :
      (inject_Z c1 * (10 # 1) ^ e1 / (inject_Z c2 * (10 # 1) ^ e2)
       == (inject_Z q0 + inject_Z r / inject_Z c2) * (10 # 1) ^ E)%Q).
    { assert (HN : (inject_Z N == inject_Z c2 * inject_Z q0 + inject_Z r)%Q).
      { rewrite <- inject_Z_mult, <- inject_Z_plus, <- Hqr. reflexivity. }
      assert (HN' : (inject_Z N == inject_Z c1 * (10 # 1) ^ s)%Q).
      { unfold N. rewrite inject_Z_mult, inject_Z_pow10 by lia.
        reflexivity. }
      assert (Hpow : ((10 # 1) ^ e1
                      == (10 # 1) ^ E * (10 # 1) ^ e2 * (10 # 1) ^ s)%Q).
      { rewrite <- !Qpower_plus by apply ten_not_zero.
        replace (E + e2 + s) with e1 by (unfold E; lia). reflexivity. }
      transitivity (inject_Z N / inject_Z c2 * (10 # 1) ^ E)%Q.
      - rewrite HN', Hpow. field. split; assumption.
      - rewrite HN. field. assumption. }
    rewrite Hexact.
    cbn [Decimal.to_Q] in Hacc.
    set (res := Decimal.to_Q (Decimal.finalise q0 E)) in *.
    set (P := ((10 # 1) ^ E)%Q) in *.
    assert (HP : (0 < P)%Q) by apply pow10_value_pos.
    set (f := (inject_Z r / inject_Z c2)%Q).
    (* the dropped fraction is below one and has the sign of the quotient *)
    assert (Hf1 : (Qabs f <= 1)%Q).
    { unfold f, Qdiv. rewrite Qabs_Qmult, Qabs_Qinv.
      assert (Hc2abs : (0 < Qabs (inject_Z c2))%Q).
      { change (Qabs (inject_Z c2)) with (inject_Z (Z.abs c2)).
        change 0%Q with (inject_Z 0). rewrite <- Zlt_Qlt. lia. }
      apply Qle_shift_div_r; [assumption|]. rewrite Qmult_1_l.
      change (Qabs (inject_Z r)) with (inject_Z (Z.abs r)).
      change (Qabs (inject_Z c2)) with (inject_Z (Z.abs c2)).
      rewrite <- Zle_Qle. lia. }
    assert (Hq0abs : ((1000000000000000000000 # 1) <= Qabs (inject_Z q0))%Q).
    { change (Qabs (inject_Z q0)) with (inject_Z (Z.abs q0)).
      change (1000000000000000000000 # 1)%Q
        with (inject_Z 1000000000000000000000).
      rewrite <- Zle_Qle. exact Hlong. }
    (* triangle inequalities around the truncated quotient *)
    set (a := (inject_Z q0 * P)%Q) in *.
    set (b := (f * P)%Q).
    assert (Hsplit : ((inject_Z q0 + f) * P == a + b)%Q)
      by (unfold a, b; ring).
    rewrite Hsplit.
    assert (Hb : (Qabs b <= P)%Q).
    { unfold b. rewrite Qabs_Qmult, (Qabs_pos P) by apply Qlt_le_weak, HP.
      rewrite <- (Qmult_1_l P) at 2.
      apply Qmult_le_compat_r; [exact Hf1 | apply Qlt_le_weak, HP]. }
    assert (Ha : ((1000000000000000000000 # 1) * P <= Qabs a)%Q).
    { unfold a. rewrite Qabs_Qmult, (Qabs_pos P) by apply Qlt_le_weak, HP.
      apply Qmult_le_compat_r; [exact Hq0abs | apply Qlt_le_weak, HP]. }
    assert (Hup : (Qabs (res - (a + b)) <= Qabs (res - a) + Qabs b)%Q).
    { assert (Heq : (res - (a + b) == (res - a) + - b)%Q) by ring.
      rewrite Heq, <- (Qabs_opp b). apply Qabs_triangle. }
    assert (Hlow : (Qabs a <= Qabs (a + b) + Qabs b)%Q).
    { assert (Heq : (a == (a + b) + - b)%Q) by ring.
      rewrite Heq at 1. rewrite <- (Qabs_opp b). apply Qabs_triangle. }
    change (inject_Z half_ulp_inverse) with (20000000000000000000 # 1)%Q
      in Hacc.
    pose proof (Qabs_nonneg (res - a)) as H1.
    pose proof (Qabs_nonneg b) as H2.
    lra.
Qed.

Lemma negation_survives_value (x : Decimal.t) :
  negation_survives x = true ->
  Decimal.is_finite x = true ->
  Decimal.is_finite (Decimal_of_negated x) = true
  /\ (Decimal.to_Q (Decimal_of_negated x) == - Decimal.to_Q x)%Q.
Proof.
  unfold negation_survives. intros H Hx.
  apply Decimal_eqb_eq in H. rewrite H.
  split.
  - rewrite parse_finite. destruct x; [discriminate..|reflexivity].
  - rewrite parse_value, neg_value. reflexivity.
Qed.






Lemma exact_minus_finite_l (x y : Decimal.t) :
  Decimal.exact_minus x y = true -> Decimal.is_finite x = true.
Proof. destruct x; [discriminate..|reflexivity]. Qed.

Lemma div_finite_divisor (x y : Decimal.t) :
  Decimal.is_finite x = true ->
  Decimal.is_finite y = true ->
  Decimal.is_finite (Decimal.div x y) = true ->
  ~ (Decimal.to_Q y == 0)%Q.
Proof.
  destruct x as [| s1 | c1 e1], y as [| s2 | c2 e2]; try discriminate.
  intros _ _. cbn [Decimal.div Decimal.to_Q].
  rewrite finite_value_zero.
  destruct (Z.eqb_spec c2 0) as [->|Hc2]; [|intros _; exact Hc2].
  destruct (c1 =? 0); discriminate.
Qed.

(** What [flipPosition] computes, when no sum, difference or product
    rounds: the amount moved over, the closing size, the exit price and the
    PnL, as rationals. *)
Lemma flipPosition_exact (trader_position : TradeInterface.t)
  (position : Position.t) :
  flip_exact trader_position position = true ->
  let moved :=
    (Decimal.to_Q (Position.sumOpen position)
     - Qabs (Decimal.to_Q (Position.size position))
     - Decimal.to_Q (Position.sumClose position))%Q in
  let sum_close :=
    Decimal.to_Q (TradeInterface.sum_close trader_position) in
  let avg := avg_close trader_position position in
  let adjusted := adjusted_size trader_position position in
  let pnl :=
    Decimal.plus
      (Decimal.times adjusted
         (Decimal.minus avg (TradeInterface.limit_price trader_position)))
      (TradeInterface.funding trader_position) in
  (Decimal.to_Q (last_position position) == moved)%Q
  /\ match TradeInterface.exit_price trader_position with
     | None =>
         (Decimal.to_Q avg == Decimal.to_Q (Position.entryPrice position))%Q
     | Some exit_price =>
         let average :=
           Spec.weighted_average moved
             (Decimal.to_Q (Position.entryPrice position))
             sum_close (Decimal.to_Q exit_price) in
         (Qabs (Decimal.to_Q avg - average) * (10000000000000000000 # 1)
          <= Qabs average)%Q
         /\ (average_exact trader_position position = true ->
             (Decimal.to_Q avg == average)%Q)
     end
  /\ (Decimal.to_Q adjusted
      == Spec.signed (TradeInterface.bias trader_position)
           (sum_close + moved))%Q
  /\ Decimal.is_finite pnl = true
  /\ (Decimal.to_Q pnl
      == Spec.signed (TradeInterface.bias trader_position)
           (sum_close + moved)
         * (Decimal.to_Q avg
            - Decimal.to_Q (TradeInterface.limit_price trader_position))
         + Decimal.to_Q (TradeInterface.funding trader_position))%Q.
Proof.
  intros Hex. unfold flip_exact in Hex.
  repeat (apply andb_true_iff in Hex as [Hex ?]).
  match goal with H : Decimal.exact_plus (Decimal.times _ _) _ = true |- _ =>
    destruct (plus_exact _ _ H) as [Hpnl_f Hpnl_v] end.
  match goal with H : Decimal.exact_times (adjusted_size _ _) _ = true |- _ =>
    destruct (times_exact _ _ H) as [_ Htimes_v] end.
  match goal with H : Decimal.exact_minus (avg_close _ _) _ = true |- _ =>
    destruct (minus_exact _ _ H) as [_ Hspread_v] end.
  match goal with
    H : Decimal.exact_plus (Decimal.parse _) (last_position _) = true |- _ =>
    destruct (plus_exact _ _ H) as [Hden_f Hden_v] end.
  match goal with H : Decimal.exact_minus (Decimal.minus _ _) _ = true |- _ =>
    destruct (minus_exact _ _ H) as [_ Hlast_v] end.
  destruct (minus_exact _ _ Hex) as [_ Hopen_v].
  cbv zeta.
  assert (Hlast :
    (Decimal.to_Q (last_position position)
     == Decimal.to_Q (Position.sumOpen position)
        - Qabs (Decimal.to_Q (Position.size position))
        - Decimal.to_Q (Position.sumClose position))%Q).
  { unfold last_position.
    rewrite Hlast_v, Hopen_v, abs_value, !parse_value. reflexivity. }
  assert (Hden :
    (Decimal.to_Q
       (Decimal.plus
          (Decimal.parse (TradeInterface.sum_close trader_position))
          (last_position position))
     == Decimal.to_Q (TradeInterface.sum_close trader_position)
        + (Decimal.to_Q (Position.sumOpen position)
           - Qabs (Decimal.to_Q (Position.size position))
           - Decimal.to_Q (Position.sumClose position)))%Q).
  { rewrite Hden_v, parse_value, Hlast. reflexivity. }
  assert (Hadj :
    (Decimal.to_Q (adjusted_size trader_position position)
     == Spec.signed (TradeInterface.bias trader_position)
          (Decimal.to_Q (TradeInterface.sum_close trader_position)
           + (Decimal.to_Q (Position.sumOpen position)
              - Qabs (Decimal.to_Q (Position.size position))
              - Decimal.to_Q (Position.sumClose position))))%Q).
  { unfold adjusted_size, Spec.signed.
    destruct (TradeInterface.bias trader_position =? 0).
    - match goal with H : (negb true || _)%bool = true |- _ =>
        cbn [negb orb] in H;
        destruct (negation_survives_value _ H Hden_f) as [_ Hn] end.
      rewrite Hn, Hden. reflexivity.
    - rewrite parse_value. apply Hden. }
  split; [exact Hlast|]. split; [|split; [exact Hadj|split; [exact Hpnl_f|]]].
  - match goal with H : Decimal.exact_minus (avg_close _ _) _ = true |- _ =>
      pose proof (exact_minus_finite_l _ _ H) as Havg_f end.
    unfold avg_close, average_exact in *.
    destruct (TradeInterface.exit_price trader_position) as [exit_price|];
      [|apply parse_value].
    match goal with
      H : (_ && Decimal.exact_plus (Decimal.times _ _) (Decimal.times _ _))%bool
          = true |- _ =>
      apply andb_true_iff in H as [H Hsum];
      apply andb_true_iff in H as [Ht1 Ht2] end.
    destruct (plus_exact _ _ Hsum) as [Hnum_f Hsum_v].
    destruct (times_exact _ _ Ht1) as [_ Ht1_v].
    destruct (times_exact _ _ Ht2) as [_ Ht2_v].
    assert (Hquot :
      (Decimal.to_Q
         (Decimal.plus
            (Decimal.times (last_position position)
               (Position.entryPrice position))
            (Decimal.times
               (Decimal.parse (TradeInterface.sum_close trader_position))
               exit_price))
       / Decimal.to_Q
           (Decimal.plus
              (Decimal.parse (TradeInterface.sum_close trader_position))
              (last_position position))
       == Spec.weighted_average
            (Decimal.to_Q (Position.sumOpen position)
             - Qabs (Decimal.to_Q (Position.size position))
             - Decimal.to_Q (Position.sumClose position))
            (Decimal.to_Q (Position.entryPrice position))
            (Decimal.to_Q (TradeInterface.sum_close trader_position))
            (Decimal.to_Q exit_price))%Q).
    { rewrite Hsum_v, Ht1_v, Ht2_v, Hden, Hlast, parse_value.
      unfold Spec.weighted_average, Qdiv.
      apply Qmult_comp; [reflexivity|]. apply Qinv_comp. ring. }
    pose proof (div_finite_divisor _ _ Hnum_f Hden_f Havg_f) as Hnz.
    destruct (div_accurate _ _ Hnum_f Hden_f Hnz) as [_ Hacc].
    cbv zeta. rewrite <- Hquot. split; [exact Hacc|].
    intros Hdiv. destruct (div_exact _ _ Hdiv) as (_ & _ & Hq). exact Hq.
  - rewrite Hpnl_v, Htimes_v, Hspread_v, Hadj. reflexivity.
Qed.



Lemma flag_is_one_iff (pnl : Decimal.t) :
  (if Decimal.greaterThan pnl Decimal.zero then 1 else 0) = 1
  <-> Spec.strictly_positive pnl.
Proof.
  rewrite <- greaterThan_zero.
  destruct (Decimal.greaterThan pnl Decimal.zero);
    split; (reflexivity || discriminate).
Qed.

Lemma flag_is_zero_iff (pnl : Decimal.t) :
  (if Decimal.greaterThan pnl Decimal.zero then 1 else 0) = 0
  <-> ~ Spec.strictly_positive pnl.
Proof.
  rewrite <- greaterThan_zero.
  destruct (Decimal.greaterThan pnl Decimal.zero); split; intros H;
    try reflexivity; try discriminate.
  exfalso. apply H. reflexivity.
Qed.

(** C10.  The row of a close or of a flip has its profitability flag at 1
    exactly when its PnL is strictly greater than zero, and at 0 otherwise
    (so at 0 for a PnL of exactly zero, as for the short lane closed at its
    entry price); [closePosition] fails to produce a row only on a [null]
    exit price.  The rows of [createNewPosition] and
    [updateExistingPosition] carry the flag 0 whatever their realised PnL. *)
Theorem profitability_flag :
  (forall trader_position position end_date q,
      match closePosition trader_position position end_date q with
      | Some (row, _) =>
          (TradeInterface.is_profitable row = 1
           <-> Spec.strictly_positive (TradeInterface.pnl row))
          /\ (TradeInterface.is_profitable row = 0
              <-> ~ Spec.strictly_positive (TradeInterface.pnl row))
      | None => Position.exitPrice position = None
      end)
  /\ (forall trader_position position end_date q,
         let row := fst (flipPosition trader_position position end_date q) in
         (TradeInterface.is_profitable row = 1
          <-> Spec.strictly_positive (TradeInterface.pnl row))
         /\ (TradeInterface.is_profitable row = 0
             <-> ~ Spec.strictly_positive (TradeInterface.pnl row)))
  /\ (forall user position address blockHeight createdAt type q,
         TradeInterface.is_profitable
           (fst (createNewPosition user position address blockHeight
                   createdAt type q)) = 0)
  /\ (forall trader_position position q,
         TradeInterface.is_profitable
           (fst (updateExistingPosition trader_position position q)) = 0)
  /\ (exists row q,
         closePosition short_lane short_closed_flat "2024-04-01T00:00:00.000Z"
           [] = Some (row, q)
         /\ (Decimal.to_Q (TradeInterface.pnl row) == 0)%Q
         /\ TradeInterface.is_profitable row = 0).
Proof.
  split; [|split; [|split; [|split]]].
  - intros trader_position position end_date q. unfold closePosition.
    destruct (Position.exitPrice position) as [exitPrice|]; [|reflexivity].
    cbn [TradeInterface.is_profitable TradeInterface.pnl].
    split; [apply flag_is_one_iff | apply flag_is_zero_iff].
  - intros trader_position position end_date q row. subst row.
    unfold flipPosition.
    cbn [fst TradeInterface.is_profitable TradeInterface.pnl].
    split; [apply flag_is_one_iff | apply flag_is_zero_iff].
  - reflexivity.
  - reflexivity.
  - eexists _, _. split; [vm_compute; reflexivity|]. split; reflexivity.
Qed.

(** ** The realised PnL of open and update rows *)

(** C1.  The [realised_pnl] of [createNewPosition] and of
    [updateExistingPosition] is computed in binary64: for the long report
    with 0.1 closed between 0.2 and 0.3 both store 0.009999999999999998,
    which is not the exact 0.1 × (0.3 − 0.2) = 0.01, and the pipeline writes
    9999 units where the exact value scales to 10000. *)
Theorem realised_pnl_is_binary64 :
  let created :=
    fst (createNewPosition 7 tenth_closed (Some "dydx1abc") None None open [])
  in
  let updated := fst (updateExistingPosition created tenth_closed []) in
  realised_pnl_number tenth_closed
  = S754_finite false 5764607523034234 (-59)
  /\ TradeInterface.realised_pnl created
     = Decimal.Finite 9999999999999998 (-18)
  /\ TradeInterface.realised_pnl updated
     = Decimal.Finite 9999999999999998 (-18)
  /\ (Spec.realised_pnl tenth_closed == 1 # 100)%Q
  /\ ~ (Decimal.to_Q (TradeInterface.realised_pnl created)
        == Spec.realised_pnl tenth_closed)%Q
  /\ ~ (Decimal.to_Q (TradeInterface.realised_pnl updated)
        == Spec.realised_pnl tenth_closed)%Q
  /\ convertToDecimal (Some (TradeInterface.realised_pnl created))
       AMOUNT_DECIMALS = Some (SqlUnits 9999)
  /\ convertToDecimal (Some (Decimal.Finite 1 (-2))) AMOUNT_DECIMALS
     = Some (SqlUnits 10000).
Proof.
  cbv zeta.
  assert (Hc : TradeInterface.realised_pnl
                 (fst (createNewPosition 7 tenth_closed (Some "dydx1abc")
                         None None open []))
               = Decimal.Finite 9999999999999998 (-18))
    by (vm_compute; reflexivity).
  assert (Hu : TradeInterface.realised_pnl
                 (fst (updateExistingPosition
                         (fst (createNewPosition 7 tenth_closed
                                 (Some "dydx1abc") None None open []))
                         tenth_closed []))
               = Decimal.Finite 9999999999999998 (-18))
    by (vm_compute; reflexivity).
  rewrite Hc, Hu.
  repeat split; try (vm_compute; reflexivity);
    intros H; vm_compute in H; discriminate H.
Qed.

(** ** The guard of [updatePosition] *)

(** With an empty fill list, a round of [updatePosition] either leaves the
    state alone or is the in-place update of a lane that is open in the
    reported direction. *)
Lemma update_one_no_fill (cachedPairs : gset string) (user : Z)
  (traderAddress : option string) (st : Engine) (position : Position.t) :
  update_one cachedPairs user traderAddress [] st position = st
  \/ exists trader_position,
       lanes st !! remove_hyphens (Position.market position)
       = Some trader_position
       /\ Position.status position = OPEN_STATUS
       /\ TradeInterface.bias trader_position
          = (if String.eqb (Position.side position) "LONG" then 1 else 0)
       /\ update_one cachedPairs user traderAddress [] st position
          = {| lanes :=
                 <[remove_hyphens (Position.market position) :=
                     fst (updateExistingPosition trader_position position
                            (queue st))]> (lanes st);
               queue :=
                 snd (updateExistingPosition trader_position position
                        (queue st)) |}.
Proof.
  unfold update_one.
  destruct (isTrackedSymbol cachedPairs
              (remove_hyphens (Position.market position)));
    cbn [negb]; [|left; reflexivity].
  destruct (lanes st !! remove_hyphens (Position.market position))
    as [trader_position|] eqn:Hlane; cbn [head]; [|left; reflexivity].
  destruct (String.eqb_spec (Position.status position) OPEN_STATUS)
    as [Hopen|Hopen]; cbn [andb].
  - destruct (Z.eqb_spec (TradeInterface.bias trader_position)
                (if String.eqb (Position.side position) "LONG"
                 then 1 else 0)) as [Hb|Hb]; cbn [negb].
    + right. exists trader_position. repeat split; assumption.
    + left. reflexivity.
  - destruct (String.eqb (Position.status position) CLOSED_STATUS);
      left; reflexivity.
Qed.

(** C4, evaluated on the code.  [updatePosition] drops the update (no row
    is pushed, the lane map stays as it is) when the fill list is absent or
    the position list is absent.  An empty fill list passes the guard
    [!fills]: each reported position then either changes nothing or updates
    in place a lane that is open in the same direction, and the sample lane
    grown to 12 under an empty fill list is updated and emits a row. *)
Theorem updatePosition_empty_fill_list :
  (forall cachedPairs user st traderAddress positions,
      updatePosition cachedPairs user st traderAddress positions None = st)
  /\ (forall cachedPairs user st traderAddress fills,
         updatePosition cachedPairs user st traderAddress None fills = st)
  /\ (forall cachedPairs user st traderAddress position,
         let st' := update_one cachedPairs user traderAddress [] st position in
         st' = st
         \/ exists trader_position row,
              lanes st !! remove_hyphens (Position.market position)
              = Some trader_position
              /\ Position.status position = OPEN_STATUS
              /\ TradeInterface.bias trader_position
                 = (if String.eqb (Position.side position) "LONG"
                    then 1 else 0)
              /\ TradeInterface.type row = update
              /\ st' = {| lanes :=
                            <[remove_hyphens (Position.market position) :=
                                row]> (lanes st);
                          queue := queue st ++ [row] |})
  /\ (exists row,
         updatePosition {[ "BTCUSD" ]} 7 (one_lane long_lane)
           (Some "dydx1abc") (Some [long_grown]) (Some [])
         = {| lanes := {[ "BTCUSD" := row ]}; queue := [row] |}
         /\ TradeInterface.type row = update
         /\ TradeInterface.size row = Decimal.Finite 12 0
         /\ row <> long_lane).
Proof.
  split; [|split; [|split]].
  - reflexivity.
  - intros cachedPairs user st traderAddress [fills|]; reflexivity.
  - intros cachedPairs user st traderAddress position st'. subst st'.
    destruct (update_one_no_fill cachedPairs user traderAddress st position)
      as [H|(trader_position & Hlane & Hopen & Hbias & H)];
      [left; assumption|].
    right.
    exists trader_position,
      (fst (updateExistingPosition trader_position position (queue st))).
    repeat split; try assumption.
  - eexists. split; [vm_compute; reflexivity|].
    repeat split. discriminate.
Qed.

(** ** The retry loop of [sqlBatchQuery] *)

Lemma sqlBatchQuery_loop_spec {A : Type} (pool : Z -> string + A)
  (fuel : nat) :
  forall (attempt delayMs : Z) (slept : list Z),
    1 <= attempt <= MAX_RETRIES ->
    (Z.to_nat (MAX_RETRIES - attempt) < fuel)%nat ->
    let run := sqlBatchQuery_loop fuel pool attempt delayMs slept in
    attempt <= attempts run <= MAX_RETRIES
    /\ (forall k, attempt <= k < attempts run -> pool k = inl DEADLOCK)
    /\ match settled run with
       | Resolved results => pool (attempts run) = inr results
       | Rejected code =>
           pool (attempts run) = inl code
           /\ (code <> DEADLOCK \/ attempts run = MAX_RETRIES)
       | Fallthrough => False
       end
    /\ delays run
       = slept
         ++ List.map (fun i => delayMs * 2 ^ Z.of_nat i)
              (seq 0 (Z.to_nat (attempts run - attempt))).
Proof.
  induction fuel as [|fuel IH]; intros attempt delayMs slept Hrange Hfuel;
    [lia|].
  cbn [sqlBatchQuery_loop].
  destruct (Z.leb_spec attempt MAX_RETRIES) as [_|Hgt]; [|lia].
  destruct (pool attempt) as [code|results] eqn:Hpool.
  - destruct (String.eqb_spec code "ER_LOCK_DEADLOCK") as [Hcode|Hcode];
      cbn [andb].
    + destruct (Z.ltb_spec attempt MAX_RETRIES) as [Hlt|Hge].
      * specialize (IH (attempt + 1) (delayMs * 2) (slept ++ [delayMs])).
        destruct IH as (Hb & Hprev & Hlast & Hdel); [lia | lia |].
        cbv zeta. split; [lia|]. split; [|split; [exact Hlast|]].
        -- intros k Hk. destruct (Z.eq_dec k attempt) as [->|Hne].
           ++ rewrite Hpool, Hcode. reflexivity.
           ++ apply Hprev. lia.
        -- rewrite Hdel, <- app_assoc. f_equal.
           set (run := sqlBatchQuery_loop fuel pool (attempt + 1)
                         (delayMs * 2) (slept ++ [delayMs])) in *.
           replace (Z.to_nat (attempts run - attempt))
             with (S (Z.to_nat (attempts run - (attempt + 1)))) by lia.
           cbn [seq List.map app]. f_equal; [cbn; lia|].
           rewrite <- seq_shift, List.map_map.
           apply List.map_ext. intros i.
           rewrite Nat2Z.inj_succ, Z.pow_succ_r by lia. lia.
      * cbn [settled attempts delays]. split; [lia|].
        split; [intros k Hk; lia|]. split.
        -- split; [exact Hpool|]. right. lia.
        -- rewrite Z.sub_diag. cbn. rewrite app_nil_r. reflexivity.
    + cbn [settled attempts delays]. split; [lia|].
      split; [intros k Hk; lia|]. split.
      * split; [exact Hpool|]. left. exact Hcode.
      * rewrite Z.sub_diag. cbn. rewrite app_nil_r. reflexivity.
  - cbn [settled attempts delays]. split; [lia|].
    split; [intros k Hk; lia|]. split; [exact Hpool|].
    rewrite Z.sub_diag. cbn. rewrite app_nil_r. reflexivity.
Qed.





(** Five lock conflicts in a row exhaust the loop: the fifth is thrown,
    after four delays. *)
Example sqlBatchQuery_exhausted :
  sqlBatchQuery (deadlocks_then 5 "ok")
  = {| settled := Rejected DEADLOCK; attempts := 5;
       delays := [1000; 2000; 4000; 8000] |}.
Proof. reflexivity. Qed.

(** ** The socket handlers *)

(** C7, evaluated on the code.  After [closeConnection] the flag is down and
    neither the 'close' handler nor the watchdog schedules a reconnect; but
    the 'error' handler and the failure path of the message worker call
    [setTimeout(connect, RECONNECT_INTERVAL)] without looking at the flag. *)
Theorem reconnect_after_drain :
  forall (s : Session),
    let drained := closeConnection s in
    shouldReconnect drained = false
    /\ reconnects drained = reconnects s
    /\ reconnects (on_close drained) = reconnects drained
    /\ reconnects (heartbeat_timeout drained) = reconnects drained
    /\ reconnects (on_error drained)
       = reconnects drained ++ [RECONNECT_INTERVAL]
    /\ (forall cachedPairs user,
           reconnects (fst (messageQueue_worker cachedPairs user drained None))
           = reconnects drained ++ [RECONNECT_INTERVAL]).
Proof.
  intros s drained. subst drained.
  unfold closeConnection, websocket_close, on_close.
  cbn [socket_closed shouldReconnect].
  destruct (socket_closed s) eqn:Hclosed;
    cbn [socket_closed shouldReconnect reconnects];
    unfold heartbeat_timeout, websocket_close, on_close, on_error,
      messageQueue_worker, schedule_connect;
    cbn [socket_closed shouldReconnect reconnects fst];
    repeat split; reflexivity.
Qed.

(** A drained session that then sees a socket error reconnects. *)
Example drained_session_reconnects :
  reconnects (on_error (closeConnection initWebSocketTraderMemory)) = [1000].
Proof. reflexivity. Qed.

(** C8, evaluated on the code.  The test of the message worker reads the
    [account] property of the message (closing for the string "undefined"
    or [null]) and not the account taken from [id]: a frame without [id]
    and without that property is dispatched with an undefined address, the
    socket stays open and no reconnect is scheduled.  The sample snapshot
    opens a lane whose trade identifier starts with "undefined". *)
Theorem undefined_account_not_rejected :
  (forall cachedPairs user s message,
      Message.id message = None ->
      Message.account message = Undefined ->
      let result := messageQueue_worker cachedPairs user s (Some message) in
      socket_closed (fst result) = socket_closed s
      /\ reconnects (fst result) = reconnects s
      /\ snd result = true
      /\ (Message.type message = SUBSCRIPTION_TYPE ->
          engine (fst result)
          = processSubscriptions cachedPairs user (engine s) None
              (Message.openPerpetualPositions message)))
  /\ (exists row,
         messageQueue_worker {[ "BTCUSD" ]} 7 initWebSocketTraderMemory
           (Some frame_without_id)
         = ({| shouldReconnect := true;
               socket_closed := false;
               reconnects := [];
               engine := {| lanes := {[ "BTCUSD" := row ]};
                            queue := [row] |} |}, true)
         /\ TradeInterface.trade_id row = "undefined-BTCUSD-LONG-100"
         /\ TradeInterface.trader_address row = None).
Proof.
  split.
  - intros cachedPairs user s message Hid Hacc result. subst result.
    unfold messageQueue_worker. rewrite Hid, Hacc. cbn [fmap option_fmap
      option_map].
    destruct (String.eqb_spec (Message.type message) SUBSCRIPTION_TYPE)
      as [Ht|Ht].
    + cbn [fst snd with_engine socket_closed reconnects engine].
      repeat split; reflexivity.
    + destruct (String.eqb (Message.type message) DATA_TYPE);
        cbn [fst snd with_engine socket_closed reconnects engine];
        repeat split; try reflexivity; intros; contradiction.
  - eexists. split; [vm_compute; reflexivity|]. split; reflexivity.
Qed.

(** The theorem at the sample frame. *)
Lemma undefined_account_not_rejected_witness :
  let result :=
    messageQueue_worker {[ "BTCUSD" ]} 7 initWebSocketTraderMemory
      (Some frame_without_id) in
  socket_closed (fst result) = false
  /\ reconnects (fst result) = []
  /\ snd result = true
  /\ engine (fst result)
     = processSubscriptions {[ "BTCUSD" ]} 7 fresh_engine None
         (Message.openPerpetualPositions frame_without_id).
Proof.
  destruct (proj1 undefined_account_not_rejected {[ "BTCUSD" ]} 7
              initWebSocketTraderMemory frame_without_id eq_refl eq_refl)
    as (Hopen & Hnone & Hcalled & Hengine).
  exact (conj Hopen (conj Hnone (conj Hcalled (Hengine eq_refl)))).
Defined.

(** ** The batch upsert *)

Lemma assign_columns_other (columns : list string) (new old : sql_row)
  (column : string) :
  column ∉ columns ->
  assign_columns columns new old !! column = old !! column.
Proof.
  unfold assign_columns. revert old.
  induction columns as [|c columns IH]; intros old Hnot; [reflexivity|].
  cbn [fold_left].
  apply not_elem_of_cons in Hnot as [Hne Hnot].
  rewrite IH by assumption.
  destruct (new !! c); [|reflexivity].
  apply lookup_insert_ne. congruence.
Qed.

Lemma sum_close_not_inserted : "sum_close" ∉ insert_columns.
Proof. apply (bool_decide_unpack _). vm_compute. exact I. Qed.

Lemma sum_close_not_updated : "sum_close" ∉ update_columns.
Proof. apply (bool_decide_unpack _). vm_compute. exact I. Qed.

Lemma upsert_row_sum_close (before after : sql_table)
  (values : list SqlValue) :
  upsert_row before values = inr after ->
  forall key stored,
    after !! key = Some stored ->
    stored !! "sum_close" = kept_sum_close before key.
Proof.
  unfold upsert_row, kept_sum_close.
  destruct (Nat.eqb_spec (length values) (length insert_columns))
    as [Hlen|Hlen]; cbn [negb]; [|discriminate].
  set (new := list_to_map (zip insert_columns values) : sql_row).
  assert (Hnew : new !! "sum_close" = None).
  { apply not_elem_of_list_to_map_1.
    rewrite fst_zip by lia. apply sum_close_not_inserted. }
  destruct (new !! "trade_id") as [[| |id|]|]; try discriminate.
  destruct (before !! id) as [old|] eqn:Hold; intros Heq key stored.
  - assert (Ha : <[id := assign_columns update_columns new old]> before
                 = after) by congruence.
    subst after.
    destruct (decide (id = key)) as [->|Hne].
    + rewrite lookup_insert_eq, Hold. intros Hs.
      assert (Hst : assign_columns update_columns new old = stored)
        by congruence.
      subst stored. apply assign_columns_other, sum_close_not_updated.
    + rewrite lookup_insert_ne by assumption. intros ->. reflexivity.
  - assert (Ha : <[id := new ∪ schema_defaults]> before = after)
      by congruence.
    subst after.
    destruct (decide (id = key)) as [->|Hne].
    + rewrite lookup_insert_eq, Hold. intros Hs.
      assert (Hst : new ∪ schema_defaults = stored) by congruence.
      subst stored. rewrite lookup_union, Hnew. reflexivity.
    + rewrite lookup_insert_ne by assumption. intros ->. reflexivity.
Qed.

Lemma bulk_upsert_sum_close (rows : list (list SqlValue)) :
  forall (before after : sql_table),
    bulk_upsert before rows = inr after ->
    forall key stored,
      after !! key = Some stored ->
      stored !! "sum_close" = kept_sum_close before key.
Proof.
  induction rows as [|values rows IH]; intros before after; cbn [bulk_upsert].
  - intros [= <-] key stored H. unfold kept_sum_close. rewrite H. reflexivity.
  - destruct (upsert_row before values) as [code|middle] eqn:Hrow;
      [discriminate|].
    intros Hrest key stored Hkey.
    rewrite (IH middle after Hrest key stored Hkey).
    unfold kept_sum_close at 1.
    destruct (middle !! key) as [mid|] eqn:Hmid.
    + apply (upsert_row_sum_close before middle values Hrow key mid Hmid).
    + unfold kept_sum_close.
      destruct (before !! key) as [old|] eqn:Hold; [|reflexivity].
      exfalso. revert Hrow Hmid Hold. unfold upsert_row.
      destruct (negb _); [discriminate|].
      destruct (_ !! "trade_id") as [[| |id|]|]; try discriminate.
      destruct (before !! id) eqn:Hid; intros Heq;
        match type of Heq with inr ?t = _ =>
          assert (Ha : t = middle) by congruence end;
        subst middle;
        (destruct (decide (id = key)) as [->|Hne];
         [rewrite lookup_insert_eq; discriminate
         |rewrite lookup_insert_ne by assumption; congruence]).
Qed.

Lemma sqlBatchQuery_resolved (faults : Z -> option string)
  (before after : sql_table) (rows : list (list SqlValue)) :
  settled (sqlBatchQuery (pool_query faults before rows)) = Resolved after ->
  bulk_upsert before rows = inr after.
Proof.
  intros H.
  destruct (sqlBatchQuery_loop_spec (pool_query faults before rows)
              (S (Z.to_nat MAX_RETRIES)) 1 INITIAL_RETRY_DELAY [])
    as (_ & _ & Hlast & _); [unfold MAX_RETRIES; lia..|].
  fold (sqlBatchQuery (pool_query faults before rows)) in Hlast.
  rewrite H in Hlast. unfold pool_query in Hlast.
  destruct (faults _); [discriminate|assumption].
Qed.

(** C5, evaluated on the code.  The statement of [processPositions] has no
    [sum_close] column: whatever a tick of [insertTrades] writes, the
    [sum_close] of every stored row is what the table held before, or the
    column default NULL for a new key.  The update row of the sample lane
    carries sum_close 3; read back by its trade identifier it has
    sum_close NULL (and sum_open 10, scaled by 10^6). *)
Theorem sum_close_never_written :
  (forall (faults : Z -> option string) (p : Pipeline) (key : string),
      match read_by_trade_id (table (insertTrades faults p)) key with
      | Some stored =>
          stored !! "sum_close" = kept_sum_close (table p) key
      | None => True
      end)
  /\ TradeInterface.sum_close emitted_update = Decimal.Finite 3 0
  /\ (let stored :=
        read_by_trade_id (table persisted_update)
          (TradeInterface.trade_id emitted_update) in
      stored ≫= (fun row => row !! "trade_id")
      = Some (SqlText "dydx1abc-BTCUSD-LONG-100")
      /\ stored ≫= (fun row => row !! "sum_close") = Some SqlNull
      /\ stored ≫= (fun row => row !! "sum_open")
         = Some (SqlUnits 10000000)).
Proof.
  split; [|split].
  - intros faults p key. unfold read_by_trade_id.
    destruct (table (insertTrades faults p) !! key) as [stored|] eqn:Hkey;
      [|exact I].
    assert (Hsame : forall t : sql_table,
               t !! key = Some stored -> t = table p ->
               stored !! "sum_close" = kept_sum_close (table p) key).
    { intros t Ht ->. unfold kept_sum_close. rewrite Ht. reflexivity. }
    revert Hkey. unfold insertTrades.
    destruct (is_processing p); [intros H; eapply Hsame; eauto|].
    destruct (processPositions faults (table p) (TO_PROCESS p))
      as [sent run] eqn:Hpp.
    cbn [table].
    destruct run as [[[after|code|] n d]|];
      try (intros H; eapply Hsame; eauto; fail).
    intros Hkey.
    unfold processPositions in Hpp.
    destruct (TO_PROCESS p) as [|row rows]; [discriminate|].
    injection Hpp as _ Hrun.
    eapply bulk_upsert_sum_close; [|eassumption].
    apply (sqlBatchQuery_resolved faults). rewrite Hrun. reflexivity.
  - reflexivity.
  - cbv zeta. repeat split; vm_compute; reflexivity.
Qed.

(** ** The lane map *)

Lemma filter_absent_key {A : Type} (l : list (string * A)) (k : string) :
  k ∉ l.*1 -> filter (fun entry => fst entry = k) l = [].
Proof.
  induction l as [|[k' a] l IH]; intros Hk; [reflexivity|].
  cbn [fmap list_fmap fst] in Hk. apply not_elem_of_cons in Hk as [Hne Hk].
  rewrite filter_cons. cbn [fst].
  destruct (decide (k' = k)) as [Heq|_]; [congruence|]. apply IH, Hk.
Qed.

Lemma filter_key_at_most_one {A : Type} (l : list (string * A)) (k : string) :
  NoDup l.*1 -> (length (filter (fun entry => fst entry = k) l) <= 1)%nat.
Proof.
  induction l as [|[k' a] l IH]; intros Hnd; [cbn; lia|].
  cbn [fmap list_fmap fst] in Hnd. apply NoDup_cons in Hnd as [Hk' Hnd].
  rewrite filter_cons. cbn [fst].
  destruct (decide (k' = k)) as [->|_]; [|apply IH, Hnd].
  rewrite filter_absent_key by assumption. cbn. lia.
Qed.

(** The branches of a round of [updatePosition], once the lane and the
    first fill are known. *)
Ltac update_one_cases :=
  repeat match goal with
         | |- context [if ?b then _ else _] => destruct b
         | |- context [match closePosition ?a ?b ?c ?d with _ => _ end] =>
             destruct (closePosition a b c d) as [[? ?]|]
         end.

Section LaneMap.

Variable cachedPairs : gset string.
Variable user : Z.
Variable traderAddress : option string.

(** A snapshot never touches a lane that is already there. *)
Lemma subscribe_one_keeps (st : Engine)
  (entry : string * Position.t) (k : string) (lane : TradeInterface.t) :
  lanes st !! k = Some lane ->
  lanes (subscribe_one cachedPairs user traderAddress st entry) !! k
  = Some lane.
Proof.
  intros Hk. unfold subscribe_one.
  destruct (isTrackedSymbol cachedPairs (remove_hyphens (fst entry)));
    cbn [negb]; [|assumption].
  destruct (lanes st !! remove_hyphens (fst entry)) eqn:Hsym; [assumption|].
  cbn [createNewPosition lanes].
  rewrite lookup_insert_ne; [assumption|]. congruence.
Qed.

Lemma processSubscriptions_keeps positions :
  forall (st : Engine) (k : string) (lane : TradeInterface.t),
    lanes st !! k = Some lane ->
    lanes (processSubscriptions cachedPairs user st traderAddress positions)
      !! k = Some lane.
Proof.
  destruct positions as [positions|]; [|auto].
  cbn [processSubscriptions].
  induction positions as [|entry positions IH]; intros st k lane Hk;
    [assumption|].
  cbn [fold_left]. apply IH, subscribe_one_keeps, Hk.
Qed.

(** A round of [updatePosition] touches the lane of its own instrument
    only. *)
Lemma update_one_other (fills : list Fill.t) (st : Engine)
  (position : Position.t) (k : string) :
  k <> remove_hyphens (Position.market position) ->
  lanes (update_one cachedPairs user traderAddress fills st position) !! k
  = lanes st !! k.
Proof.
  intros Hk. unfold update_one.
  destruct (isTrackedSymbol _ _); cbn [negb]; [|reflexivity].
  destruct (lanes st !! remove_hyphens (Position.market position))
    as [lane|]; destruct (head fills) as [fill|];
    update_one_cases;
    cbn [lanes flipPosition createNewPosition updateExistingPosition];
    try reflexivity;
    try (apply lookup_insert_ne; congruence);
    try (apply lookup_delete_ne; congruence).
Qed.

Lemma tracked_elem (symbol : string) :
  isTrackedSymbol cachedPairs symbol = true -> symbol ∈ cachedPairs.
Proof. unfold isTrackedSymbol. apply bool_decide_eq_true_1. Qed.

Lemma subscribe_one_invariant (st : Engine)
  (entry : string * Position.t) :
  let st' := subscribe_one cachedPairs user traderAddress st entry in
  (lanes_tracked cachedPairs st -> lanes_tracked cachedPairs st')
  /\ (remove_hyphens (fst entry)
      = remove_hyphens (Position.market (snd entry)) ->
      lanes_filed st -> lanes_filed st').
Proof.
  cbv zeta. unfold subscribe_one.
  destruct (isTrackedSymbol cachedPairs (remove_hyphens (fst entry)))
    eqn:Htracked; cbn [negb]; [|auto].
  destruct (lanes st !! remove_hyphens (fst entry)) eqn:Hsym; [auto|].
  cbn [createNewPosition]. split.
  - intros Hinv k lane. cbn [lanes].
    destruct (decide (k = remove_hyphens (fst entry))) as [->|Hne].
    + intros _. apply tracked_elem, Htracked.
    + rewrite lookup_insert_ne by congruence. apply Hinv.
  - intros Hkey Hinv k lane. cbn [lanes].
    destruct (decide (k = remove_hyphens (fst entry))) as [->|Hne].
    + rewrite lookup_insert_eq. intros Hl.
      assert (Hlane : TradeInterface.token lane
                      = remove_hyphens (Position.market (snd entry))).
      { injection Hl as <-. reflexivity. }
      congruence.
    + rewrite lookup_insert_ne by congruence. apply Hinv.
Qed.

Lemma update_one_untracked (fills : list Fill.t) (st : Engine)
  (position : Position.t) :
  isTrackedSymbol cachedPairs (remove_hyphens (Position.market position))
  = false ->
  update_one cachedPairs user traderAddress fills st position = st.
Proof. intros H. unfold update_one. rewrite H. reflexivity. Qed.

(** The lane that a round of [updatePosition] leaves under its instrument
    names that instrument. *)
Lemma update_one_own_lane (fills : list Fill.t) (st : Engine)
  (position : Position.t) (lane : TradeInterface.t) :
  lanes_filed st ->
  lanes (update_one cachedPairs user traderAddress fills st position)
    !! remove_hyphens (Position.market position) = Some lane ->
  TradeInterface.token lane = remove_hyphens (Position.market position).
Proof.
  intros Hinv. unfold update_one.
  set (symbol := remove_hyphens (Position.market position)).
  destruct (isTrackedSymbol cachedPairs symbol); cbn [negb];
    [|apply Hinv].
  destruct (lanes st !! symbol) as [old|] eqn:Hold;
    destruct (head fills) as [fill|];
    update_one_cases;
    cbn [lanes flipPosition createNewPosition updateExistingPosition];
    rewrite ?lookup_insert_eq, ?lookup_delete_eq, ?Hold;
    intros Hl; try discriminate;
    injection Hl as <-; cbn [TradeInterface.token];
    try reflexivity; apply (Hinv symbol old Hold).
Qed.

Lemma update_one_invariant (fills : list Fill.t) (st : Engine)
  (position : Position.t) :
  let st' := update_one cachedPairs user traderAddress fills st position in
  (lanes_tracked cachedPairs st -> lanes_tracked cachedPairs st')
  /\ (lanes_filed st -> lanes_filed st').
Proof.
  cbv zeta.
  destruct (isTrackedSymbol cachedPairs
              (remove_hyphens (Position.market position))) eqn:Htracked.
  - apply tracked_elem in Htracked. split.
    + intros Hinv k lane.
      destruct (decide (k = remove_hyphens (Position.market position)))
        as [->|Hne]; [intros _; assumption|].
      rewrite update_one_other by assumption. apply Hinv.
    + intros Hinv k lane.
      destruct (decide (k = remove_hyphens (Position.market position)))
        as [->|Hne]; [apply update_one_own_lane, Hinv|].
      rewrite update_one_other by assumption. apply Hinv.
  - rewrite update_one_untracked by assumption. auto.
Qed.

Lemma apply_frame_invariant (frame : Frame) :
  forall st : Engine,
    let st' := apply_frame cachedPairs user traderAddress st frame in
    (lanes_tracked cachedPairs st -> lanes_tracked cachedPairs st')
    /\ (keyed_by_market frame -> lanes_filed st -> lanes_filed st').
Proof.
  destruct frame as [[positions|]|[positions|] [fills|]];
    cbn [apply_frame processSubscriptions updatePosition keyed_by_market];
    auto.
  - induction positions as [|entry positions IH]; intros st; cbn [fold_left];
      [auto|].
    destruct (subscribe_one_invariant st entry)
      as [Ht Hf].
    destruct (IH (subscribe_one cachedPairs user traderAddress st entry))
      as [Ht' Hf'].
    split; [auto|]. intros Hkeyed Hinv.
    apply Forall_cons in Hkeyed as [Hentry Hrest]. auto.
  - induction positions as [|position positions IH]; intros st;
      cbn [fold_left]; [auto|].
    destruct (update_one_invariant fills st
                position) as [Ht Hf].
    destruct (IH (update_one cachedPairs user traderAddress fills st
                    position)) as [Ht' Hf'].
    split; auto.
Qed.

Lemma run_frames_invariant (frames : list Frame) :
  forall st : Engine,
    let st' :=
      fold_left (apply_frame cachedPairs user traderAddress) frames st in
    (lanes_tracked cachedPairs st -> lanes_tracked cachedPairs st')
    /\ (Forall keyed_by_market frames -> lanes_filed st -> lanes_filed st').
Proof.
  induction frames as [|frame frames IH]; intros st; cbn [fold_left];
    [auto|].
  destruct (apply_frame_invariant frame st)
    as [Ht Hf].
  destruct (IH (apply_frame cachedPairs user traderAddress st frame))
    as [Ht' Hf'].
  split; [auto|]. intros Hkeyed Hinv.
  apply Forall_cons in Hkeyed as [Hframe Hrest]. auto.
Qed.

End LaneMap.

(** C9.  In every state that a sequence of snapshot and incremental frames
    reaches from the empty map of a new connection, at most one lane is
    filed under an instrument, every lane is filed under a tracked
    instrument, and (the snapshots being keyed by market) under the very
    instrument its rows name, so that no two lanes are of the same
    instrument.  A snapshot leaves every lane that is already there as it
    is, and a round of [updatePosition] touches no lane but the one of its
    own instrument. *)
Theorem one_lane_per_instrument :
  (forall cachedPairs user traderAddress frames,
      let st := run_frames cachedPairs user traderAddress frames in
      (forall symbol, (length (entries_for symbol (lanes st)) <= 1)%nat)
      /\ lanes_tracked cachedPairs st
      /\ (Forall keyed_by_market frames ->
          forall k1 k2 lane1 lane2,
            lanes st !! k1 = Some lane1 ->
            lanes st !! k2 = Some lane2 ->
            TradeInterface.token lane1 = TradeInterface.token lane2 ->
            k1 = k2 /\ lane1 = lane2))
  /\ (forall cachedPairs user traderAddress st positions k lane,
         lanes st !! k = Some lane ->
         lanes (processSubscriptions cachedPairs user st traderAddress
                  positions) !! k = Some lane)
  /\ (forall cachedPairs user traderAddress fills st position k,
         k <> remove_hyphens (Position.market position) ->
         lanes (update_one cachedPairs user traderAddress fills st position)
           !! k = lanes st !! k).
Proof.
  split; [|split].
  - intros cachedPairs user traderAddress frames st.
    destruct (run_frames_invariant cachedPairs user traderAddress frames
                fresh_engine) as [Ht Hf].
    fold (run_frames cachedPairs user traderAddress frames) in Ht, Hf.
    fold st in Ht, Hf.
    split; [|split].
    + intros symbol. apply filter_key_at_most_one, NoDup_fst_map_to_list.
    + apply Ht. intros k lane H. cbn in H. rewrite lookup_empty in H.
      discriminate.
    + intros Hkeyed k1 k2 lane1 lane2 H1 H2 Htoken.
      assert (Hfiled : lanes_filed st).
      { apply Hf; [assumption|]. intros k lane H. cbn in H.
        rewrite lookup_empty in H. discriminate. }
      assert (Hk : k1 = k2).
      { rewrite <- (Hfiled k1 lane1 H1), <- (Hfiled k2 lane2 H2).
        assumption. }
      split; [assumption|]. subst k2. congruence.
  - intros cachedPairs user traderAddress st positions k lane.
    apply processSubscriptions_keeps.
  - intros cachedPairs user traderAddress fills st position k.
    apply update_one_other.
Qed.

(** The theorem at the sample frames. *)
Lemma one_lane_per_instrument_witness :
  Forall keyed_by_market sample_frames
  /\ exists lane,
       lanes (run_frames {[ "BTCUSD" ]} 7 (Some "dydx1abc") sample_frames)
         !! "BTCUSD" = Some lane
       /\ TradeInterface.token lane = "BTCUSD"
       /\ ("BTCUSD" = "BTCUSD" /\ lane = lane).
Proof.
  assert (Hkeyed : Forall keyed_by_market sample_frames)
    by (repeat constructor).
  split; [exact Hkeyed|].
  eexists. split; [vm_compute; reflexivity|]. split; [reflexivity|].
  eapply (proj2 (proj2 (proj1 one_lane_per_instrument {[ "BTCUSD" ]} 7
                          (Some "dydx1abc") sample_frames)) Hkeyed
            "BTCUSD" "BTCUSD");
    [vm_compute; reflexivity | vm_compute; reflexivity | reflexivity].
Defined.

(** ** Where the exactness conditions bite *)

(** A flip after a partial close: 10 closed before at 100 and 10 moved over
    at 110 average to 105; with the entry at 90 and funding −2.5 the PnL is
    20 × 15 − 2.5. *)
Example flip_after_partial_close :
  flip_exact lane_with_prior_exit flipped_short = true
  /\ average_exact lane_with_prior_exit flipped_short = true
  /\ (Decimal.to_Q (avg_close lane_with_prior_exit flipped_short)
      == Spec.weighted_average (10 # 1) (110 # 1) (10 # 1) (100 # 1))%Q
  /\ (Decimal.to_Q
        (TradeInterface.pnl
           (fst (flipPosition lane_with_prior_exit flipped_short
                   "2024-04-01T00:00:00.000Z" [])))
      == 2975 # 10)%Q.
Proof.
  assert (Hex : flip_exact lane_with_prior_exit flipped_short = true)
    by (vm_compute; reflexivity).
  assert (Hav : average_exact lane_with_prior_exit flipped_short = true)
    by (vm_compute; reflexivity).
  destruct (flipPosition_exact _ _ Hex) as (_ & Havg & _ & _ & Hpnl).
  cbn [TradeInterface.exit_price lane_with_prior_exit] in Havg.
  destruct Havg as [_ Havg].
  split; [exact Hex|]. split; [exact Hav|]. split.
  - rewrite (Havg Hav). vm_compute. reflexivity.
  - unfold flipPosition. cbn [fst TradeInterface.pnl].
    rewrite Hpnl, (Havg Hav). vm_compute. reflexivity.
Qed.

(** A weighted average that does not terminate: 5 closed before at 100 and
    10 moved over at 110 average to 106.66666666666666667 in twenty digits,
    and the PnL of the row follows that exit price. *)
Example flip_with_repeating_average :
  flip_exact lane_five_closed flipped_short = true
  /\ average_exact lane_five_closed flipped_short = false
  /\ avg_close lane_five_closed flipped_short
     = Decimal.Finite 10666666666666666667 (-17)
  /\ TradeInterface.pnl
       (fst (flipPosition lane_five_closed flipped_short
               "2024-04-01T00:00:00.000Z" []))
     = Decimal.Finite 25000000000000000005 (-17).
Proof. repeat split; vm_compute; reflexivity. Qed.

(** Beyond 20 significant digits decimal.js rounds: the close of 1.234567
    between 1.000000000001 and 30000.123456789012 has the exact PnL
    37035.927848677638943237 and the row carries 37035.927848677638943. *)
Example close_rounds_beyond_precision :
  close_exact many_digits_closed = false
  /\ (exists row q,
         closePosition long_lane many_digits_closed
           "2024-04-01T00:00:00.000Z" [] = Some (row, q)
         /\ TradeInterface.pnl row
            = Decimal.Finite 37035927848677638943 (-15))
  /\ 1234567 * (30000123456789012 - 1000000000001)
     = 37035927848677638943237.
Proof.
  split; [vm_compute; reflexivity|]. split; [|reflexivity].
  eexists _, _. split; vm_compute; reflexivity.
Qed.

(** The unary minus goes through a Number: twenty digits do not survive. *)
Example negation_loses_digits :
  negation_survives (Decimal.Finite 12345678901234567890 (-20)) = false
  /\ Decimal_of_negated (Decimal.Finite 12345678901234567890 (-20))
     = Decimal.Finite (-12345678901234568) (-17).
Proof. split; vm_compute; reflexivity. Qed.

(** A realised PnL below 10^-6 prints in exponential notation
    ("2.0000000000000282e-7"), [parseUnits] rejects it, and the processor
    queue pushes nothing for the row. *)
Example dust_row_not_enqueued :
  let row := fst (updateExistingPosition long_lane dust_closed []) in
  TradeInterface.realised_pnl row = Decimal.Finite 20000000000000282 (-23)
  /\ convertToDecimal (Some (TradeInterface.realised_pnl row)) AMOUNT_DECIMALS
     = None
  /\ processorQueue_worker (fun date => date) "2024-04-01 00:00:10" [] row
     = [].
Proof. cbv zeta. repeat split; vm_compute; reflexivity. Qed.

(** Number::toString picks the shortest digits: the double nearest to
    10^23 lies below it and still prints as 1e+23. *)
Example toString_shortest :
  Js.ToNumber (Decimal.Finite 1 23) = S754_finite false 5960464477539062 24
  /\ Js.toString (Js.ToNumber (Decimal.Finite 1 23)) = Decimal.Finite 1 23
  /\ Js.toString (Js.ToNumber (Decimal.Finite 9007199254740993 0))
     = Decimal.Finite 9007199254740992 0.
Proof. repeat split; vm_compute; reflexivity. Qed.

(** * Further properties of the code *)

(** ** [convertToDecimal] *)








(** ** The tuple of the processor queue and the columns of the statement *)

Lemma printable_conversions (row : TradeInterface.t) :
  printable row = true ->
  forall decimals,
    is_Some (convertToDecimal (Some (TradeInterface.size row)) decimals)
    /\ is_Some (convertToDecimal (Some (TradeInterface.sum_open row))
                  decimals)
    /\ is_Some (convertToDecimal (Some (TradeInterface.limit_price row))
                  decimals)
    /\ is_Some (convertToDecimal (TradeInterface.exit_price row) decimals)
    /\ is_Some (convertToDecimal (Some (TradeInterface.funding row))
                  decimals)
    /\ is_Some (convertToDecimal (Some (TradeInterface.realised_pnl row))
                  decimals)
    /\ is_Some (convertToDecimal (Some (TradeInterface.pnl row)) decimals).
Proof.
  unfold printable. intros H decimals.
  repeat (apply andb_prop in H as [H ?]).
  assert (Hplain : forall d,
             Decimal.plain_notation d = true ->
             is_Some (convertToDecimal (Some d) decimals)).
  { intros [| s | c e] Hd; try discriminate.
    unfold convertToDecimal. rewrite Hd. eexists. reflexivity. }
  repeat split; try (apply Hplain; assumption).
  destruct (TradeInterface.exit_price row) as [exit_price|];
    [apply Hplain; assumption | eexists; reflexivity].
Qed.

Lemma conversion_plain (d : Decimal.t) (decimals : Z) (v : SqlValue) :
  convertToDecimal (Some d) decimals = Some v ->
  Decimal.plain_notation d = true.
Proof.
  destruct d as [| s | c e]; try discriminate.
  unfold convertToDecimal.
  destruct (Decimal.plain_notation (Decimal.Finite c e));
    [reflexivity | discriminate].
Qed.

(** What the worker pushes for a row: one tuple, or nothing. *)
Lemma processorQueue_worker_cases (convertToSqlDate : string -> string)
  (getSqlDate : string) (TO_PROCESS : list (list SqlValue))
  (row : TradeInterface.t) :
  (printable row = false
   /\ processorQueue_worker convertToSqlDate getSqlDate TO_PROCESS row
      = TO_PROCESS)
  \/ (printable row = true
      /\ exists size sum_open limit_price exit_price funding realised_pnl pnl,
           convertToDecimal (Some (TradeInterface.size row)) AMOUNT_DECIMALS
           = Some size
           /\ convertToDecimal (Some (TradeInterface.sum_open row))
                AMOUNT_DECIMALS = Some sum_open
           /\ convertToDecimal (Some (TradeInterface.limit_price row))
                PRICE_DECIMALS = Some limit_price
           /\ convertToDecimal (TradeInterface.exit_price row) PRICE_DECIMALS
              = Some exit_price
           /\ convertToDecimal (Some (TradeInterface.funding row))
                AMOUNT_DECIMALS = Some funding
           /\ convertToDecimal (Some (TradeInterface.realised_pnl row))
                AMOUNT_DECIMALS = Some realised_pnl
           /\ convertToDecimal (Some (TradeInterface.pnl row))
                AMOUNT_DECIMALS = Some pnl
           /\ processorQueue_worker convertToSqlDate getSqlDate TO_PROCESS
                row
              = TO_PROCESS ++
                [[ SqlNumber (TradeInterface.user row);
                   SqlText (TradeInterface.trade_id row);
                   sql_of_address (TradeInterface.trader_address row);
                   SqlText (TradeInterface.token row);
                   SqlNumber (TradeInterface.bias row);
                   size; sum_open; limit_price; exit_price;
                   SqlText (convertToSqlDate (TradeInterface.start_date row));
                   match TradeInterface.end_date row with
                   | None => SqlNull
                   | Some end_date => SqlText (convertToSqlDate end_date)
                   end;
                   funding; realised_pnl; pnl;
                   SqlNumber (TradeInterface.is_profitable row);
                   SqlText getSqlDate;
                   SqlText (type_string (TradeInterface.type row)) ]]).
Proof.
  destruct (printable row) eqn:Hp.
  - right. split; [reflexivity|].
    destruct (printable_conversions row Hp AMOUNT_DECIMALS)
      as ([size Hsize] & [sum_open Hopen] & _ & _ & [funding Hfunding]
          & [realised_pnl Hrealised] & [pnl Hpnl]).
    destruct (printable_conversions row Hp PRICE_DECIMALS)
      as (_ & _ & [limit_price Hlimit] & [exit_price Hexit] & _).
    exists size, sum_open, limit_price, exit_price, funding, realised_pnl,
      pnl.
    repeat (split; [assumption|]).
    unfold processorQueue_worker.
    rewrite Hsize, Hopen, Hlimit, Hexit, Hfunding, Hrealised, Hpnl.
    reflexivity.
  - left. split; [reflexivity|].
    unfold processorQueue_worker.
    destruct (convertToDecimal (Some (TradeInterface.size row)) _)
      as [size|] eqn:Hsize; [|reflexivity].
    destruct (convertToDecimal (Some (TradeInterface.sum_open row)) _)
      as [sum_open|] eqn:Hopen; [|reflexivity].
    destruct (convertToDecimal (Some (TradeInterface.limit_price row)) _)
      as [limit_price|] eqn:Hlimit; [|reflexivity].
    destruct (convertToDecimal (TradeInterface.exit_price row) _)
      as [exit_price|] eqn:Hexit; [|reflexivity].
    destruct (convertToDecimal (Some (TradeInterface.funding row)) _)
      as [funding|] eqn:Hfunding; [|reflexivity].
    destruct (convertToDecimal (Some (TradeInterface.realised_pnl row)) _)
      as [realised_pnl|] eqn:Hrealised; [|reflexivity].
    destruct (convertToDecimal (Some (TradeInterface.pnl row)) _)
      as [pnl|] eqn:Hpnl; [|reflexivity].
    exfalso.
    apply conversion_plain in Hsize, Hopen, Hlimit, Hfunding, Hrealised,
      Hpnl.
    assert (Hx : match TradeInterface.exit_price row with
                 | Some x => Decimal.plain_notation x
                 | None => true
                 end = true).
    { destruct (TradeInterface.exit_price row) as [x|]; [|reflexivity].
      eapply conversion_plain, Hexit. }
    unfold printable in Hp.
    rewrite Hsize, Hopen, Hlimit, Hx, Hfunding, Hrealised, Hpnl in Hp.
    discriminate.
Qed.


(** ** The statement of [processPositions] on one row *)







(** ** Notifications *)









(** ** Snapshots *)

Section Snapshot.

Variable cachedPairs : gset string.
Variable user : Z.
Variable traderAddress : option string.



(** After a snapshot every tracked instrument it lists has a lane. *)
Lemma subscribe_one_present (st : Engine) (entry : string * Position.t) :
  isTrackedSymbol cachedPairs (remove_hyphens (fst entry)) = true ->
  is_Some (lanes (subscribe_one cachedPairs user traderAddress st entry)
             !! remove_hyphens (fst entry)).
Proof.
  intros Htracked. unfold subscribe_one. rewrite Htracked. cbn [negb].
  destruct (lanes st !! remove_hyphens (fst entry)) as [lane|] eqn:Hlane.
  - rewrite Hlane. eexists. reflexivity.
  - cbn [createNewPosition lanes]. rewrite lookup_insert_eq.
    eexists. reflexivity.
Qed.

Lemma subscribe_one_settled (st : Engine) (entry : string * Position.t) :
  (isTrackedSymbol cachedPairs (remove_hyphens (fst entry)) = true ->
   is_Some (lanes st !! remove_hyphens (fst entry))) ->
  subscribe_one cachedPairs user traderAddress st entry = st.
Proof.
  intros H. unfold subscribe_one.
  destruct (isTrackedSymbol cachedPairs (remove_hyphens (fst entry)));
    cbn [negb]; [|reflexivity].
  destruct (H eq_refl) as [lane ->]. reflexivity.
Qed.

Lemma subscribe_all_present (positions : list (string * Position.t)) :
  forall (st : Engine) (entry : string * Position.t),
    entry ∈ positions ->
    isTrackedSymbol cachedPairs (remove_hyphens (fst entry)) = true ->
    is_Some
      (lanes (fold_left (subscribe_one cachedPairs user traderAddress)
                positions st) !! remove_hyphens (fst entry)).
Proof.
  induction positions as [|first positions IH]; intros st entry Hin Htracked;
    [apply elem_of_nil in Hin; contradiction|].
  cbn [fold_left].
  apply elem_of_cons in Hin as [->|Hin]; [|apply IH; assumption].
  destruct (subscribe_one_present st first Htracked) as [lane Hlane].
  exists lane.
  apply (processSubscriptions_keeps cachedPairs user traderAddress
           (Some positions)), Hlane.
Qed.

Lemma subscribe_all_settled (positions : list (string * Position.t))
  (st : Engine) :
  (forall entry,
      entry ∈ positions ->
      isTrackedSymbol cachedPairs (remove_hyphens (fst entry)) = true ->
      is_Some (lanes st !! remove_hyphens (fst entry))) ->
  fold_left (subscribe_one cachedPairs user traderAddress) positions st = st.
Proof.
  induction positions as [|first positions IH]; intros H; cbn [fold_left];
    [reflexivity|].
  rewrite subscribe_one_settled.
  - apply IH. intros entry Hin. apply H. apply elem_of_cons. right. exact Hin.
  - apply H. apply elem_of_cons. left. reflexivity.
Qed.

End Snapshot.



(** A snapshot that arrives a second time changes nothing: no lane is
    touched and no row is emitted. *)
Theorem processSubscriptions_idempotent :
  forall cachedPairs user st traderAddress positions,
    let once :=
      processSubscriptions cachedPairs user st traderAddress positions in
    processSubscriptions cachedPairs user once traderAddress positions
    = once.
Proof.
  intros cachedPairs user st traderAddress [positions|]; [|reflexivity].
  cbv zeta. cbn [processSubscriptions].
  apply subscribe_all_settled. intros entry Hin Htracked.
  apply subscribe_all_present; assumption.
Qed.

(** ** Rounds of [updatePosition] *)

(** Some reports change nothing: no lane is touched and no row is emitted
    when the instrument is not tracked, and when the instrument has a lane
    and the report's status is neither OPEN nor CLOSED (the round throws
    "Unrecognised case") or is CLOSED without an exit price ([new
    Decimal(null)] throws before anything is changed). *)
Theorem reports_without_effect :
  forall cachedPairs user traderAddress fills st position,
    let symbol := remove_hyphens (Position.market position) in
    isTrackedSymbol cachedPairs symbol = false
    \/ (is_Some (lanes st !! symbol)
        /\ Position.status position <> OPEN_STATUS
        /\ (Position.status position <> CLOSED_STATUS
            \/ Position.exitPrice position = None)) ->
    update_one cachedPairs user traderAddress fills st position = st.
Proof.
  intros cachedPairs user traderAddress fills st position symbol H.
  unfold update_one. fold symbol.
  destruct H as [->|([lane Hlane] & Hopen & Hclosed)]; [reflexivity|].
  destruct (isTrackedSymbol cachedPairs symbol); cbn [negb]; [|reflexivity].
  rewrite Hlane.
  destruct (String.eqb_spec (Position.status position) OPEN_STATUS)
    as [Heq|_]; [contradiction|].
  cbn [andb].
  destruct (String.eqb_spec (Position.status position) CLOSED_STATUS)
    as [Heq|_]; [|reflexivity].
  destruct Hclosed as [Hne|Hexit]; [contradiction|].
  destruct (head fills) as [fill|]; [|reflexivity].
  unfold closePosition. rewrite Hexit. reflexivity.
Qed.

(** The theorem at a report of the short lane that says CLOSED and names
    no exit price. *)
Lemma reports_without_effect_witness :
  update_one {[ "BTCUSD" ]} 7 (Some "dydx1abc") [sample_fill]
    (one_lane short_lane) closed_without_exit
  = one_lane short_lane.
Proof.
  apply reports_without_effect. right.
  split; [eexists; vm_compute; reflexivity|].
  split; [discriminate|]. right. reflexivity.
Defined.

(** A report for a tracked instrument that has no lane opens one, whatever
    its status says: the lane is dated and numbered by the first fill,
    tagged "open", and one row is emitted.  So a report that says CLOSED
    opens a lane when none is there. *)
Theorem report_without_lane_opens :
  forall cachedPairs user traderAddress fill fills st position,
    let symbol := remove_hyphens (Position.market position) in
    isTrackedSymbol cachedPairs symbol = true ->
    lanes st !! symbol = None ->
    exists row,
      update_one cachedPairs user traderAddress (fill :: fills) st position
      = {| lanes := <[symbol := row]> (lanes st);
           queue := queue st ++ [row] |}
      /\ TradeInterface.type row = open
      /\ TradeInterface.end_date row = None
      /\ TradeInterface.size row = Position.size position
      /\ TradeInterface.trade_id row
         = template_trade_id traderAddress symbol (Position.side position)
             (or_else (Some (Fill.createdAtHeight fill))
                (Position.createdAtHeight position))
      /\ TradeInterface.start_date row
         = or_else (Some (Fill.createdAt fill)) (Position.createdAt position).
Proof.
  intros cachedPairs user traderAddress fill fills st position symbol
    Htracked Hlane.
  unfold update_one. fold symbol. rewrite Htracked, Hlane.
  cbn [negb head createNewPosition aggregatePositions].
  eexists. split; [reflexivity|]. repeat split.
Qed.

(** The theorem at the closing report of a short position, on a new
    connection. *)
Lemma report_without_lane_opens_witness :
  exists row,
    update_one {[ "BTCUSD" ]} 7 (Some "dydx1abc") [sample_fill] fresh_engine
      short_closed
    = {| lanes := {[ "BTCUSD" := row ]}; queue := [row] |}
    /\ Position.status short_closed = CLOSED_STATUS
    /\ TradeInterface.type row = open
    /\ TradeInterface.trade_id row = "dydx1abc-BTCUSD-SHORT-120".
Proof.
  assert (Htracked :
    isTrackedSymbol {[ "BTCUSD" ]}
      (remove_hyphens (Position.market short_closed)) = true)
    by (vm_compute; reflexivity).
  assert (Hlane :
    lanes fresh_engine !! remove_hyphens (Position.market short_closed)
    = None) by (vm_compute; reflexivity).
  destruct (report_without_lane_opens {[ "BTCUSD" ]} 7 (Some "dydx1abc")
              sample_fill [] fresh_engine short_closed Htracked Hlane)
    as (row & Hstep & Htype & _ & _ & Hid & _).
  exists row. split; [exact Hstep|]. split; [reflexivity|].
  split; [exact Htype | exact Hid].
Defined.

(** Every row that a round emits about a lane that is there carries the
    [trade_id], the user and the start date under which the lane was
    opened, so that it lands on the stored row of that lane: an update row
    (the lane stays, as that row), a close row (the lane goes), or the
    close row of a flip followed by the open row of the fresh lane. *)
Theorem rows_carry_the_lane_identity :
  forall cachedPairs user traderAddress fills st position lane,
    let symbol := remove_hyphens (Position.market position) in
    let st' := update_one cachedPairs user traderAddress fills st position in
    lanes st !! symbol = Some lane ->
    st' = st
    \/ (exists row,
           queue st' = queue st ++ [row]
           /\ TradeInterface.trade_id row = TradeInterface.trade_id lane
           /\ TradeInterface.user row = TradeInterface.user lane
           /\ TradeInterface.start_date row = TradeInterface.start_date lane
           /\ ((TradeInterface.type row = update
                /\ lanes st' !! symbol = Some row)
               \/ (TradeInterface.type row = close
                   /\ lanes st' !! symbol = None)))
    \/ (exists closing fresh,
           queue st' = queue st ++ [closing; fresh]
           /\ TradeInterface.trade_id closing = TradeInterface.trade_id lane
           /\ TradeInterface.user closing = TradeInterface.user lane
           /\ TradeInterface.start_date closing
              = TradeInterface.start_date lane
           /\ TradeInterface.type closing = close
           /\ TradeInterface.type fresh = open
           /\ lanes st' !! symbol = Some fresh).
Proof.
  intros cachedPairs user traderAddress fills st position lane symbol st'
    Hlane.
  subst st'. unfold update_one. fold symbol.
  destruct (isTrackedSymbol cachedPairs symbol); cbn [negb];
    [|left; reflexivity].
  rewrite Hlane.
  destruct (String.eqb (Position.status position) OPEN_STATUS
            && (TradeInterface.bias lane
                =? (if String.eqb (Position.side position) "LONG"
                    then 1 else 0))).
  { right. left. eexists.
    cbn [updateExistingPosition aggregatePositions queue lanes].
    split; [reflexivity|]. repeat split.
    left. split; [reflexivity|]. apply lookup_insert_eq. }
  destruct (String.eqb (Position.status position) OPEN_STATUS
            && negb (TradeInterface.bias lane
                     =? (if String.eqb (Position.side position) "LONG"
                         then 1 else 0))).
  { destruct (head fills) as [fill|]; [|left; reflexivity].
    right. right. eexists _, _.
    unfold flipPosition, createNewPosition, aggregatePositions.
    cbn [queue lanes]. rewrite <- app_assoc.
    split; [reflexivity|]. repeat split.
    apply lookup_insert_eq. }
  destruct (String.eqb (Position.status position) CLOSED_STATUS);
    [|left; reflexivity].
  destruct (head fills) as [fill|]; [|left; reflexivity].
  unfold closePosition.
  destruct (Position.exitPrice position) as [exitPrice|];
    [|left; reflexivity].
  right. left. eexists. cbn [aggregatePositions queue lanes].
  split; [reflexivity|]. repeat split.
  right. split; [reflexivity|]. apply lookup_delete_eq.
Qed.

(** The theorem at the report that closes the short lane at 40. *)
Lemma rows_carry_the_lane_identity_witness :
  exists row,
    queue (update_one {[ "BTCUSD" ]} 7 (Some "dydx1abc") [sample_fill]
             (one_lane short_lane) short_closed) = [row]
    /\ TradeInterface.trade_id row = "dydx1abc-BTCUSD-SHORT-100"
    /\ TradeInterface.type row = close.
Proof.
  assert (Hlane :
    lanes (one_lane short_lane)
      !! remove_hyphens (Position.market short_closed) = Some short_lane)
    by (vm_compute; reflexivity).
  destruct (rows_carry_the_lane_identity {[ "BTCUSD" ]} 7 (Some "dydx1abc")
              [sample_fill] (one_lane short_lane) short_closed short_lane
              Hlane)
    as [Hsame|[(row & Hq & Hid & _ & _ & Hrow)
              |(closing & fresh & Hq & _)]].
  - apply (f_equal queue) in Hsame. vm_compute in Hsame. discriminate Hsame.
  - exists row. split; [exact Hq|]. split; [exact Hid|].
    destruct Hrow as [[_ Hstays]|[Htype _]]; [|exact Htype].
    vm_compute in Hstays. discriminate Hstays.
  - apply (f_equal (@length _)) in Hq. vm_compute in Hq. discriminate Hq.
Defined.

(** ** The lanes of a connection are open lanes *)

Section OpenLanes.

Variable cachedPairs : gset string.
Variable user : Z.
Variable traderAddress : option string.







End OpenLanes.



(** ** The trade identifier *)

Lemma remove_hyphens_free (s : string) :
  hyphen_free (remove_hyphens s) = true.
Proof.
  induction s as [|c s IH]; [reflexivity|]. cbn [remove_hyphens].
  destruct (Ascii.eqb c "-") eqn:Hc; [exact IH|].
  cbn [hyphen_free]. rewrite Hc. exact IH.
Qed.

Lemma remove_hyphens_id (s : string) :
  hyphen_free s = true -> remove_hyphens s = s.
Proof.
  induction s as [|c s IH]; [reflexivity|]. cbn [hyphen_free remove_hyphens].
  destruct (Ascii.eqb c "-"); [discriminate|]. cbn [negb andb].
  intros H. rewrite (IH H). reflexivity.
Qed.

Lemma append_nil_l (s : string) : ("" ++ s)%string = s.
Proof. reflexivity. Qed.

Lemma append_cons (c : ascii) (s r : string) :
  (String c s ++ r)%string = String c (s ++ r)%string.
Proof. reflexivity. Qed.

(** A string is cut at its first hyphen in one way only. *)
Lemma hyphen_split (x x' r r' : string) :
  hyphen_free x = true ->
  hyphen_free x' = true ->
  (x ++ "-" ++ r)%string = (x' ++ "-" ++ r')%string ->
  x = x' /\ r = r'.
Proof.
  revert x'. induction x as [|c x IH]; intros [|c' x'] Hx Hx';
    rewrite ?append_cons, ?append_nil_l; cbn [hyphen_free] in *.
  - intros [= ->]. split; reflexivity.
  - intros [= <- _]. discriminate Hx'.
  - intros [= -> _]. discriminate Hx.
  - intros [= -> Heq].
    apply andb_prop in Hx as [_ Hx]. apply andb_prop in Hx' as [_ Hx'].
    destruct (IH x' Hx Hx' Heq) as [-> ->]. split; reflexivity.
Qed.

(** The [trade_id] that [createNewPosition] builds names its lane: two rows
    made for addresses and sides without a hyphen have the same identifier
    only if they agree on the address, the instrument (the market with its
    hyphens removed), the side and the block height. *)
Theorem trade_id_names_the_lane :
  forall user user' position position' address address' blockHeight
    blockHeight' createdAt createdAt' type type' q q',
    hyphen_free address = true ->
    hyphen_free address' = true ->
    hyphen_free (Position.side position) = true ->
    hyphen_free (Position.side position') = true ->
    TradeInterface.trade_id
      (fst (createNewPosition user position (Some address) blockHeight
              createdAt type q))
    = TradeInterface.trade_id
        (fst (createNewPosition user' position' (Some address') blockHeight'
                createdAt' type' q')) ->
    address = address'
    /\ remove_hyphens (Position.market position)
       = remove_hyphens (Position.market position')
    /\ Position.side position = Position.side position'
    /\ or_else blockHeight (Position.createdAtHeight position)
       = or_else blockHeight' (Position.createdAtHeight position').
Proof.
  intros user user' position position' address address' blockHeight
    blockHeight' createdAt createdAt' type type' q q' Ha Ha' Hs Hs'.
  unfold createNewPosition, template_trade_id, template_address.
  cbn [fst TradeInterface.trade_id].
  intros Heq.
  apply hyphen_split in Heq as [-> Heq]; [|assumption..].
  apply hyphen_split in Heq as [-> Heq]; [|apply remove_hyphens_free..].
  apply hyphen_split in Heq as [-> ->]; [|assumption..].
  repeat split.
Qed.

(** The theorem at two rows of the same lane: one numbered by a fill, one
    by the report itself. *)
Lemma trade_id_names_the_lane_witness :
  remove_hyphens (Position.market long_open)
  = remove_hyphens (Position.market long_grown)
  /\ Position.side long_open = Position.side long_grown
  /\ or_else (Some "100"%string) (Position.createdAtHeight long_open)
     = or_else None (Position.createdAtHeight long_grown).
Proof.
  apply (trade_id_names_the_lane 7 8 long_open long_grown "dydx1abc"
           "dydx1abc" (Some "100"%string) None None None update open [] []);
    reflexivity.
Defined.

(** ** The session *)

Lemma before_slash_append (address rest : string) :
  before_slash (address ++ String "/" rest) = before_slash address.
Proof.
  induction address as [|c address IH]; [reflexivity|].
  rewrite append_cons. cbn [before_slash]. rewrite IH. reflexivity.
Qed.

Lemma before_slash_id (address : string) :
  slash_free address = true -> before_slash address = address.
Proof.
  induction address as [|c address IH]; [reflexivity|].
  cbn [slash_free before_slash].
  destruct (Ascii.eqb c "/"); [discriminate|]. cbn [negb andb].
  intros H. rewrite (IH H). reflexivity.
Qed.

(** The account that the message worker reads off a frame is the address
    the session subscribed with: the 'open' handler subscribes to
    [address/0], the worker keeps what stands before the first slash of the
    echoed [id], and for an address without a slash that is the address.  A
    snapshot that echoes the subscription is therefore filed under that
    address, and every row it emits carries it. *)
Theorem account_is_the_subscribed_address :
  (forall channel address,
      before_slash (Subscribe.id (on_open channel address))
      = before_slash address)
  /\ (forall channel address,
         slash_free address = true ->
         before_slash (Subscribe.id (on_open channel address)) = address)
  /\ (forall cachedPairs user s address positions,
         slash_free address = true ->
         let result :=
           messageQueue_worker cachedPairs user s
             (Some (snapshot_for address positions)) in
         engine (fst result)
         = processSubscriptions cachedPairs user (engine s) (Some address)
             positions
         /\ socket_closed (fst result) = socket_closed s
         /\ reconnects (fst result) = reconnects s).
Proof.
  split; [|split].
  - intros channel address. apply before_slash_append.
  - intros channel address Hfree. cbn [on_open Subscribe.id].
    rewrite before_slash_append. apply before_slash_id, Hfree.
  - intros cachedPairs user s address positions Hfree result. subst result.
    unfold messageQueue_worker, snapshot_for.
    cbn [Message.id Message.account Message.type
         Message.openPerpetualPositions fmap option_fmap option_map
         on_open Subscribe.id].
    rewrite before_slash_append, (before_slash_id address Hfree).
    change (String.eqb SUBSCRIPTION_TYPE SUBSCRIPTION_TYPE) with true.
    cbv iota. repeat split.
Qed.

(** The theorem at the address dydx1abc. *)
Lemma account_is_the_subscribed_address_witness :
  before_slash (Subscribe.id (on_open "v4_subaccounts" "dydx1abc"))
  = "dydx1abc"%string.
Proof.
  apply (proj1 (proj2 account_is_the_subscribed_address)). reflexivity.
Defined.

Section SessionRun.

Variable cachedPairs : gset string.
Variable user : Z.

Lemma websocket_close_flag (s : Session) :
  shouldReconnect (websocket_close s) = shouldReconnect s.
Proof.
  unfold websocket_close, on_close.
  destruct (socket_closed s); [reflexivity|]. cbn [shouldReconnect].
  destruct (shouldReconnect s); reflexivity.
Qed.

Lemma websocket_close_reconnects (s : Session) :
  reconnects (websocket_close s) = reconnects s
  \/ reconnects (websocket_close s) = reconnects s ++ [RECONNECT_INTERVAL].
Proof.
  unfold websocket_close, on_close.
  destruct (socket_closed s); [left; reflexivity|]. cbn [shouldReconnect].
  destruct (shouldReconnect s); [right|left]; reflexivity.
Qed.

(** The test on the [account] property of a message. *)
Lemma messageQueue_worker_cases (s : Session) (parsedMessage : Message.t) :
  messageQueue_worker cachedPairs user s (Some parsedMessage)
  = (websocket_close s, false)
  \/ messageQueue_worker cachedPairs user s (Some parsedMessage)
     = (with_engine s
          (processSubscriptions cachedPairs user (engine s)
             (before_slash <$> Message.id parsedMessage)
             (Message.openPerpetualPositions parsedMessage)), true)
  \/ messageQueue_worker cachedPairs user s (Some parsedMessage)
     = (with_engine s
          (updatePosition cachedPairs user (engine s)
             (before_slash <$> Message.id parsedMessage)
             (Message.perpetualPositions parsedMessage)
             (Message.fills parsedMessage)), true)
  \/ messageQueue_worker cachedPairs user s (Some parsedMessage) = (s, true).
Proof.
  unfold messageQueue_worker.
  destruct (String.eqb (Message.type parsedMessage) SUBSCRIPTION_TYPE);
    [|destruct (String.eqb (Message.type parsedMessage) DATA_TYPE)];
    destruct (Message.account parsedMessage) as [| |account]; auto;
    repeat match goal with
           | |- context [match ?x with _ => _ end] => is_var x; destruct x
           end; auto.
Qed.

Lemma messageQueue_worker_flag (s : Session) (task : option Message.t) :
  shouldReconnect (fst (messageQueue_worker cachedPairs user s task))
  = shouldReconnect s.
Proof.
  destruct task as [parsedMessage|]; [|reflexivity].
  destruct (messageQueue_worker_cases s parsedMessage)
    as [->|[->|[->| ->]]]; try reflexivity.
  apply websocket_close_flag.
Qed.

Lemma messageQueue_worker_reconnects (s : Session)
  (task : option Message.t) :
  let s' := fst (messageQueue_worker cachedPairs user s task) in
  reconnects s' = reconnects s
  \/ reconnects s' = reconnects s ++ [RECONNECT_INTERVAL].
Proof.
  destruct task as [parsedMessage|]; [|right; reflexivity].
  cbv zeta.
  destruct (messageQueue_worker_cases s parsedMessage)
    as [->|[->|[->| ->]]]; try (left; reflexivity).
  apply websocket_close_reconnects.
Qed.

(** One event: the flag goes down on [closeConnection] and is otherwise
    left alone, and at most one reconnect is scheduled. *)
Lemma session_step_spec (s : Session) (event : SessionEvent) :
  let s' := session_step cachedPairs user s event in
  shouldReconnect s'
  = shouldReconnect s && negb (is_CloseConnection event)
  /\ (reconnects s' = reconnects s
      \/ reconnects s' = reconnects s ++ [RECONNECT_INTERVAL]).
Proof.
  destruct event as [| | |task|]; cbv zeta;
    cbn [session_step is_CloseConnection negb]; rewrite ?andb_true_r,
      ?andb_false_r.
  - split; [apply websocket_close_flag | apply websocket_close_reconnects].
  - split; [reflexivity | right; reflexivity].
  - split; [apply websocket_close_flag | apply websocket_close_reconnects].
  - split; [apply messageQueue_worker_flag
           | apply messageQueue_worker_reconnects].
  - unfold closeConnection. rewrite websocket_close_flag.
    split; [reflexivity|]. left.
    unfold websocket_close, on_close. cbn [socket_closed shouldReconnect].
    destruct (socket_closed s); reflexivity.
Qed.

Lemma session_fold_spec (events : list SessionEvent) :
  forall s : Session,
    let s' := fold_left (session_step cachedPairs user) events s in
    shouldReconnect s'
    = shouldReconnect s && negb (existsb is_CloseConnection events)
    /\ exists scheduled,
         reconnects s' = reconnects s ++ scheduled
         /\ Forall (fun delay => delay = RECONNECT_INTERVAL) scheduled
         /\ (length scheduled <= length events)%nat.
Proof.
  induction events as [|event events IH]; intros s; cbn [fold_left existsb].
  - rewrite andb_true_r. split; [reflexivity|].
    exists []. rewrite app_nil_r. repeat constructor.
  - destruct (session_step_spec s event) as [Hflag Hstep].
    destruct (IH (session_step cachedPairs user s event))
      as (Hflag' & scheduled & Hrec & Hall & Hlen).
    cbv zeta in *. split.
    + rewrite Hflag', Hflag, negb_orb, andb_assoc. reflexivity.
    + destruct Hstep as [Hstep|Hstep]; rewrite Hrec, Hstep.
      * exists scheduled. split; [reflexivity|]. split; [exact Hall|].
        cbn [length]. lia.
      * exists (RECONNECT_INTERVAL :: scheduled).
        rewrite <- app_assoc. split; [reflexivity|].
        split; [constructor; [reflexivity | exact Hall]|].
        cbn [length]. lia.
Qed.

End SessionRun.

(** How a session reconnects.  Whatever happens to it, every reconnect it
    schedules is set [RECONNECT_INTERVAL] = 1000 ms ahead (the delay does
    not grow with the number of attempts), one event schedules at most one
    reconnect, and the flag that allows reconnecting is up exactly as long
    as [closeConnection] was not called: nothing raises it again. *)
Theorem reconnect_policy :
  forall cachedPairs user events,
    let s := session_run cachedPairs user events in
    Forall (fun delay => delay = 1000) (reconnects s)
    /\ (length (reconnects s) <= length events)%nat
    /\ shouldReconnect s = negb (existsb is_CloseConnection events).
Proof.
  intros cachedPairs user events s. subst s. unfold session_run.
  destruct (session_fold_spec cachedPairs user events
              initWebSocketTraderMemory)
    as (Hflag & scheduled & Hrec & Hall & Hlen).
  cbv zeta in *. cbn [reconnects shouldReconnect initWebSocketTraderMemory
                      app andb] in *.
  rewrite Hrec, Hflag. repeat split; assumption.
Qed.

(** A socket that reports an error and then closes, as a connection that
    fails does, makes a live session schedule two reconnects: the 'error'
    handler schedules one without waiting for the close, and the 'close'
    handler another. *)
Theorem error_then_close_reconnects_twice :
  forall s : Session,
    shouldReconnect s = true ->
    socket_closed s = false ->
    reconnects (websocket_close (on_error s))
    = reconnects s ++ [RECONNECT_INTERVAL; RECONNECT_INTERVAL].
Proof.
  intros s Hflag Hopen.
  unfold websocket_close, on_error, on_close, schedule_connect.
  cbn [socket_closed shouldReconnect reconnects]. rewrite Hopen, Hflag.
  cbn [reconnects]. rewrite <- app_assoc. reflexivity.
Qed.

(** The theorem at a session that has just connected. *)
Lemma error_then_close_reconnects_twice_witness :
  reconnects (websocket_close (on_error initWebSocketTraderMemory))
  = [1000; 1000].
Proof.
  apply (error_then_close_reconnects_twice initWebSocketTraderMemory);
    reflexivity.
Defined.

(** ** The sessions of the active traders *)

Lemma closeConnection_idempotent (s : Session) :
  closeConnection (closeConnection s) = closeConnection s.
Proof.
  unfold closeConnection, websocket_close, on_close.
  cbn [socket_closed shouldReconnect reconnects engine].
  destruct (socket_closed s); reflexivity.
Qed.

Lemma close_socket_idempotent (socket : Socket) :
  close_socket (close_socket socket) = close_socket socket.
Proof.
  unfold close_socket. cbn [address_ user_ session].
  rewrite closeConnection_idempotent. reflexivity.
Qed.

Section Refresh.

Variable newTraders : gset string.

Lemma close_fold_length (entries : list (string * nat)) :
  forall heap : list Socket,
    length
      (fold_left
         (fun heap (entry : string * nat) =>
            if decide (entry.1 ∈ newTraders) then heap
            else alter close_socket entry.2 heap)
         entries heap)
    = length heap.
Proof.
  induction entries as [|entry entries IH]; intros heap; cbn [fold_left];
    [reflexivity|].
  rewrite IH. destruct (decide (entry.1 ∈ newTraders)); [reflexivity|].
  apply length_alter.
Qed.

Lemma close_fold_lookup (entries : list (string * nat)) (handle : nat) :
  forall heap : list Socket,
    fold_left
      (fun heap (entry : string * nat) =>
         if decide (entry.1 ∈ newTraders) then heap
         else alter close_socket entry.2 heap)
      entries heap !! handle
    = if decide (Exists (stale_at newTraders handle) entries)
      then close_socket <$> heap !! handle
      else heap !! handle.
Proof.
  induction entries as [|entry entries IH]; intros heap; cbn [fold_left].
  - destruct (decide (Exists (stale_at newTraders handle) [])) as [H|_]; [|reflexivity].
    apply Exists_nil in H. contradiction.
  - rewrite IH.
    destruct (decide (entry.1 ∈ newTraders)) as [Hactive|Hstale].
    + destruct (decide (Exists (stale_at newTraders handle) entries)) as [H|H];
        destruct (decide (Exists (stale_at newTraders handle) (entry :: entries)))
          as [H'|H']; try reflexivity.
      * exfalso. apply H'. apply Exists_cons_tl, H.
      * exfalso. apply Exists_cons in H' as [[_ Hn]|H']; contradiction.
    + destruct (decide (entry.2 = handle)) as [Hh|Hh].
      * assert (Hhit : Exists (stale_at newTraders handle) (entry :: entries))
          by (apply Exists_cons_hd; split; assumption).
        destruct (decide (Exists (stale_at newTraders handle) (entry :: entries)));
          [|contradiction].
        rewrite Hh, list_lookup_alter_eq.
        destruct (decide (Exists (stale_at newTraders handle) entries)); [|reflexivity].
        destruct (heap !! handle) as [socket|]; [|reflexivity].
        cbn. rewrite close_socket_idempotent. reflexivity.
      * rewrite list_lookup_alter_ne by assumption.
        destruct (decide (Exists (stale_at newTraders handle) entries)) as [H|H];
          destruct (decide (Exists (stale_at newTraders handle) (entry :: entries)))
            as [H'|H']; try reflexivity.
        -- exfalso. apply H'. apply Exists_cons_tl, H.
        -- exfalso. apply Exists_cons in H' as [[Heq _]|H']; contradiction.
Qed.

Lemma delete_fold_lookup (entries : list (string * nat))
  (address : string) :
  forall remaining : gmap string nat,
    fold_left
      (fun remaining (entry : string * nat) =>
         if decide (entry.1 ∈ newTraders) then remaining
         else delete entry.1 remaining)
      entries remaining !! address
    = if decide ((address ∉ newTraders) /\ address ∈ (entries.*1))
      then None
      else remaining !! address.
Proof.
  induction entries as [|entry entries IH]; intros remaining;
    cbn [fold_left fmap list_fmap].
  - destruct (decide _) as [[_ H]|_]; [|reflexivity].
    apply elem_of_nil in H. contradiction.
  - rewrite IH.
    destruct (decide ((address ∉ newTraders) /\ address ∈ (entries.*1)))
      as [[Hstale Hin]|Hrest].
    + destruct (decide _) as [_|H]; [reflexivity|].
      exfalso. apply H. split; [assumption|]. apply elem_of_cons. auto.
    + destruct (decide (entry.1 ∈ newTraders)) as [Hactive|Hstale].
      * destruct (decide _) as [[Hstale Hin]|_]; [|reflexivity].
        exfalso. apply elem_of_cons in Hin as [->|Hin]; [contradiction|].
        apply Hrest. split; assumption.
      * destruct (decide (address = entry.1)) as [->|Hne].
        -- rewrite lookup_delete_eq.
           destruct (decide _) as [_|H]; [reflexivity|].
           exfalso. apply H. split; [assumption|]. apply elem_of_cons. auto.
        -- rewrite lookup_delete_ne by congruence.
           destruct (decide _) as [[Hs Hin]|_]; [|reflexivity].
           exfalso. apply elem_of_cons in Hin as [->|Hin]; [contradiction|].
           apply Hrest. split; assumption.
Qed.

Lemma delete_stale_lookup (subscriptions : gmap string nat)
  (address : string) :
  delete_stale newTraders subscriptions !! address
  = if decide (address ∈ newTraders) then subscriptions !! address
    else None.
Proof.
  unfold delete_stale. rewrite delete_fold_lookup.
  destruct (decide (address ∈ newTraders)) as [Hactive|Hstale].
  - destruct (decide _) as [[H _]|_]; [contradiction | reflexivity].
  - destruct (decide _) as [_|H]; [reflexivity|].
    destruct (subscriptions !! address) as [handle|] eqn:Hlookup;
      [|reflexivity].
    exfalso. apply H. split; [assumption|].
    apply list_elem_of_fmap. exists (address, handle).
    split; [reflexivity|]. apply elem_of_map_to_list, Hlookup.
Qed.

Lemma close_stale_length (subscriptions : gmap string nat)
  (heap : list Socket) :
  length (close_stale newTraders subscriptions heap) = length heap.
Proof. apply close_fold_length. Qed.


Lemma close_stale_kept (subscriptions : gmap string nat)
  (heap : list Socket) (handle : nat) :
  (forall address,
      subscriptions !! address = Some handle -> address ∈ newTraders) ->
  close_stale newTraders subscriptions heap !! handle = heap !! handle.
Proof.
  intros Hactive. unfold close_stale. rewrite close_fold_lookup.
  destruct (decide _) as [H|_]; [|reflexivity].
  exfalso. apply Exists_exists in H as ([address h] & Hin & Hh & Hstale).
  cbn in Hh, Hstale. subst h. apply Hstale, Hactive.
  apply elem_of_map_to_list, Hin.
Qed.

End Refresh.

Section Opening.

Variable subscriptions : gmap string nat.

(** The traders for whom [connectToTraders] opens a session. *)
Lemma open_fold_spec (traders : list Trader.t) :
  forall (heap : list Socket) (pending : list (string * nat)),
    fold_left
      (fun (state : list Socket * list (string * nat)) trader =>
         match subscriptions !! Trader.address trader with
         | Some _ => state
         | None =>
             (state.1 ++ [open_socket trader],
              state.2 ++ [(Trader.address trader, length state.1)])
         end)
      traders (heap, pending)
    = (heap ++ (open_socket <$> unsubscribed subscriptions traders),
       pending
       ++ imap (fun i trader => (Trader.address trader, (length heap + i)%nat))
            (unsubscribed subscriptions traders)).
Proof.
  unfold unsubscribed.
  induction traders as [|trader traders IH]; intros heap pending;
    cbn [fold_left].
  - cbn. rewrite !app_nil_r. reflexivity.
  - destruct (subscriptions !! Trader.address trader) as [handle|] eqn:Hsub.
    + rewrite IH, filter_cons_False by (rewrite Hsub; discriminate).
      reflexivity.
    + rewrite IH, filter_cons_True by exact Hsub.
      cbn [fst snd fmap list_fmap]. rewrite imap_cons, <- !app_assoc.
      cbn [app]. rewrite Nat.add_0_r. do 3 f_equal.
      apply imap_ext. intros i t _. cbn. rewrite length_app. cbn [length].
      f_equal. lia.
Qed.

Lemma open_new_spec (traders : list Trader.t) (heap : list Socket) :
  open_new subscriptions traders heap
  = (heap ++ (open_socket <$> unsubscribed subscriptions traders),
     imap (fun i trader => (Trader.address trader, (length heap + i)%nat))
       (unsubscribed subscriptions traders)).
Proof. unfold open_new. rewrite open_fold_spec. reflexivity. Qed.

End Opening.

Lemma set_pending_other (pending : list (string * nat)) (address : string) :
  forall subscriptions : gmap string nat,
    address ∉ (pending.*1) ->
    set_pending pending subscriptions !! address = subscriptions !! address.
Proof.
  unfold set_pending.
  induction pending as [|entry pending IH]; intros subscriptions Hnot;
    cbn [fold_left]; [reflexivity|].
  cbn [fmap list_fmap] in Hnot. apply not_elem_of_cons in Hnot as [Hne Hnot].
  rewrite IH by assumption. apply lookup_insert_ne. congruence.
Qed.

Lemma set_pending_filed (pending : list (string * nat)) (address : string) :
  forall subscriptions : gmap string nat,
    address ∈ (pending.*1) ->
    exists handle,
      set_pending pending subscriptions !! address = Some handle
      /\ (address, handle) ∈ pending.
Proof.
  induction pending as [|entry pending IH]; intros subscriptions Hin;
    [apply elem_of_nil in Hin; contradiction|].
  destruct (decide (address ∈ (pending.*1))) as [Hlater|Hnot].
  - destruct (IH (<[entry.1 := entry.2]> subscriptions) Hlater)
      as (handle & Hlookup & Hentry).
    exists handle. split; [exact Hlookup|]. apply elem_of_cons. auto.
  - cbn [fmap list_fmap] in Hin. apply elem_of_cons in Hin as [->|Hin];
      [|contradiction].
    exists entry.2. split.
    + change (set_pending (entry :: pending) subscriptions)
        with (set_pending pending (<[entry.1 := entry.2]> subscriptions)).
      rewrite set_pending_other by assumption. apply lookup_insert_eq.
    + apply elem_of_cons. left. destruct entry; reflexivity.
Qed.

Lemma set_pending_unique (pending : list (string * nat)) (address : string)
  (handle : nat) (subscriptions : gmap string nat) :
  NoDup (pending.*1) ->
  (address, handle) ∈ pending ->
  set_pending pending subscriptions !! address = Some handle.
Proof.
  intros Hnodup Hin.
  destruct (set_pending_filed pending address subscriptions)
    as (handle' & Hlookup & Hin').
  { apply list_elem_of_fmap. exists (address, handle). auto. }
  rewrite Hlookup. f_equal.
  apply list_elem_of_lookup_1 in Hin as [i Hi].
  apply list_elem_of_lookup_1 in Hin' as [j Hj].
  assert (Hij : i = j).
  { eapply NoDup_lookup; [exact Hnodup| |];
      rewrite list_lookup_fmap; [rewrite Hi | rewrite Hj]; reflexivity. }
  subst j. congruence.
Qed.

Section ConnectToTraders.

Variable r : Registry.
Variable traders : list Trader.t.

Lemma refresh_sockets :
  sockets (refreshed r traders)
  = close_stale (active_addresses traders) (socketSubscriptions r)
      (sockets r)
    ++ (open_socket <$> unsubscribed (socketSubscriptions r) traders).
Proof.
  unfold refreshed, connectToTraders. cbn [fst sockets].
  rewrite open_new_spec. reflexivity.
Qed.

Lemma refresh_subscriptions :
  socketSubscriptions (refreshed r traders)
  = set_pending (filed r traders)
      (delete_stale (active_addresses traders) (socketSubscriptions r)).
Proof.
  unfold refreshed, connectToTraders. cbn [fst socketSubscriptions].
  rewrite open_new_spec. cbn [snd]. rewrite close_stale_length.
  reflexivity.
Qed.

Lemma filed_addresses :
  (filed r traders).*1
  = Trader.address <$> unsubscribed (socketSubscriptions r) traders.
Proof.
  unfold filed. rewrite fmap_imap.
  rewrite <- (imap_const Trader.address) at 1. reflexivity.
Qed.

Lemma elem_of_filed_addresses (address : string) :
  address ∈ ((filed r traders).*1)
  <-> address ∈ active_addresses traders
      /\ socketSubscriptions r !! address = None.
Proof.
  rewrite filed_addresses. unfold unsubscribed, active_addresses.
  rewrite elem_of_list_to_set, !list_elem_of_fmap. split.
  - intros (trader & -> & Hin). apply list_elem_of_filter in Hin as [H Hin].
    split; [|exact H]. exists trader. auto.
  - intros [(trader & -> & Hin) Hnone]. exists trader.
    split; [reflexivity|]. apply list_elem_of_filter. auto.
Qed.

(** A handle filed at this refresh leads to a session just opened for the
    address. *)
Lemma filed_socket (address : string) (handle : nat) :
  (address, handle) ∈ filed r traders ->
  (length (sockets r) <= handle)%nat
  /\ exists trader,
       trader ∈ traders
       /\ Trader.address trader = address
       /\ sockets (refreshed r traders) !! handle
          = Some (open_socket trader).
Proof.
  unfold filed. intros Hin.
  apply elem_of_lookup_imap in Hin as (i & trader & [= -> ->] & Hi).
  split; [lia|]. exists trader.
  split; [|split; [reflexivity|]].
  - apply list_elem_of_lookup_2 in Hi.
    apply list_elem_of_filter in Hi as [_ Hi]. exact Hi.
  - rewrite refresh_sockets, lookup_app_r
      by (rewrite close_stale_length; lia).
    rewrite close_stale_length, list_lookup_fmap.
    replace (length (sockets r) + i - length (sockets r))%nat with i by lia.
    rewrite Hi. reflexivity.
Qed.

Lemma refresh_lookup_old (handle : nat) :
  (handle < length (sockets r))%nat ->
  sockets (refreshed r traders) !! handle
  = close_stale (active_addresses traders) (socketSubscriptions r)
      (sockets r) !! handle.
Proof.
  intros Hlt. rewrite refresh_sockets.
  apply lookup_app_l. rewrite close_stale_length. exact Hlt.
Qed.

End ConnectToTraders.

(** After a refresh the map holds a session for exactly the addresses of
    the active traders; a failed query of the traders changes nothing and
    is rethrown. *)
Theorem refresh_subscribes_the_active_traders :
  (forall r traders address,
      is_Some (socketSubscriptions (refreshed r traders) !! address)
      <-> address ∈ (Trader.address <$> traders))
  /\ (forall r traders, (connectToTraders (inr traders) r).2 = None)
  /\ (forall r error, connectToTraders (inl error) r = (r, Some error)).
Proof.
  split; [|split; reflexivity].
  intros r traders address.
  rewrite refresh_subscriptions.
  rewrite <- (elem_of_list_to_set (C := gset string)).
  fold (active_addresses traders).
  destruct (decide (address ∈ ((filed r traders).*1))) as [Hnew|Hold].
  - destruct (set_pending_filed _ address
                (delete_stale (active_addresses traders)
                   (socketSubscriptions r)) Hnew) as (handle & -> & _).
    apply elem_of_filed_addresses in Hnew as [Hactive _].
    split; [intros _; exact Hactive | intros _; eexists; reflexivity].
  - rewrite set_pending_other by exact Hold.
    rewrite delete_stale_lookup.
    destruct (decide (address ∈ active_addresses traders))
      as [Hactive|Hstale].
    + split; [intros _; exact Hactive|]. intros _.
      destruct (socketSubscriptions r !! address) as [handle|] eqn:Hsub;
        [eexists; reflexivity|].
      exfalso. apply Hold. apply elem_of_filed_addresses. auto.
    + split; [intros [? H]; discriminate H | contradiction].
Qed.

(** A trader who stays active keeps the session they have: the map leads
    to the same handle, and the session behind it is neither closed nor
    opened again. *)
Theorem refresh_keeps_running_sessions :
  forall r traders address handle,
    registry_wf r ->
    socketSubscriptions r !! address = Some handle ->
    address ∈ (Trader.address <$> traders) ->
    socketSubscriptions (refreshed r traders) !! address = Some handle
    /\ sockets (refreshed r traders) !! handle = sockets r !! handle.
Proof.
  intros r traders address handle Hwf Hsub Hin.
  apply (elem_of_list_to_set (C := gset string)) in Hin.
  fold (active_addresses traders) in Hin.
  destruct (Hwf address handle Hsub) as (socket & Hsocket & Haddress).
  split.
  - rewrite refresh_subscriptions, set_pending_other.
    + rewrite delete_stale_lookup.
      destruct (decide (address ∈ active_addresses traders));
        [exact Hsub | contradiction].
    + intros Hnew. apply elem_of_filed_addresses in Hnew as [_ Hnone].
      congruence.
  - rewrite refresh_lookup_old by (eapply lookup_lt_Some, Hsocket).
    apply close_stale_kept. intros other Hother.
    destruct (Hwf other handle Hother) as (socket' & Hsocket' & Haddress').
    assert (Hsame : other = address) by congruence.
    rewrite Hsame. exact Hin.
Qed.


(** ** The registry over time *)

Lemma refreshed_wf (r : Registry) (traders : list Trader.t) :
  registry_wf r -> registry_wf (refreshed r traders).
Proof.
  intros Hwf address handle. rewrite refresh_subscriptions.
  destruct (decide (address ∈ ((filed r traders).*1))) as [Hnew|Hold].
  - destruct (set_pending_filed _ address
                (delete_stale (active_addresses traders)
                   (socketSubscriptions r)) Hnew) as (h & -> & Hfiled).
    intros [= <-].
    destruct (filed_socket r traders address h Hfiled)
      as (_ & trader & _ & Haddress & Hsocket).
    exists (open_socket trader). split; [exact Hsocket | exact Haddress].
  - rewrite set_pending_other by exact Hold.
    rewrite delete_stale_lookup.
    destruct (decide (address ∈ active_addresses traders)); [|discriminate].
    intros Hsub.
    destruct (Hwf address handle Hsub) as (socket & Hsocket & Haddress).
    rewrite refresh_lookup_old by (eapply lookup_lt_Some, Hsocket).
    unfold close_stale. rewrite close_fold_lookup, Hsocket.
    destruct (decide _); eexists; (split; [reflexivity | exact Haddress]).
Qed.

Lemma refreshed_live (r : Registry) (traders : list Trader.t) :
  NoDup (Trader.address <$> traders) ->
  registry_wf r ->
  live_iff_subscribed r ->
  live_iff_subscribed (refreshed r traders).
Proof.
  intros Hnodup Hwf Hlive handle socket' Hsocket'.
  destruct (decide (handle < length (sockets r))%nat) as [Hold|Hnew].
  - rewrite refresh_lookup_old in Hsocket' by exact Hold.
    destruct (lookup_lt_is_Some_2 _ _ Hold) as [socket Hsocket].
    specialize (Hlive handle socket Hsocket).
    revert Hsocket'. unfold close_stale.
    rewrite close_fold_lookup, Hsocket.
    destruct (decide _) as [Hstale|Hkept]; intros [= <-].
    + apply Exists_exists in Hstale as ([address h] & Hin & Hh & Hstale).
      cbn in Hh, Hstale. subst h. apply elem_of_map_to_list in Hin.
      destruct (Hwf address handle Hin) as (socket0 & Hsocket0 & Haddress).
      assert (socket0 = socket) by congruence. subst socket0.
      cbn [close_socket address_ session]. rewrite Haddress.
      rewrite refresh_subscriptions, set_pending_other.
      * rewrite delete_stale_lookup.
        destruct (decide (address ∈ active_addresses traders));
          [contradiction|].
        unfold closeConnection. rewrite websocket_close_flag.
        cbn [shouldReconnect]. split; discriminate.
      * intros Hfiled. apply elem_of_filed_addresses in Hfiled as [? _].
        contradiction.
    + rewrite Hlive, refresh_subscriptions.
      destruct (decide (address_ socket ∈ ((filed r traders).*1)))
        as [Hfiled|Hnot].
      * destruct (set_pending_filed _ (address_ socket)
                    (delete_stale (active_addresses traders)
                       (socketSubscriptions r)) Hfiled)
          as (h & -> & Hentry).
        apply elem_of_filed_addresses in Hfiled as [_ Hnone].
        destruct (filed_socket r traders _ h Hentry) as (Hge & _).
        rewrite Hnone. split; [discriminate|]. intros [= ->]. lia.
      * rewrite set_pending_other by exact Hnot.
        rewrite delete_stale_lookup.
        destruct (decide (address_ socket ∈ active_addresses traders))
          as [Hactive|Hout]; [reflexivity|].
        split; [|discriminate]. intros Hsub. exfalso. apply Hkept.
        apply Exists_exists. exists (address_ socket, handle).
        split; [apply elem_of_map_to_list, Hsub|]. split; [reflexivity|].
        exact Hout.
  - pose proof Hsocket' as Hin. rewrite refresh_sockets in Hin.
    rewrite lookup_app_r in Hin by (rewrite close_stale_length; lia).
    rewrite close_stale_length, list_lookup_fmap in Hin.
    destruct (unsubscribed (socketSubscriptions r) traders
                !! (handle - length (sockets r))%nat) as [trader|] eqn:Hi;
      [|discriminate].
    injection Hin as <-. cbn [open_socket session address_
      initWebSocketTraderMemory shouldReconnect].
    split; [intros _|reflexivity].
    rewrite refresh_subscriptions. apply set_pending_unique.
    + rewrite filed_addresses. unfold unsubscribed.
      assert (Hsub :
        (Trader.address
           <$> filter
                 (fun trader =>
                    socketSubscriptions r !! Trader.address trader = None)
                 traders)
        `sublist_of` (Trader.address <$> traders))
        by (apply fmap_sublist, sublist_filter).
      exact (sublist_NoDup _ _ Hnodup Hsub).
    + unfold filed.
      replace handle
        with (length (sockets r) + (handle - length (sockets r)))%nat
        at 1 by lia.
      apply (elem_of_lookup_imap_2
               (fun i trader =>
                  (Trader.address trader, (length (sockets r) + i)%nat))).
      exact Hi.
Qed.

Lemma no_subscriptions_wf : registry_wf no_subscriptions.
Proof.
  intros address handle H. cbn in H. rewrite lookup_empty in H.
  discriminate.
Qed.

Lemma deliver_invariant (cachedPairs : gset string) (r : Registry)
  (handle : nat) (event : SessionEvent) :
  is_CloseConnection event = false ->
  registry_wf r /\ live_iff_subscribed r ->
  registry_wf (registry_step cachedPairs r (Deliver handle event))
  /\ live_iff_subscribed (registry_step cachedPairs r (Deliver handle event)).
Proof.
  intros Hevent [Hwf Hlive]. cbn [registry_step]. split.
  - intros address h Hsub. cbn [socketSubscriptions sockets] in *.
    destruct (Hwf address h Hsub) as (socket & Hsocket & Haddress).
    destruct (decide (handle = h)) as [->|Hne].
    + exists (deliver cachedPairs event socket).
      rewrite list_lookup_alter_eq, Hsocket. split; [reflexivity|].
      exact Haddress.
    + exists socket. rewrite list_lookup_alter_ne by assumption.
      split; assumption.
  - intros h socket'. cbn [socketSubscriptions sockets].
    destruct (decide (handle = h)) as [->|Hne].
    + rewrite list_lookup_alter_eq.
      destruct (sockets r !! h) as [socket|] eqn:Hsocket; [|discriminate].
      intros [= <-]. cbn [deliver session address_].
      destruct (session_step_spec cachedPairs (user_ socket)
                  (session socket) event) as [Hflag _].
      cbv zeta in Hflag. rewrite Hflag, Hevent, andb_true_r.
      apply Hlive, Hsocket.
    + rewrite list_lookup_alter_ne by assumption. apply Hlive.
Qed.

Lemma registry_run_invariant (cachedPairs : gset string)
  (steps : list RegistryStep) :
  forall r : Registry,
    Forall orderly steps ->
    registry_wf r /\ live_iff_subscribed r ->
    registry_wf (fold_left (registry_step cachedPairs) steps r)
    /\ live_iff_subscribed (fold_left (registry_step cachedPairs) steps r).
Proof.
  induction steps as [|step steps IH]; intros r Hsteps Hinv;
    cbn [fold_left]; [exact Hinv|].
  apply Forall_cons in Hsteps as [Hstep Hsteps].
  apply IH; [exact Hsteps|].
  destruct step as [[error|traders]|handle event].
  - exact Hinv.
  - destruct Hinv as [Hwf Hlive]. split.
    + apply refreshed_wf, Hwf.
    + apply refreshed_live; assumption.
  - apply deliver_invariant; assumption.
Qed.

(** No session is lost.  As long as the query of the traders lists no
    address twice, at any time every handle of the map leads to the session
    of its address, and the sessions whose flag is up (those that
    reconnect) are exactly the sessions that the map leads to: what a
    refresh drops is drained, and what still runs can be reached and
    closed.  An address listed twice breaks this: a session is opened for
    each row, the map keeps the second, and the first runs on with no
    handle left to close it. *)
Theorem no_session_is_lost :
  (forall cachedPairs steps,
      Forall orderly steps ->
      registry_wf (registry_run cachedPairs steps)
      /\ live_iff_subscribed (registry_run cachedPairs steps))
  /\ (let r := refreshed no_subscriptions [alice; carol] in
      sockets r = [open_socket alice; open_socket carol]
      /\ socketSubscriptions r !! "dydx1alice" = Some 1%nat
      /\ shouldReconnect (session (open_socket alice)) = true).
Proof.
  split.
  - intros cachedPairs steps Hsteps.
    apply registry_run_invariant; [exact Hsteps|]. split.
    + intros address handle H. cbn in H. rewrite lookup_empty in H.
      discriminate.
    + intros handle socket H. cbn in H. rewrite lookup_nil in H.
      discriminate.
  - cbv zeta. split; [vm_compute; reflexivity|].
    split; [vm_compute; reflexivity | reflexivity].
Qed.

(** The theorem at the sample steps. *)
Lemma no_session_is_lost_witness :
  registry_wf (registry_run {[ "BTCUSD" ]} sample_steps)
  /\ live_iff_subscribed (registry_run {[ "BTCUSD" ]} sample_steps).
Proof.
  apply (proj1 no_session_is_lost).
  repeat constructor; cbn; apply (bool_decide_unpack _); vm_compute;
    exact I.
Defined.

(** [refresh_keeps_running_sessions] at bob, who stays when alice goes. *)
Lemma refresh_keeps_running_sessions_witness :
  let r := refreshed no_subscriptions [alice; bob] in
  socketSubscriptions (refreshed r [bob]) !! "dydx1bob" = Some 1%nat
  /\ sockets (refreshed r [bob]) !! 1%nat = sockets r !! 1%nat.
Proof.
  apply (refresh_keeps_running_sessions
           (refreshed no_subscriptions [alice; bob]) [bob] "dydx1bob" 1).
  - apply refreshed_wf, no_subscriptions_wf.
  - vm_compute. reflexivity.
  - apply (bool_decide_unpack _). vm_compute. exact I.
Defined.


(** ** The cache of tracked pairs *)

Section Untracked.

Variable cachedPairs : gset string.
Variable user : Z.
Variable traderAddress : option string.
Variable symbol : string.
Hypothesis Huntracked : symbol ∉ cachedPairs.

Lemma untracked_symbol : isTrackedSymbol cachedPairs symbol = false.
Proof.
  unfold isTrackedSymbol. apply bool_decide_eq_false_2, Huntracked.
Qed.

Lemma subscribe_one_frozen (st : Engine) (entry : string * Position.t) :
  lanes (subscribe_one cachedPairs user traderAddress st entry) !! symbol
  = lanes st !! symbol.
Proof.
  unfold subscribe_one.
  destruct (decide (remove_hyphens (fst entry) = symbol)) as [->|Hne].
  - rewrite untracked_symbol. reflexivity.
  - destruct (isTrackedSymbol cachedPairs (remove_hyphens (fst entry)));
      cbn [negb]; [|reflexivity].
    destruct (lanes st !! remove_hyphens (fst entry)); [reflexivity|].
    cbn [createNewPosition lanes]. apply lookup_insert_ne. exact Hne.
Qed.

Lemma update_one_frozen (fills : list Fill.t) (st : Engine)
  (position : Position.t) :
  lanes (update_one cachedPairs user traderAddress fills st position)
    !! symbol
  = lanes st !! symbol.
Proof.
  destruct (decide (symbol = remove_hyphens (Position.market position)))
    as [Heq|Hne].
  - rewrite update_one_untracked; [reflexivity|].
    rewrite <- Heq. apply untracked_symbol.
  - apply update_one_other, Hne.
Qed.

Lemma apply_frame_frozen (frame : Frame) (st : Engine) :
  lanes (apply_frame cachedPairs user traderAddress st frame) !! symbol
  = lanes st !! symbol.
Proof.
  destruct frame as [[positions|]|[positions|] [fills|]];
    cbn [apply_frame processSubscriptions updatePosition]; try reflexivity.
  - revert st. induction positions as [|entry positions IH]; intros st;
      cbn [fold_left]; [reflexivity|].
    rewrite IH. apply subscribe_one_frozen.
  - revert st. induction positions as [|position positions IH]; intros st;
      cbn [fold_left]; [reflexivity|].
    rewrite IH. apply update_one_frozen.
Qed.

Lemma frames_frozen (frames : list Frame) :
  forall st : Engine,
    lanes (fold_left (apply_frame cachedPairs user traderAddress) frames st)
      !! symbol
    = lanes st !! symbol.
Proof.
  induction frames as [|frame frames IH]; intros st; cbn [fold_left];
    [reflexivity|].
  rewrite IH. apply apply_frame_frozen.
Qed.

End Untracked.

(** A refresh of the pairs replaces the cache as a whole: a symbol is
    tracked afterwards exactly if the query listed it, and a failed query
    leaves the cache as it was.  A lane whose instrument the refresh drops
    is frozen: no frame that follows updates it, closes it or removes it
    from the map. *)
Theorem dropped_pair_freezes_its_lane :
  (forall result cachedPairs symbol,
      isTrackedSymbol (fetchAndCachePairs (inr result) cachedPairs).1 symbol
      = true
      <-> symbol ∈ result)
  /\ (forall error cachedPairs,
         fetchAndCachePairs (inl error) cachedPairs
         = (cachedPairs, Some error))
  /\ (forall result cachedPairs user traderAddress frames st symbol,
         symbol ∉ result ->
         lanes
           (fold_left
              (apply_frame (fetchAndCachePairs (inr result) cachedPairs).1
                 user traderAddress)
              frames st) !! symbol
         = lanes st !! symbol).
Proof.
  split; [|split; [reflexivity|]].
  - intros result cachedPairs symbol. cbn [fetchAndCachePairs fst].
    unfold isTrackedSymbol. rewrite bool_decide_eq_true.
    apply elem_of_list_to_set.
  - intros result cachedPairs user traderAddress frames st symbol Hout.
    apply frames_frozen. cbn [fetchAndCachePairs fst].
    rewrite elem_of_list_to_set. exact Hout.
Qed.

(** The theorem at the long lane after the pairs were refreshed to ETHUSD
    alone: the report that would close the lane leaves it. *)
Lemma dropped_pair_freezes_its_lane_witness :
  lanes
    (fold_left
       (apply_frame (fetchAndCachePairs (inr ["ETHUSD"]) {[ "BTCUSD" ]}).1
          7 (Some "dydx1abc"))
       [Incremental (Some [long_closed]) (Some [sample_fill])]
       (one_lane long_lane)) !! "BTCUSD"
  = Some long_lane.
Proof.
  rewrite (proj2 (proj2 dropped_pair_freezes_its_lane) ["ETHUSD"]
             {[ "BTCUSD" ]} 7 (Some "dydx1abc")
             [Incremental (Some [long_closed]) (Some [sample_fill])]
             (one_lane long_lane) "BTCUSD").
  - vm_compute. reflexivity.
  - apply (bool_decide_unpack _). vm_compute. exact I.
Defined.

(** ** From the rows of a connection to the table *)

Section Persist.

Variable convertToSqlDate : string -> string.
Variable getSqlDate : string.




End Persist.





Section Tuples.

Variable convertToSqlDate : string -> string.
Variable getSqlDate : string.



End Tuples.




(** ** Values that do not reach the table *)







Lemma times_zero (x : Decimal.t) :
  Decimal.times Decimal.zero x = Decimal.NaN
  \/ Decimal.times Decimal.zero x = Decimal.zero.
Proof.
  destruct x as [| s | c e]; [left; reflexivity | left; reflexivity |].
  right. unfold Decimal.times, Decimal.zero.
  rewrite Z.mul_0_l. reflexivity.
Qed.

(** A flip with nothing to average.  When the lane has an exit price on
    record but nothing closed, and the report moves nothing over (its whole
    [sumOpen] is still open), the weighted average divides zero by zero:
    the exit price and the PnL of the closing row are NaN, its flag is 0,
    and the processor queue cannot convert it, so the close of the lane is
    never written. *)
Theorem flip_with_nothing_to_average_is_lost :
  forall (lane : TradeInterface.t) (position : Position.t)
    (end_date : string) (q : list TradeInterface.t) (exit_price : Decimal.t),
    TradeInterface.exit_price lane = Some exit_price ->
    Decimal.parse (TradeInterface.sum_close lane) = Decimal.zero ->
    last_position position = Decimal.zero ->
    let closing := fst (flipPosition lane position end_date q) in
    TradeInterface.exit_price closing = Some Decimal.NaN
    /\ TradeInterface.pnl closing = Decimal.NaN
    /\ TradeInterface.is_profitable closing = 0
    /\ forall (convertToSqlDate : string -> string) (getSqlDate : string)
         (TO_PROCESS : list (list SqlValue)),
         processorQueue_worker convertToSqlDate getSqlDate TO_PROCESS
           closing
         = TO_PROCESS.
Proof.
  intros lane position end_date q exit_price Hexit Hsum Hlast closing.
  assert (Havg : avg_close lane position = Decimal.NaN).
  { unfold avg_close. rewrite Hexit, Hsum, Hlast.
    change (Decimal.plus Decimal.zero Decimal.zero) with Decimal.zero.
    destruct (times_zero (Position.entryPrice position)) as [->| ->];
      destruct (times_zero exit_price) as [->| ->]; reflexivity. }
  assert (Hpnl : TradeInterface.pnl closing = Decimal.NaN).
  { subst closing. unfold flipPosition.
    cbn [fst TradeInterface.pnl]. rewrite Havg.
    destruct (adjusted_size lane position); reflexivity. }
  split; [|split; [exact Hpnl|split]].
  - subst closing. unfold flipPosition.
    cbn [fst TradeInterface.exit_price]. rewrite Havg. reflexivity.
  - subst closing. unfold flipPosition in *.
    cbn [fst TradeInterface.pnl TradeInterface.is_profitable] in *.
    rewrite Hpnl. reflexivity.
  - intros convertToSqlDate getSqlDate TO_PROCESS.
    destruct (processorQueue_worker_cases convertToSqlDate getSqlDate
                TO_PROCESS closing) as [[_ Hw]|[Hp _]]; [exact Hw|].
    exfalso. unfold printable in Hp. rewrite Hpnl in Hp.
    rewrite andb_false_r in Hp. discriminate Hp.
Qed.

(** The theorem at a long lane with an exit price of 0 and nothing closed,
    flipped by the report of a fresh short position. *)
Lemma flip_with_nothing_to_average_is_lost_witness :
  let closing :=
    fst (flipPosition lane_nothing_closed fresh_short
           "2024-04-01T00:00:00.000Z" []) in
  TradeInterface.exit_price closing = Some Decimal.NaN
  /\ TradeInterface.pnl closing = Decimal.NaN
  /\ TradeInterface.is_profitable closing = 0
  /\ processorQueue_worker (fun date => date) "2024-04-01 00:00:10" []
       closing
     = [].
Proof.
  destruct (flip_with_nothing_to_average_is_lost lane_nothing_closed
              fresh_short "2024-04-01T00:00:00.000Z" []
              (Decimal.Finite 0 0))
    as (Hexit & Hpnl & Hflag & Hdropped); try (vm_compute; reflexivity).
  exact (conj Hexit
           (conj Hpnl
              (conj Hflag
                 (Hdropped (fun date => date) "2024-04-01 00:00:10" [])))).
Defined.

(** ** Dates of the rows, ticks, and the watchdog *)

(** The rows of one frame are dated by its first fill: whatever fill did
    it, a lane that a frame opens starts at [fills[0].createdAt] (the
    report's own date if that is empty), and a lane that a frame closes or
    flips ends at [fills[0].createdAt]; an update row keeps the dates of
    its lane. *)
Theorem rows_are_dated_by_the_first_fill :
  forall cachedPairs user traderAddress fill fills st position row,
    let st' :=
      update_one cachedPairs user traderAddress (fill :: fills) st position in
    (exists rows, queue st' = queue st ++ rows /\ row ∈ rows) ->
    match TradeInterface.type row with
    | open =>
        TradeInterface.start_date row
        = or_else (Some (Fill.createdAt fill)) (Position.createdAt position)
        /\ TradeInterface.end_date row = None
    | close => TradeInterface.end_date row = Some (Fill.createdAt fill)
    | update =>
        exists lane,
          lanes st !! remove_hyphens (Position.market position) = Some lane
          /\ TradeInterface.start_date row = TradeInterface.start_date lane
          /\ TradeInterface.end_date row = TradeInterface.end_date lane
    end.
Proof.
  intros cachedPairs user traderAddress fill fills st position row st'.
  subst st'. unfold update_one.
  set (symbol := remove_hyphens (Position.market position)).
  assert (Hnone : forall rows : list TradeInterface.t,
             queue st = queue st ++ rows -> row ∈ rows -> False).
  { intros rows Hq Hin.
    rewrite <- (app_nil_r (queue st)) in Hq at 1.
    apply app_inv_head in Hq. subst rows.
    apply elem_of_nil in Hin. exact Hin. }
  destruct (isTrackedSymbol cachedPairs symbol); cbn [negb];
    [|intros (rows & Hq & Hin); exfalso; eapply Hnone; eassumption].
  destruct (lanes st !! symbol) as [lane|] eqn:Hlane; cbn [head].
  - destruct (String.eqb (Position.status position) OPEN_STATUS
              && (TradeInterface.bias lane
                  =? (if String.eqb (Position.side position) "LONG"
                      then 1 else 0))).
    { cbn [updateExistingPosition aggregatePositions queue].
      intros (rows & Hq & Hin). apply app_inv_head in Hq. subst rows.
      apply list_elem_of_singleton in Hin. subst row.
      cbn [TradeInterface.type]. exists lane. repeat split. }
    destruct (String.eqb (Position.status position) OPEN_STATUS
              && negb (TradeInterface.bias lane
                       =? (if String.eqb (Position.side position) "LONG"
                           then 1 else 0))).
    { unfold flipPosition, createNewPosition, aggregatePositions.
      cbn [queue]. rewrite <- app_assoc.
      intros (rows & Hq & Hin). apply app_inv_head in Hq. subst rows.
      cbn [app] in Hin.
      apply elem_of_cons in Hin as [->|Hin];
        [cbn [TradeInterface.type TradeInterface.end_date]; reflexivity|].
      apply list_elem_of_singleton in Hin. subst row.
      cbn [TradeInterface.type]. split; reflexivity. }
    destruct (String.eqb (Position.status position) CLOSED_STATUS);
      [|intros (rows & Hq & Hin); exfalso; eapply Hnone; eassumption].
    unfold closePosition.
    destruct (Position.exitPrice position) as [exitPrice|];
      [|intros (rows & Hq & Hin); exfalso; eapply Hnone; eassumption].
    cbn [aggregatePositions queue].
    intros (rows & Hq & Hin). apply app_inv_head in Hq. subst rows.
    apply list_elem_of_singleton in Hin. subst row.
    cbn [TradeInterface.type TradeInterface.end_date]. reflexivity.
  - unfold createNewPosition, aggregatePositions. cbn [queue].
    intros (rows & Hq & Hin). apply app_inv_head in Hq. subst rows.
    apply list_elem_of_singleton in Hin. subst row.
    cbn [TradeInterface.type]. split; reflexivity.
Qed.

(** The theorem at the close of the short lane: its end date is the date
    of the fill. *)
Lemma rows_are_dated_by_the_first_fill_witness :
  let rows :=
    queue (update_one {[ "BTCUSD" ]} 7 (Some "dydx1abc") [sample_fill]
             (one_lane short_lane) short_closed) in
  TradeInterface.end_date (List.hd short_lane rows)
  = Some (Fill.createdAt sample_fill).
Proof.
  cbv zeta.
  assert (Hemitted :
    exists rows,
      queue (update_one {[ "BTCUSD" ]} 7 (Some "dydx1abc") [sample_fill]
               (one_lane short_lane) short_closed)
      = queue (one_lane short_lane) ++ rows
      /\ List.hd short_lane
           (queue (update_one {[ "BTCUSD" ]} 7 (Some "dydx1abc")
                     [sample_fill] (one_lane short_lane) short_closed))
         ∈ rows).
  { eexists. split; [reflexivity|].
    apply (list_elem_of_lookup_2 _ 0%nat). vm_compute. reflexivity. }
  exact (rows_are_dated_by_the_first_fill {[ "BTCUSD" ]} 7
           (Some "dydx1abc") sample_fill [] (one_lane short_lane)
           short_closed _ Hemitted).
Defined.

(** Two ticks in a row write the batch once.  A tick that finds nothing
    pending runs no statement and publishes nothing, whatever the pool
    would answer; a tick leaves nothing pending; so a second tick changes
    nothing.  A tick that finds the flag [is_processing] up returns at
    once. *)
Theorem second_tick_writes_nothing :
  (forall faults p,
      is_processing p = false ->
      TO_PROCESS p = [] ->
      table (insertTrades faults p) = table p
      /\ published (insertTrades faults p) = published p)
  /\ (forall faults faults' p,
         is_processing p = false ->
         insertTrades faults' (insertTrades faults p) = insertTrades faults p)
  /\ (forall faults p, is_processing p = true -> insertTrades faults p = p).
Proof.
  split; [|split].
  - intros faults p Hidle Hempty. unfold insertTrades.
    rewrite Hidle, Hempty. cbn. rewrite app_nil_r. split; reflexivity.
  - intros faults faults' p Hidle.
    assert (Hdone : is_processing (insertTrades faults p) = false
                    /\ TO_PROCESS (insertTrades faults p) = []).
    { unfold insertTrades. rewrite Hidle.
      destruct (processPositions faults (table p) (TO_PROCESS p)).
      split; reflexivity. }
    destruct (insertTrades faults p) as [busy pending stored sent].
    cbn [is_processing TO_PROCESS] in Hdone. destruct Hdone as [-> ->].
    unfold insertTrades. cbn. rewrite app_nil_r. reflexivity.
  - intros faults p Hbusy. unfold insertTrades. rewrite Hbusy. reflexivity.
Qed.

(** The theorem at the pipeline that holds the update row of the long
    lane. *)
Lemma second_tick_writes_nothing_witness :
  insertTrades connection_lost persisted_update = persisted_update
  /\ insertTrades no_fault
       (insertTrades no_fault
          (enqueue (fun date => date) "2024-04-01 00:00:10" empty_pipeline
             emitted_update))
     = persisted_update.
Proof.
  split.
  - apply (proj1 (proj2 second_tick_writes_nothing) no_fault
             connection_lost
             (enqueue (fun date => date) "2024-04-01 00:00:10"
                empty_pipeline emitted_update)).
    reflexivity.
  - apply (proj1 (proj2 second_tick_writes_nothing) no_fault no_fault
             (enqueue (fun date => date) "2024-04-01 00:00:10"
                empty_pipeline emitted_update)).
    reflexivity.
Defined.

Lemma timer_run (events : list TimerEvent) :
  forall w : Watched,
    heartbeatTimer (fold_left timer_step events w)
    = last_reset events (heartbeatTimer w).
Proof.
  induction events as [|event events IH]; intros w;
    cbn [fold_left last_reset]; [reflexivity|].
  rewrite IH. destruct event; cbn [timer_step heartbeatTimer];
    try reflexivity.
  destruct (heartbeatTimer w) eqn:Harmed; cbn [heartbeatTimer];
    rewrite ?Harmed; reflexivity.
Qed.

(** One watchdog for all sessions.  The timer of [resetHeartbeatTimer] is
    a variable of the module: at any time it watches the one session whose
    'open' or 'ping' came last, and no session at all once it fired or any
    session was closed with [closeConnection].  When it fires it closes the
    socket of that one session and leaves every other session alone: a
    session that fell silent is not closed as long as another session was
    pinged after it, or another session was closed. *)
Theorem watchdog_is_shared :
  (forall events w,
      heartbeatTimer (fold_left timer_step events w)
      = last_reset events (heartbeatTimer w))
  /\ (forall events w handle,
         last_reset events (heartbeatTimer w) <> Some handle ->
         let before := fold_left timer_step events w in
         watched_sockets (timer_step before TimerFires) !! handle
         = watched_sockets before !! handle)
  /\ (forall w silent other,
         silent <> other ->
         watched_sockets
           (fold_left timer_step [Pinged silent; Pinged other; TimerFires] w)
           !! silent
         = watched_sockets w !! silent)
  /\ (forall w silent other,
         silent <> other ->
         watched_sockets
           (fold_left timer_step
              [Pinged silent; ConnectionClosed other; TimerFires] w)
           !! silent
         = watched_sockets w !! silent).
Proof.
  split; [exact timer_run|]. split; [|split].
  - intros events w handle Hnot before. subst before.
    rewrite <- timer_run in Hnot. cbn [timer_step].
    destruct (heartbeatTimer (fold_left timer_step events w)) as [armed|];
      [|reflexivity].
    cbn [watched_sockets]. apply list_lookup_alter_ne. congruence.
  - intros w silent other Hne. cbn [fold_left timer_step heartbeatTimer
      watched_sockets].
    apply list_lookup_alter_ne. congruence.
  - intros w silent other Hne. cbn [fold_left timer_step heartbeatTimer
      watched_sockets].
    apply list_lookup_alter_ne. congruence.
Qed.

(** The theorem at two sessions: alice fell silent, bob was pinged. *)
Lemma watchdog_is_shared_witness :
  let w :=
    {| watched_sockets := [open_socket alice; open_socket bob];
       heartbeatTimer := None |} in
  watched_sockets (fold_left timer_step [Pinged 0%nat; Pinged 1%nat; TimerFires] w)
    !! 0%nat
  = Some (open_socket alice).
Proof.
  apply (proj1 (proj2 (proj2 watchdog_is_shared))
           {| watched_sockets := [open_socket alice; open_socket bob];
              heartbeatTimer := None |} 0%nat 1%nat).
  discriminate.
Defined.

(** ** The dates of the table *)

Lemma digit_cases (n place : Z) :
  exists k : nat, (k < 10)%nat /\ JsDate.digit n place = ascii_of_nat (48 + k).
Proof.
  unfold JsDate.digit.
  exists (Z.to_nat ((n / 10 ^ place) mod 10)). split; [|reflexivity].
  pose proof (Z.mod_pos_bound (n / 10 ^ place) 10 ltac:(lia)). lia.
Qed.

Lemma digit_not_T (n place : Z) :
  Ascii.eqb (JsDate.digit n place) "T" = false.
Proof.
  destruct (digit_cases n place) as (k & Hk & ->).
  do 10 (destruct k as [|k]; [reflexivity|]). lia.
Qed.

Lemma civil_from_days_range (days : Z) :
  let '(year, month, day) := JsDate.civil_from_days days in
  1 <= month <= 12 /\ 1 <= day <= 31.
Proof.
  unfold JsDate.civil_from_days.
  set (doe := (days + 719468) mod 146097).
  assert (Hdoe : 0 <= doe < 146097) by (apply Z.mod_pos_bound; lia).
  set (yoe := (doe - doe / 1460 + doe / 36524 - doe / 146096) / 365).
  set (doy := doe - (365 * yoe + yoe / 4 - yoe / 100)).
  assert (Hdoy : 0 <= doy <= 365).
  { subst doy yoe. clearbody doe. Z.div_mod_to_equations. lia. }
  set (mp := (5 * doy + 2) / 153).
  assert (Hmp : 0 <= mp <= 11 /\ 1 <= doy - (153 * mp + 2) / 5 + 1 <= 31).
  { subst mp. clearbody doy. Z.div_mod_to_equations. lia. }
  cbv zeta. destruct (Z.ltb_spec mp 10); lia.
Qed.

Lemma time_of_day_range (t : Z) :
  0 <= JsDate.HourFromTime t <= 23
  /\ 0 <= JsDate.MinFromTime t <= 59
  /\ 0 <= JsDate.SecFromTime t <= 59.
Proof.
  unfold JsDate.HourFromTime, JsDate.MinFromTime, JsDate.SecFromTime,
    JsDate.msPerDay.
  Z.div_mod_to_equations. lia.
Qed.

Lemma sql_datetime_in_range (t : Z) :
  0 <= JsDate.YearFromTime t <= 9999 ->
  sql_datetime (Some t)
  = Some (sql_text (JsDate.YearFromTime t) (JsDate.MonthFromTime t)
            (JsDate.DateFromTime t) (JsDate.HourFromTime t)
            (JsDate.MinFromTime t) (JsDate.SecFromTime t)).
Proof.
  intros Hyear.
  unfold sql_datetime, JsDate.toISOString, JsDate.year_digits, sql_text.
  cbn [mbind option_bind].
  destruct (Z.leb_spec 0 (JsDate.YearFromTime t)); [|lia].
  destruct (Z.leb_spec (JsDate.YearFromTime t) 9999); [|lia].
  cbn [andb JsDate.pad4 JsDate.pad2 JsDate.pad3 app
       string_of_list_ascii String.substring replace_T].
  rewrite !digit_not_T.
  change (Ascii.eqb "-" "T") with false.
  change (Ascii.eqb "T" "T") with true.
  cbv iota. reflexivity.
Qed.

(** The date of the table.  For a date from the years 0 to 9999 the two
    functions return the nineteen characters YYYY-MM-DD HH:mm:ss of the
    UTC date and time: the cut at 19 removes the milliseconds and the Z,
    and the one "T" that is replaced is the separator.  The month is from
    1 to 12, the day from 1 to 31, the time below 24:00:00.  An invalid
    date throws.  Beyond the year 9999 [toISOString] prints a sign and six
    digits for the year, and the cut at 19 then removes the seconds. *)
Theorem sql_datetime_format :
  (forall t,
      0 <= JsDate.YearFromTime t <= 9999 ->
      sql_datetime (Some t)
      = Some (sql_text (JsDate.YearFromTime t) (JsDate.MonthFromTime t)
                (JsDate.DateFromTime t) (JsDate.HourFromTime t)
                (JsDate.MinFromTime t) (JsDate.SecFromTime t))
      /\ 1 <= JsDate.MonthFromTime t <= 12
      /\ 1 <= JsDate.DateFromTime t <= 31
      /\ 0 <= JsDate.HourFromTime t <= 23
      /\ 0 <= JsDate.MinFromTime t <= 59
      /\ 0 <= JsDate.SecFromTime t <= 59)
  /\ sql_datetime None = None
  /\ (forall t,
         9999 < JsDate.YearFromTime t ->
         sql_datetime (Some t)
         = Some (string_of_list_ascii
                   (["+"%char] ++ JsDate.pad6 (JsDate.YearFromTime t)
                    ++ ["-"%char] ++ JsDate.pad2 (JsDate.MonthFromTime t)
                    ++ ["-"%char] ++ JsDate.pad2 (JsDate.DateFromTime t)
                    ++ [" "%char] ++ JsDate.pad2 (JsDate.HourFromTime t)
                    ++ [":"%char] ++ JsDate.pad2 (JsDate.MinFromTime t)))).
Proof.
  split; [|split; [reflexivity|]].
  - intros t Hyear. split.
    + apply sql_datetime_in_range, Hyear.
    + pose proof (civil_from_days_range (t / JsDate.msPerDay)) as Hcivil.
      unfold JsDate.MonthFromTime, JsDate.DateFromTime.
      destruct (JsDate.civil_from_days (t / JsDate.msPerDay))
        as [[year month] day].
      cbn [fst snd]. pose proof (time_of_day_range t). tauto.
  - intros t Hyear.
    unfold sql_datetime, JsDate.toISOString, JsDate.year_digits.
    cbn [mbind option_bind].
    destruct (Z.leb_spec (JsDate.YearFromTime t) 9999); [lia|].
    rewrite andb_false_r.
    destruct (Z.ltb_spec (JsDate.YearFromTime t) 0); [lia|].
    rewrite Z.abs_eq by lia.
    cbn [JsDate.pad6 JsDate.pad2 JsDate.pad3 app
         string_of_list_ascii String.substring replace_T].
    rewrite !digit_not_T.
    change (Ascii.eqb "+" "T") with false.
    change (Ascii.eqb "-" "T") with false.
    change (Ascii.eqb "T" "T") with true.
    cbv iota. reflexivity.
Qed.

(** The theorem at the date of the sample rows. *)
Lemma sql_datetime_format_witness :
  sql_datetime (Some 1711876092000) = Some "2024-03-31 09:08:12"%string.
Proof.
  destruct (proj1 sql_datetime_format 1711876092000) as [Htext _].
  - vm_compute. split; discriminate.
  - exact Htext.
Defined.

(** *** From the text of the feed and back *)

Lemma era_year_back (yoe doy : Z) :
  0 <= yoe <= 399 ->
  0 <= doy <= 365 ->
  (doy = 365 ->
   (yoe + 1) mod 4 = 0 /\ ((yoe + 1) mod 100 <> 0 \/ yoe = 399)) ->
  let doe := yoe * 365 + yoe / 4 - yoe / 100 + doy in
  0 <= doe < 146097
  /\ (doe - doe / 1460 + doe / 36524 - doe / 146096) / 365 = yoe.
Proof.
  intros Hy Hd Hleap doe. subst doe. Z.div_mod_to_equations. lia.
Qed.

Lemma civil_round_trip (year month day : Z) :
  1 <= month <= 12 ->
  1 <= day <= DaysInMonth year month ->
  JsDate.civil_from_days (days_from_civil year month day)
  = (year, month, day).
Proof.
  intros Hmonth Hday.
  unfold days_from_civil.
  set (y := if month <=? 2 then year - 1 else year).
  set (mp := if month <=? 2 then month + 9 else month - 3).
  set (yoe := y mod 400).
  set (doy := (153 * mp + 2) / 5 + day - 1).
  assert (Hyoe : 0 <= yoe <= 399).
  { subst yoe. pose proof (Z.mod_pos_bound y 400 ltac:(lia)). lia. }
  assert (Hmp : 0 <= mp <= 11).
  { subst mp. destruct (Z.leb_spec month 2); lia. }
  assert (Hfacts :
    0 <= doy <= 365
    /\ (doy = 365 ->
        (yoe + 1) mod 4 = 0 /\ ((yoe + 1) mod 100 <> 0 \/ yoe = 399))
    /\ (5 * doy + 2) / 153 = mp
    /\ doy - (153 * mp + 2) / 5 + 1 = day).
  { subst doy yoe y mp. unfold DaysInMonth, is_leap in Hday.
    assert (Hcases : month = 1 \/ month = 2 \/ month = 3 \/ month = 4
                     \/ month = 5 \/ month = 6 \/ month = 7 \/ month = 8
                     \/ month = 9 \/ month = 10 \/ month = 11 \/ month = 12)
      by lia.
    destruct Hcases as [->|[->|[->|[->|[->|[->|[->|[->|[->|[->|[->| ->]]]]]]]]]]];
      cbn [Z.leb Z.eqb Z.compare Pos.compare Pos.compare_cont Pos.eqb orb
           Z.add Z.sub Z.mul Pos.add Pos.mul Z.opp Z.pos_sub Pos.succ
           Pos.pred_double Z.double Z.succ_double Z.pred_double
           Pos.add_carry] in *.
    all: try (destruct (Z.eqb_spec (year mod 4) 0);
              destruct (Z.eqb_spec (year mod 100) 0);
              destruct (Z.eqb_spec (year mod 400) 0);
              cbn [andb orb negb] in Hday).
    all: Z.div_mod_to_equations; lia. }
  destruct Hfacts as (Hdoy & Hleap & Hmonth' & Hday').
  destruct (era_year_back yoe doy Hyoe Hdoy Hleap) as [Hdoe Hback].
  set (doe := yoe * 365 + yoe / 4 - yoe / 100 + doy) in *.
  unfold JsDate.civil_from_days.
  replace (y / 400 * 146097 + doe - 719468 + 719468)
    with (doe + y / 400 * 146097) by lia.
  rewrite Z.div_add, Z.mod_add by lia.
  rewrite (Z.div_small doe), (Z.mod_small doe) by lia.
  cbv zeta. rewrite Hback. fold doe.
  replace (doe - (365 * yoe + yoe / 4 - yoe / 100)) with doy
    by (subst doe; lia).
  rewrite Hmonth', Hday'.
  assert (Hy : yoe + (0 + y / 400) * 400 = y).
  { subst yoe. pose proof (Z.div_mod y 400 ltac:(lia)). lia. }
  rewrite Hy. subst mp y.
  destruct (Z.leb_spec month 2).
  - destruct (Z.ltb_spec (month + 9) 10); [lia|].
    replace (month + 9 - 9) with month by lia.
    destruct (Z.leb_spec month 2); [|lia].
    f_equal. f_equal. lia.
  - destruct (Z.ltb_spec (month - 3) 10); [|lia].
    replace (month - 3 + 3) with month by lia.
    destruct (Z.leb_spec month 2); [lia|].
    f_equal. f_equal. lia.
Qed.

Lemma MakeDate_fields (year month day hour minute second ms : Z) :
  valid_date_time year month day hour minute second ms ->
  let t := MakeDate year month day hour minute second ms in
  JsDate.YearFromTime t = year
  /\ JsDate.MonthFromTime t = month
  /\ JsDate.DateFromTime t = day
  /\ JsDate.HourFromTime t = hour
  /\ JsDate.MinFromTime t = minute
  /\ JsDate.SecFromTime t = second
  /\ Z.abs t <= 8640000000000000.
Proof.
  intros (Hyear & Hmonth & Hday & Hhour & Hminute & Hsecond & Hms) t.
  pose proof (civil_round_trip year month day Hmonth Hday) as Hcivil.
  assert (Hdays : t / JsDate.msPerDay = days_from_civil year month day).
  { subst t. unfold MakeDate, JsDate.msPerDay.
    Z.div_mod_to_equations. lia. }
  unfold JsDate.YearFromTime, JsDate.MonthFromTime, JsDate.DateFromTime.
  rewrite Hdays, Hcivil. cbn [fst snd].
  repeat (split; [reflexivity|]).
  assert (Hbound : -1000000 <= days_from_civil year month day <= 4000000).
  { assert (Hshort : DaysInMonth year month <= 31).
    { unfold DaysInMonth.
      repeat match goal with
             | |- context [if ?b then _ else _] => destruct b
             end; lia. }
    unfold days_from_civil. cbv zeta.
    destruct (Z.leb_spec month 2); Z.div_mod_to_equations; lia. }
  subst t. unfold MakeDate, JsDate.HourFromTime, JsDate.MinFromTime,
    JsDate.SecFromTime, JsDate.msPerDay in *.
  set (days := days_from_civil year month day) in *. clearbody days.
  repeat split; Z.div_mod_to_equations; lia.
Qed.

Lemma iso_text_cut (year month day hour minute second ms : Z) :
  replace_T
    (String.substring 0 19 (iso_text year month day hour minute second ms))
  = sql_text year month day hour minute second.
Proof.
  unfold iso_text, sql_text.
  cbn [JsDate.pad4 JsDate.pad2 JsDate.pad3 app string_of_list_ascii
       String.substring replace_T].
  rewrite !digit_not_T.
  change (Ascii.eqb "-" "T") with false.
  change (Ascii.eqb "T" "T") with true.
  cbv iota. reflexivity.
Qed.

(** The dates of the feed keep their text.  For a UTC date and time
    written as the feed writes it, [YYYY-MM-DDTHH:mm:ss.sssZ], which the
    runtime parses to its time value, [convertToSqlDate] returns the same
    date and time as YYYY-MM-DD HH:mm:ss, which is the first nineteen
    characters of the input with the "T" replaced by a space: nothing is
    shifted to another zone and the milliseconds are cut, not rounded. *)
Theorem feed_dates_keep_their_text :
  forall (Date_parse : string -> option Z)
    (year month day hour minute second ms : Z),
    valid_date_time year month day hour minute second ms ->
    Date_parse (iso_text year month day hour minute second ms)
    = Some (MakeDate year month day hour minute second ms) ->
    convertToSqlDate Date_parse
      (iso_text year month day hour minute second ms)
    = Some (sql_text year month day hour minute second)
    /\ sql_text year month day hour minute second
       = replace_T
           (String.substring 0 19
              (iso_text year month day hour minute second ms)).
Proof.
  intros Date_parse year month day hour minute second ms Hvalid Hparse.
  split; [|symmetry; apply iso_text_cut].
  unfold convertToSqlDate. rewrite Hparse.
  destruct (MakeDate_fields year month day hour minute second ms Hvalid)
    as (Hy & Hmo & Hd & Hh & Hmi & Hs & _).
  cbv zeta in *.
  rewrite sql_datetime_in_range by (rewrite Hy; apply Hvalid).
  rewrite Hy, Hmo, Hd, Hh, Hmi, Hs. reflexivity.
Qed.

(** The theorem at the start date of the sample rows. *)
Lemma feed_dates_keep_their_text_witness :
  convertToSqlDate sample_parse "2024-03-31T09:08:12.000Z"
  = Some "2024-03-31 09:08:12"%string.
Proof.
  apply (feed_dates_keep_their_text sample_parse 2024 3 31 9 8 12 0).
  - unfold valid_date_time. vm_compute. repeat split; discriminate.
  - reflexivity.
Defined.

(** [getSqlDate] on a Unix time.  A number is read as seconds: for the
    Unix time of a date and time from the years 0 to 9999 the result is
    that date and time as YYYY-MM-DD HH:mm:ss.  The epoch itself is the
    exception: 0 is falsy, and [getSqlDate(0)] is the current time, as it
    is for no argument and for the empty string.  A number of seconds
    beyond 8.64e12 either side of the epoch is no date, and the function
    throws. *)
Theorem getSqlDate_reads_seconds :
  (forall (Date_parse : string -> option Z) (now : Z)
     (year month day hour minute second : Z),
      valid_date_time year month day hour minute second 0 ->
      let n := MakeDate year month day hour minute second 0 / 1000 in
      n <> 0 ->
      getSqlDate Date_parse now (Seconds n)
      = Some (sql_text year month day hour minute second))
  /\ (forall Date_parse now,
         getSqlDate Date_parse now (Seconds 0) = sql_datetime (Some now)
         /\ getSqlDate Date_parse now NoDate = sql_datetime (Some now)
         /\ getSqlDate Date_parse now (DateString "")
            = sql_datetime (Some now))
  /\ (forall Date_parse now n,
         8640000000000 < Z.abs n ->
         getSqlDate Date_parse now (Seconds n) = None).
Proof.
  split; [|split].
  - intros Date_parse now year month day hour minute second Hvalid n Hn.
    destruct (MakeDate_fields year month day hour minute second 0 Hvalid)
      as (Hy & Hmo & Hd & Hh & Hmi & Hs & Hclip).
    cbv zeta in *.
    assert (Hms : n * 1000 = MakeDate year month day hour minute second 0).
    { subst n. unfold MakeDate, JsDate.msPerDay.
      Z.div_mod_to_equations. lia. }
    unfold getSqlDate. rewrite Hms.
    destruct (Z.eqb_spec (MakeDate year month day hour minute second 0) 0)
      as [Hzero|_]; [lia|].
    unfold JsDate.TimeClip. apply Z.leb_le in Hclip. rewrite Hclip.
    rewrite sql_datetime_in_range by (rewrite Hy; apply Hvalid).
    rewrite Hy, Hmo, Hd, Hh, Hmi, Hs. reflexivity.
  - intros Date_parse now. repeat split.
  - intros Date_parse now n Hn. unfold getSqlDate, JsDate.TimeClip.
    destruct (Z.eqb_spec (n * 1000) 0); [lia|].
    destruct (Z.leb_spec (Z.abs (n * 1000)) 8640000000000000); [lia|].
    reflexivity.
Qed.

(** The theorem at the Unix time 1711876092. *)
Lemma getSqlDate_reads_seconds_witness :
  getSqlDate sample_parse 0 (Seconds 1711876092)
  = Some "2024-03-31 09:08:12"%string.
Proof.
  apply (proj1 getSqlDate_reads_seconds sample_parse 0 2024 3 31 9 8 12).
  - unfold valid_date_time. vm_compute. repeat split; discriminate.
  - vm_compute. discriminate.
Defined.

(** ** Connections to RabbitMQ *)





